(** * Session analyzer extension: coordinator, audio blobs and capture

    A shallow embedding of the extension's JavaScript:

    - [service_worker.js]: the background coordinator (top level of this
      file, functions keep their source names);
    - the popup script, module [Popup] (legacy migration, regenerate,
      record button);
    - the offscreen document, module [Offscreen] ([runBackendAnalysis]
      and its listener);
    - the delete and clear buttons of the popup's list, module
      [PopupList];
    - [escapeHtml] of [report.js], module [ReportView];
    - the coordinator's functions once more as tasks that wait at their
      platform calls, module [Async], and the event loop that interleaves
      them ([turn]).

    Modelling conventions.

    - A JavaScript value that is a string, [null] or [undefined] is an
      [option string]; [truthy] is JavaScript truthiness on it.
    - [chrome.storage.local] is the record [Store]: the [sessions] array
      (an absent key reads as the empty array, as the source's default
      does), the [activeSessionId] and [userProfile] keys, and the audio
      entries, a finite map from the full storage key
      ([AUDIO_STORAGE_PREFIX] followed by the session id) to the payload.
      Storage calls themselves succeed.
    - Every script runs in the monad [M]: state passing over [World] (the
      shared storage plus each context's module-level variables and the
      log of visible effects) with JavaScript exceptions as the left
      summand.  [try_catch] is [try { } catch (error) { }].
    - What the platform decides (random ids, the clock, the network, the
      media devices) is read from an [Env] record.
    - The analysis job is written in two halves, before and after the
      point where it waits for the analysis call; [processSessionAudioJob]
      is their composition and the coordinator machine [step] lets other
      messages arrive in between.
    - A script in [M] runs from its first line to its last with nothing
      in between.  Where the overlap of handlers matters, the same
      functions are written once more as tasks, module [Async], with one
      wait for each platform call they await; the event loop [turn]
      interleaves the tasks at their waits, and a task run alone
      ([finish]) is the script of the same name.
    - Left out: console output, timers, the rendering of the cards and of
      the report, and [durationMinutes], which is only forwarded inside
      the analysis request.  A message sent to the coordinator is always
      delivered. *)

From Stdlib Require Import Ascii.
From stdpp Require Import base strings list gmap pretty.

(** ** JavaScript values *)

Definition truthy (v : option string) : bool :=
  match v with
  | Some s => bool_decide (s ≠ "")
  | None => false
  end.

(** [a || b] where [b] is a string. *)
Definition or_str (a : option string) (b : string) : string :=
  match a with
  | Some s => if bool_decide (s ≠ "") then s else b
  | None => b
  end.

(** [a || b] where [b] may itself be null or undefined. *)
Definition or_val (a b : option string) : option string :=
  if truthy a then a else b.

Record JsError := { err_name : string; err_message : string }.

Definition Error (message : string) : JsError :=
  {| err_name := "Error"; err_message := message |}.

(** [String(error)], that is [Error.prototype.toString]. *)
Definition error_toString (e : JsError) : string :=
  if bool_decide (err_name e = "") then err_message e
  else if bool_decide (err_message e = "") then err_name e
  else err_name e +:+ ": " +:+ err_message e.

(** [error?.message || error] inside a template, and
    [error?.message || String(error)]. *)
Definition error_text (e : JsError) : string :=
  if bool_decide (err_message e ≠ "") then err_message e else error_toString e.

(** ** Data model *)

Inductive Status := recording | processing | done | failed.

Global Instance Status_eq_dec : EqDecision Status.
Proof. solve_decision. Defined.

Record Session := {
  id : string;
  title : option string;
  created_at : string;
  status : Status;
  session_report : option string;
  audio_base64 : option string;
  user_id : option string;
  user_name : option string;
  has_audio : bool;
  audio_mime_type : option string;
}.

Record UserProfile := { profile_id : string; profile_name : string }.

Record Store := {
  sessions : list Session;
  activeSessionId : option string;
  userProfile : option UserProfile;
  audio_entries : gmap string string;
}.

Definition empty_store : Store :=
  {| sessions := []; activeSessionId := None; userProfile := None;
     audio_entries := ∅ |}.

(** The patch object handed to [updateSession]; [None] is an absent key.
    For [audio_base64] the source distinguishes [undefined] (outer [None])
    from [null] (inner [None]). *)
Record Patch := {
  p_status : option Status;
  p_title : option string;
  p_session_report : option string;
  p_audio_base64 : option (option string);
  p_has_audio : option bool;
  p_audio_mime_type : option string;
}.

Definition no_patch : Patch :=
  {| p_status := None; p_title := None; p_session_report := None;
     p_audio_base64 := None; p_has_audio := None; p_audio_mime_type := None |}.

(** ** Messages *)

Record JobPayload := {
  sessionId : option string;
  audioBase64 : option string;
  mimeType : option string;
  isRegeneration : bool;
}.

(** The parsed body of the analysis endpoint, also the [result] object the
    offscreen document reports. *)
Record AnalysisResult := {
  r_title : option string;
  r_session_report : option string;
  r_status : option string;
  r_error : option string;
}.

Definition empty_result : AnalysisResult :=
  {| r_title := None; r_session_report := None; r_status := None;
     r_error := None |}.

Record AudioData := { a_audio_base64 : option string; a_mime_type : option string }.

Record ReportReady := {
  rr_sessionId : option string;
  rr_title : option string;
  rr_sessionReport : option string;
  rr_status : option string;
  rr_audioBase64 : option (option string);
  rr_hasAudio : option bool;
}.

Inductive Msg :=
| START_RECORDING
| STOP_RECORDING
| PROCESS_SESSION_AUDIO (payload : option JobPayload)
| OFFSCREEN_ANALYSIS_COMPLETE
    (sid : option string) (result : option AnalysisResult) (error : option string)
| SESSION_REPORT_READY (payload : option ReportReady)
| OTHER_ACTION (action : string).

Inductive Response :=
| RespOk (sid : option string)
| RespError (error : string).

Definition is_ok (r : Response) : bool :=
  match r with RespOk _ => true | RespError _ => false end.

(** ** The platform *)

(** What [fetch] does: it rejects (abort on timeout, connection failure)
    or yields a response with its [ok] flag, status code and, when the
    body parses as JSON, the parsed body. *)
Inductive FetchResult (A : Type) :=
| FetchRejects (e : JsError)
| FetchResponse (ok : bool) (code : N) (body : option A).
Arguments FetchRejects {A} e.
Arguments FetchResponse {A} ok code body.

Definition SyntaxError : JsError :=
  {| err_name := "SyntaxError"; err_message := "Unexpected end of JSON input" |}.

Record Env := {
  uuid_profile : string;
  uuid_session : string;
  now_iso : string;
  full_year : N;
  has_offscreen : bool;
  offscreen_channel : option JsError;
  audio_endpoint : string → string → FetchResult AudioData;
  analyze_endpoint : FetchResult AnalysisResult;
}.

(** A media track as the capture code sees it. *)
Inductive TrackKind := AudioTrack | VideoTrack.

Global Instance TrackKind_eq_dec : EqDecision TrackKind.
Proof. solve_decision. Defined.

Record Track := { track_kind : TrackKind; track_label : string }.

Global Instance Track_eq_dec : EqDecision Track.
Proof. solve_decision. Defined.

Definition MediaStream := list Track.

Definition getAudioTracks (s : MediaStream) : list Track :=
  filter (λ t, track_kind t = AudioTrack) s.

(** The media devices during one use of the record button: what the two
    acquisitions yield, the sizes of the chunks the recorder delivers and
    the base64 text of the final blob. *)
Record Devices := {
  getUserMedia : JsError + MediaStream;
  getDisplayMedia : JsError + MediaStream;
  recorded_chunks : list N;
  recorded_base64 : string;
}.

(** Effects visible outside the store. *)
Inductive Effect :=
| TabCreated (sid : string)
| BadgeText (text : string)
| BadgeColor (color : string)
| Alerted (message : string)
| TrackStopped (t : Track)
| Sent (m : Msg)
| RecorderStarted.

(** The job between its two halves. *)
Record Job := {
  job_sessionId : string;
  job_session : Session;
  job_audio : string;
  job_mime : string;
}.

(** The popup's module-level variables. *)
Record PopupState := {
  legacyAudioMigrationDone : bool;
  isRecording : bool;
  recorder : bool;
  displayStreamRef : option MediaStream;
  micStreamRef : option MediaStream;
  currentSessionId : option string;
}.

Definition initial_popup : PopupState :=
  {| legacyAudioMigrationDone := false; isRecording := false; recorder := false;
     displayStreamRef := None; micStreamRef := None; currentSessionId := None |}.

Record World := {
  storage : Store;
  autoOpenedReportSessions : gset string;
  in_flight : list Job;
  popup : PopupState;
  effects : list Effect;
}.

Definition initial_world : World :=
  {| storage := empty_store; autoOpenedReportSessions := ∅; in_flight := [];
     popup := initial_popup; effects := [] |}.

(** ** The monad of scripts *)

Definition M (A : Type) : Type := World → (JsError + A) * World.

Definition ret {A} (x : A) : M A := λ w, (inr x, w).

Definition bind {A B} (m : M A) (k : A → M B) : M B :=
  λ w, match m w with
       | (inr x, w') => k x w'
       | (inl e, w') => (inl e, w')
       end.

Definition throw {A} (e : JsError) : M A := λ w, (inl e, w).

Definition try_catch {A} (body : M A) (handler : JsError → M A) : M A :=
  λ w, match body w with
       | (inr x, w') => (inr x, w')
       | (inl e, w') => handler e w'
       end.

Definition gets {A} (f : World → A) : M A := λ w, (inr (f w), w).

Definition modify (f : World → World) : M unit := λ w, (inr tt, f w).

Global Instance M_ret : MRet M := @ret.
Global Instance M_bind : MBind M := λ A B k m, bind m k.

Definition set_storage (f : Store → Store) (w : World) : World :=
  {| storage := f (storage w);
     autoOpenedReportSessions := autoOpenedReportSessions w;
     in_flight := in_flight w; popup := popup w; effects := effects w |}.

Definition set_autoOpened (f : gset string → gset string) (w : World) : World :=
  {| storage := storage w;
     autoOpenedReportSessions := f (autoOpenedReportSessions w);
     in_flight := in_flight w; popup := popup w; effects := effects w |}.

Definition set_in_flight (f : list Job → list Job) (w : World) : World :=
  {| storage := storage w;
     autoOpenedReportSessions := autoOpenedReportSessions w;
     in_flight := f (in_flight w); popup := popup w; effects := effects w |}.

Definition set_popup (f : PopupState → PopupState) (w : World) : World :=
  {| storage := storage w;
     autoOpenedReportSessions := autoOpenedReportSessions w;
     in_flight := in_flight w; popup := f (popup w); effects := effects w |}.

(** Effects are logged oldest first. *)
Definition emit (e : Effect) : M unit :=
  modify (λ w,
    {| storage := storage w;
       autoOpenedReportSessions := autoOpenedReportSessions w;
       in_flight := in_flight w; popup := popup w;
       effects := effects w ++ [e] |}).

(** *** [chrome.storage.local] *)

Definition set_sessions (l : list Session) (s : Store) : Store :=
  {| sessions := l; activeSessionId := activeSessionId s;
     userProfile := userProfile s; audio_entries := audio_entries s |}.

Definition set_activeSessionId (a : option string) (s : Store) : Store :=
  {| sessions := sessions s; activeSessionId := a;
     userProfile := userProfile s; audio_entries := audio_entries s |}.

Definition set_userProfile (p : option UserProfile) (s : Store) : Store :=
  {| sessions := sessions s; activeSessionId := activeSessionId s;
     userProfile := p; audio_entries := audio_entries s |}.

Definition set_audio_entries (f : gmap string string → gmap string string)
    (s : Store) : Store :=
  {| sessions := sessions s; activeSessionId := activeSessionId s;
     userProfile := userProfile s; audio_entries := f (audio_entries s) |}.

Definition get_sessions : M (list Session) := gets (λ w, sessions (storage w)).

Definition put_sessions (l : list Session) : M unit :=
  modify (set_storage (set_sessions l)).

(** ** config.js *)

Definition AUDIO_STORAGE_PREFIX : string := "sessionAudio_".

Definition audio_key (sid : string) : string := AUDIO_STORAGE_PREFIX +:+ sid.

(** ** service_worker.js *)

Definition openReportTab (sid : option string) : M unit :=
  opened ← gets autoOpenedReportSessions;
  match sid with
  | Some s =>
      if bool_decide (s ≠ "") && negb (bool_decide (s ∈ opened)) then
        modify (set_autoOpened (λ o, {[s]} ∪ o));;
        emit (TabCreated s)
      else mret tt
  | None => mret tt
  end.

Definition requestBackendAnalysis (env : Env) : M AnalysisResult :=
  match analyze_endpoint env with
  | FetchRejects e => throw e
  | FetchResponse ok code body =>
      let data := default empty_result body in
      if ok then mret data
      else throw (Error (or_str (r_error data) ("HTTP " +:+ pretty code)))
  end.

Definition persistSessionAudioBlob (sid : string) (audio : option string) : M unit :=
  match audio with
  | Some a =>
      if bool_decide (sid ≠ "") && bool_decide (a ≠ "") then
        modify (set_storage (set_audio_entries (<[audio_key sid := a]>)))
      else mret tt
  | None => mret tt
  end.

Definition clearSessionAudioBlob (sid : string) : M unit :=
  if bool_decide (sid ≠ "") then
    modify (set_storage (set_audio_entries (delete (audio_key sid))))
  else mret tt.

Definition getUserProfile (env : Env) : M UserProfile :=
  stored ← gets (λ w, userProfile (storage w));
  let create :=
    let profile :=
      {| profile_id := uuid_profile env;
         profile_name := "User-" +:+ pretty (full_year env) |} in
    modify (set_storage (set_userProfile (Some profile)));;
    mret profile in
  match stored with
  | Some p =>
      if bool_decide (profile_id p ≠ "") && bool_decide (profile_name p ≠ "")
      then mret p else create
  | None => create
  end.

Definition loadSessionAudioBlob (sid : string) : M (option string) :=
  if bool_decide (sid = "") then mret None
  else
    stored ← gets (λ w, audio_entries (storage w) !! audio_key sid);
    mret (if truthy stored then stored else None).

Definition findIndex (sid : string) (l : list Session) : option (nat * Session) :=
  list_find (λ s, id s = sid) l.

Definition getSessionById (sid : option string) : M (option Session) :=
  all ← get_sessions;
  mret (match sid with
        | Some s => snd <$> findIndex s all
        | None => None
        end).

Definition fetchSessionAudioFromBackend (env : Env)
    (userId : option string) (sid : string) : M (option AudioData) :=
  match userId with
  | Some u =>
      if bool_decide (u ≠ "") && bool_decide (sid ≠ "") then
        match audio_endpoint env u sid with
        | FetchRejects _ => mret None
        | FetchResponse ok _ body => mret (if ok then body else None)
        end
      else mret None
  | None => mret None
  end.

(** [{ ...existing, ...rest }] *)
Definition merge (existing : Session) (rest : Patch) : Session :=
  {| id := id existing;
     title := match p_title rest with Some t => Some t | None => title existing end;
     created_at := created_at existing;
     status := default (status existing) (p_status rest);
     session_report :=
       match p_session_report rest with
       | Some r => Some r
       | None => session_report existing
       end;
     audio_base64 := audio_base64 existing;
     user_id := user_id existing;
     user_name := user_name existing;
     has_audio := default (has_audio existing) (p_has_audio rest);
     audio_mime_type :=
       match p_audio_mime_type rest with
       | Some m => Some m
       | None => audio_mime_type existing
       end |}.

Definition with_has_audio (b : bool) (s : Session) : Session :=
  {| id := id s; title := title s; created_at := created_at s;
     status := status s; session_report := session_report s;
     audio_base64 := audio_base64 s; user_id := user_id s;
     user_name := user_name s; has_audio := b;
     audio_mime_type := audio_mime_type s |}.

Definition updateSession (sid : string) (patch : Patch) : M unit :=
  all ← get_sessions;
  match findIndex sid all with
  | Some (idx, found) =>
      existing ←
        match p_audio_base64 patch with
        | Some audio =>
            if truthy audio then
              persistSessionAudioBlob sid audio;;
              mret (with_has_audio true found)
            else
              clearSessionAudioBlob sid;;
              mret (with_has_audio false found)
        | None => mret found
        end;
      put_sessions (<[idx := merge existing patch]> all)
  | None => mret tt
  end.

Definition ensureAudioForSession (env : Env) (session : Session)
    (providedAudio mime : option string) : M (option string * string) :=
  if truthy providedAudio then
    mret (providedAudio,
          or_str mime (or_str (audio_mime_type session) "audio/webm"))
  else
    cached ← loadSessionAudioBlob (id session);
    if truthy cached then
      mret (cached, or_str (audio_mime_type session) "audio/webm")
    else
      downloaded ← fetchSessionAudioFromBackend env (user_id session) (id session);
      if truthy (downloaded ≫= a_audio_base64) then
        persistSessionAudioBlob (id session) (downloaded ≫= a_audio_base64);;
        updateSession (id session)
          {| p_status := None; p_title := None; p_session_report := None;
             p_audio_base64 := None; p_has_audio := Some true;
             p_audio_mime_type :=
               Some (or_str (downloaded ≫= a_mime_type) "audio/webm") |};;
        mret (downloaded ≫= a_audio_base64,
              or_str (downloaded ≫= a_mime_type) "audio/webm")
      else
        mret (None, or_str mime (or_str (audio_mime_type session) "audio/webm")).

Definition NO_AUDIO_REPORT : string := "فایل صوتی برای تحلیل موجود نیست.".
Definition INVALID_MODEL_OUTPUT : string := "مدل خروجی معتبر ارسال نکرد.".
Definition ANALYSIS_ERROR_PREFIX : string := "خطا در تحلیل جلسه: ".
Definition DISPATCH_ERROR_PREFIX : string := "خطا در آغاز تحلیل: ".

Definition failed_patch (report : string) : Patch :=
  {| p_status := Some failed; p_title := None; p_session_report := Some report;
     p_audio_base64 := None; p_has_audio := None; p_audio_mime_type := None |}.

Definition is_error_status (r : option AnalysisResult) : bool :=
  bool_decide ((r ≫= r_status) = Some "error").

(** The patch written when an analysis result arrives;
    [fallback_title] is [session.title || "Session Report"] on the
    in-worker path and ["Session Report"] on the offscreen path. *)
Definition result_patch (r : option AnalysisResult) (fallback_title : string) : Patch :=
  {| p_status := Some (if is_error_status r then failed else done);
     p_title := Some (or_str (r ≫= r_title) fallback_title);
     p_session_report :=
       Some (or_str (r ≫= r_session_report)
               (or_str (r ≫= r_error)
                  (if is_error_status r then INVALID_MODEL_OUTPUT else "")));
     p_audio_base64 := None; p_has_audio := None; p_audio_mime_type := None |}.

(** Lines 175 to 198 of [processSessionAudioJob]: everything before the
    analysis call.  [None] is an early [return]. *)
Definition beginSessionAudioJob (env : Env) (payload : JobPayload) : M (option Job) :=
  session ← getSessionById (sessionId payload);
  match session, sessionId payload with
  | Some session, Some sid =>
      resolved ← ensureAudioForSession env session (audioBase64 payload) (mimeType payload);
      match resolved.1 with
      | Some readyAudio =>
          if bool_decide (readyAudio ≠ "") then
            updateSession sid
              {| p_status := Some processing; p_title := None;
                 p_session_report := None;
                 p_audio_base64 := Some (Some readyAudio); p_has_audio := None;
                 p_audio_mime_type := Some resolved.2 |};;
            modify (set_autoOpened (λ o, o ∖ {[sid]}));;
            mret (Some {| job_sessionId := sid; job_session := session;
                          job_audio := readyAudio; job_mime := resolved.2 |})
          else
            updateSession sid (failed_patch NO_AUDIO_REPORT);;
            mret None
      | None =>
          updateSession sid (failed_patch NO_AUDIO_REPORT);;
          mret None
      end
  | _, _ => mret None
  end.

Definition newSessionMeta (env : Env) (profile : UserProfile) : Session :=
  {| id := uuid_session env;
     title := Some "Session";
     created_at := now_iso env;
     status := recording;
     session_report := None;
     audio_base64 := None;
     user_id := Some (profile_id profile);
     user_name := Some (profile_name profile);
     has_audio := false;
     audio_mime_type := Some "audio/webm" |}.

Definition pushSession (session : Session) : M unit :=
  all ← get_sessions;
  put_sessions (all ++ [session]).

(** The listener's branches.  The [PROCESS_SESSION_AUDIO] branch starts the
    job without awaiting it: its first half runs here and the waiting job
    is recorded in [in_flight]; a failure of the job goes to the
    [.catch] of the call. *)
Definition onSTART_RECORDING (env : Env) : M Response :=
  profile ← getUserProfile env;
  let session := newSessionMeta env profile in
  pushSession session;;
  modify (set_storage (set_activeSessionId (Some (id session))));;
  emit (BadgeText "●");;
  emit (BadgeColor "#ef4444");;
  mret (RespOk (Some (id session))).

Definition status_patch (st : Status) : Patch :=
  {| p_status := Some st; p_title := None; p_session_report := None;
     p_audio_base64 := None; p_has_audio := None; p_audio_mime_type := None |}.

Definition onSTOP_RECORDING : M Response :=
  active ← gets (λ w, activeSessionId (storage w));
  match active with
  | Some a =>
      if bool_decide (a ≠ "") then
        updateSession a (status_patch processing);;
        modify (set_storage (set_activeSessionId None));;
        emit (BadgeText "");;
        mret (RespOk (Some a))
      else mret (RespError "No active session.")
  | None => mret (RespError "No active session.")
  end.

Definition onPROCESS_SESSION_AUDIO (env : Env) (payload : option JobPayload) : M Response :=
  if truthy (payload ≫= sessionId) then
    job ← try_catch
             (beginSessionAudioJob env
                (default {| sessionId := None; audioBase64 := None;
                            mimeType := None; isRegeneration := false |} payload))
             (λ _, mret None);
    match job with
    | Some j => modify (set_in_flight (λ l, l ++ [j]))
    | None => mret tt
    end;;
    mret (RespOk None)
  else mret (RespError "Missing sessionId.").

Definition onOFFSCREEN_ANALYSIS_COMPLETE (sid : option string)
    (result : option AnalysisResult) (resultError : option string) : M Response :=
  match sid with
  | Some s =>
      if bool_decide (s ≠ "") then
        if truthy resultError then
          updateSession s
            (failed_patch (ANALYSIS_ERROR_PREFIX +:+ default "" resultError));;
          mret (RespOk None)
        else
          updateSession s (result_patch result "Session Report");;
          (if negb (is_error_status result) && truthy (result ≫= r_session_report)
           then openReportTab sid else mret tt);;
          mret (RespOk None)
      else mret (RespError "Missing sessionId.")
  | None => mret (RespError "Missing sessionId.")
  end.

Definition report_ready_patch (p : ReportReady) : Patch :=
  {| p_status := Some (if bool_decide (rr_status p = Some "error") then failed else done);
     p_title := Some (or_str (rr_title p) "Session Report");
     p_session_report := Some (or_str (rr_sessionReport p) "");
     p_audio_base64 := rr_audioBase64 p;
     p_has_audio :=
       match rr_hasAudio p, rr_audioBase64 p with
       | Some b, _ => Some b
       | None, Some audio => Some (truthy audio)
       | None, None => None
       end;
     p_audio_mime_type := None |}.

Definition onSESSION_REPORT_READY (payload : option ReportReady) : M Response :=
  match payload with
  | Some p =>
      match rr_sessionId p with
      | Some s =>
          if bool_decide (s ≠ "") then
            updateSession s (report_ready_patch p);;
            mret (RespOk None)
          else mret (RespError "Missing sessionId.")
      | None => mret (RespError "Missing sessionId.")
      end
  | None => mret (RespError "Missing sessionId.")
  end.

Definition onMessage (env : Env) (msg : Msg) : M Response :=
  try_catch
    match msg with
    | START_RECORDING => onSTART_RECORDING env
    | STOP_RECORDING => onSTOP_RECORDING
    | PROCESS_SESSION_AUDIO payload => onPROCESS_SESSION_AUDIO env payload
    | OFFSCREEN_ANALYSIS_COMPLETE sid result error =>
        onOFFSCREEN_ANALYSIS_COMPLETE sid result error
    | SESSION_REPORT_READY payload => onSESSION_REPORT_READY payload
    | OTHER_ACTION _ => mret (RespError "Unknown action.")
    end
    (λ e, mret (RespError (error_text e))).

(** ** The offscreen document *)

Module Offscreen.

Definition runBackendAnalysis (env : Env) (job : Job) : M AnalysisResult :=
  if bool_decide (job_sessionId job = "") || bool_decide (job_audio job = "") then
    throw (Error "Missing audio payload for analysis")
  else
    match analyze_endpoint env with
    | FetchRejects e => throw e
    | FetchResponse ok code body =>
        let data := default empty_result body in
        if ok then
          mret {| r_title := Some (or_str (r_title data) "Session Report");
                  r_session_report :=
                    Some (or_str (r_session_report data) (or_str (r_error data) ""));
                  r_status := Some (or_str (r_status data) "ok");
                  r_error := None |}
        else throw (Error (or_str (r_error data) ("کد خطا " +:+ pretty code)))
    end.

(** The [OFFSCREEN_ANALYZE_SESSION] listener; its completion message is
    delivered to the coordinator's listener before it answers. *)
Definition onMessage (env : Env) (job : Job) : M Response :=
  try_catch
    (result ← runBackendAnalysis env job;
     _ ← onMessage env
           (OFFSCREEN_ANALYSIS_COMPLETE (Some (job_sessionId job)) (Some result) None);
     mret (RespOk None))
    (λ error,
     _ ← onMessage env
           (OFFSCREEN_ANALYSIS_COMPLETE (Some (job_sessionId job)) None
              (Some (error_text error)));
     mret (RespError (error_text error))).

End Offscreen.

(** ** service_worker.js, continued *)

(** [offscreen_channel env = Some e]: creating the offscreen document or
    delivering the message fails with [e] ([chrome.runtime.lastError]). *)
Definition dispatchOffscreenAnalysis (env : Env) (job : Job) : M unit :=
  match offscreen_channel env with
  | Some e => throw e
  | None =>
      response ← Offscreen.onMessage env job;
      match response with
      | RespOk _ => mret tt
      | RespError error =>
          throw (Error (or_str (Some error) "Offscreen document rejected analysis job"))
      end
  end.

(** Lines 200 to 245 of [processSessionAudioJob]: the analysis call and
    what follows it. *)
Definition analyseSessionAudioJob (env : Env) (job : Job) : M unit :=
  if negb (has_offscreen env) then
    try_catch
      (result ← requestBackendAnalysis env;
       updateSession (job_sessionId job)
         (result_patch (Some result)
            (or_str (title (job_session job)) "Session Report"));;
       if negb (is_error_status (Some result)) && truthy (r_session_report result)
       then openReportTab (Some (job_sessionId job)) else mret tt)
      (λ error,
       updateSession (job_sessionId job)
         (failed_patch (ANALYSIS_ERROR_PREFIX +:+ error_text error)))
  else
    try_catch
      (dispatchOffscreenAnalysis env job)
      (λ error,
       updateSession (job_sessionId job)
         (failed_patch (DISPATCH_ERROR_PREFIX +:+ error_text error))).

Definition processSessionAudioJob (env : Env) (payload : JobPayload) : M unit :=
  job ← beginSessionAudioJob env payload;
  match job with
  | Some j => analyseSessionAudioJob env j
  | None => mret tt
  end.

(** A waiting job resumes when its analysis call settles.  The source
    keeps no queue of jobs and calls settle in any order; this script
    takes the jobs in the order in which they were started, which is one
    of the possible orders. *)
Definition settle (env : Env) : M unit :=
  waiting ← gets in_flight;
  match waiting with
  | j :: rest =>
      modify (set_in_flight (λ _, rest));;
      try_catch (analyseSessionAudioJob env j) (λ _, mret tt)
  | [] => mret tt
  end.

(** *** The coordinator, one handler at a time

    Each event runs its handler from the first line to the last: a
    message is handled to its answer (for [PROCESS_SESSION_AUDIO], up to
    the point where the job waits for the analysis call), and a settled
    call runs the rest of its job.  So [run] and [reachable] describe the
    coordinator when no two handlers overlap and nothing else writes the
    store; the handlers with their waits, and the schedules in which they
    overlap, are the tasks of [Async] and the loop [turn] further down. *)

Inductive Event :=
| Deliver (env : Env) (msg : Msg)
| Settle (env : Env).

Definition step (w : World) (ev : Event) : World :=
  match ev with
  | Deliver env msg => (onMessage env msg w).2
  | Settle env => (settle env w).2
  end.

Definition run (evs : list Event) (w : World) : World := foldl step w evs.

Definition reachable (w : World) : Prop := ∃ evs, run evs initial_world = w.

Definition response_of (env : Env) (msg : Msg) (w : World) : Response :=
  match (onMessage env msg w).1 with
  | inr r => r
  | inl e => RespError (error_text e)
  end.

(** ** The popup script *)

Module Popup.

(** The popup's own [persistSessionAudioBlob], [loadSessionAudioBlob] and
    [clearSessionAudioBlob] are the coordinator's with the storage call
    inside a [try]; the definitions above serve both scripts. *)

Definition with_migrationDone (b : bool) (p : PopupState) : PopupState :=
  {| legacyAudioMigrationDone := b; isRecording := isRecording p;
     recorder := recorder p; displayStreamRef := displayStreamRef p;
     micStreamRef := micStreamRef p; currentSessionId := currentSessionId p |}.

Definition with_isRecording (b : bool) (p : PopupState) : PopupState :=
  {| legacyAudioMigrationDone := legacyAudioMigrationDone p; isRecording := b;
     recorder := recorder p; displayStreamRef := displayStreamRef p;
     micStreamRef := micStreamRef p; currentSessionId := currentSessionId p |}.

Definition with_recorder (b : bool) (p : PopupState) : PopupState :=
  {| legacyAudioMigrationDone := legacyAudioMigrationDone p;
     isRecording := isRecording p; recorder := b;
     displayStreamRef := displayStreamRef p;
     micStreamRef := micStreamRef p; currentSessionId := currentSessionId p |}.

Definition with_displayStreamRef (s : option MediaStream) (p : PopupState) : PopupState :=
  {| legacyAudioMigrationDone := legacyAudioMigrationDone p;
     isRecording := isRecording p; recorder := recorder p;
     displayStreamRef := s;
     micStreamRef := micStreamRef p; currentSessionId := currentSessionId p |}.

Definition with_micStreamRef (s : option MediaStream) (p : PopupState) : PopupState :=
  {| legacyAudioMigrationDone := legacyAudioMigrationDone p;
     isRecording := isRecording p; recorder := recorder p;
     displayStreamRef := displayStreamRef p;
     micStreamRef := s; currentSessionId := currentSessionId p |}.

Definition with_currentSessionId (v : option string) (p : PopupState) : PopupState :=
  {| legacyAudioMigrationDone := legacyAudioMigrationDone p;
     isRecording := isRecording p; recorder := recorder p;
     displayStreamRef := displayStreamRef p;
     micStreamRef := micStreamRef p; currentSessionId := v |}.

(** [chrome.runtime.sendMessage] towards the coordinator. *)
Definition send (env : Env) (msg : Msg) : M Response :=
  emit (Sent msg);;
  onMessage env msg.

Definition alert (message : string) : M unit := emit (Alerted message).

Definition formatBackendError (error : JsError) : string :=
  if bool_decide (err_name error = "AbortError") then
    "مهلت ارتباط با سرور به پایان رسید. لطفاً دوباره تلاش کنید."
  else error_text error.

(** What the loop body of [migrateLegacySessionAudio] leaves in a record
    that carries inline audio. *)
Definition migrated (s : Session) : Session :=
  {| id := id s; title := title s; created_at := created_at s;
     status := status s; session_report := session_report s;
     audio_base64 := None; user_id := user_id s; user_name := user_name s;
     has_audio := true; audio_mime_type := audio_mime_type s |}.

(** The [for ... of cloned] loop: the array after the in-place updates and
    the [modified] flag. *)
Fixpoint migrate_loop (cloned : list Session) (modified : bool)
    : M (list Session * bool) :=
  match cloned with
  | [] => mret ([], modified)
  | session :: rest =>
      if truthy (audio_base64 session) then
        persistSessionAudioBlob (id session) (audio_base64 session);;
        '(rest', modified') ← migrate_loop rest true;
        mret (migrated session :: rest', modified')
      else
        '(rest', modified') ← migrate_loop rest modified;
        mret (session :: rest', modified')
  end.

(** The session objects are updated in place, so the caller's array shows
    the migrated records: the function returns that array. *)
Definition migrateLegacySessionAudio (all : list Session) : M (list Session) :=
  finished ← gets (λ w, legacyAudioMigrationDone (popup w));
  if finished : bool then mret all
  else
    '(cloned, modified) ← migrate_loop all false;
    (if modified : bool then put_sessions cloned else mret tt);;
    modify (set_popup (with_migrationDone true));;
    mret cloned.

(** [refreshSessions] up to the rendering of the cards. *)
Definition refreshSessions : M unit :=
  stored ← gets storage;
  _ ← migrateLegacySessionAudio (sessions stored);
  modify (set_popup (with_isRecording (truthy (activeSessionId stored)))).

Definition fetchSessionAudioFromBackend (env : Env) (session : Session)
    : M (option string) :=
  data ← fetchSessionAudioFromBackend env (user_id session) (id session);
  mret (if truthy (data ≫= a_audio_base64) then data ≫= a_audio_base64 else None).

Definition without_inline_audio (s : Session) : Session :=
  {| id := id s; title := title s; created_at := created_at s;
     status := status s; session_report := session_report s;
     audio_base64 := None; user_id := user_id s; user_name := user_name s;
     has_audio := has_audio s; audio_mime_type := audio_mime_type s |}.

Definition patchSession (sid : string) (patch : Patch) : M unit :=
  all ← get_sessions;
  match findIndex sid all with
  | None => mret tt
  | Some (idx, found) =>
      sessionCopy ←
        match p_audio_base64 patch with
        | Some (Some audio) =>
            if bool_decide (audio ≠ "") then
              persistSessionAudioBlob sid (Some audio);;
              mret (with_has_audio true (without_inline_audio found))
            else mret (without_inline_audio found)
        | Some None =>
            clearSessionAudioBlob sid;;
            mret (with_has_audio false (without_inline_audio found))
        | None => mret found
        end;
      put_sessions (<[idx := merge sessionCopy patch]> all)
  end.

Definition resolveSessionAudio (env : Env) (session : Session) : M (option string) :=
  if truthy (audio_base64 session) then
    patchSession (id session)
      {| p_status := None; p_title := None; p_session_report := None;
         p_audio_base64 := Some (audio_base64 session); p_has_audio := None;
         p_audio_mime_type := None |};;
    mret (audio_base64 session)
  else
    cached ← loadSessionAudioBlob (id session);
    if truthy cached then mret cached
    else
      downloaded ← fetchSessionAudioFromBackend env session;
      if truthy downloaded then
        persistSessionAudioBlob (id session) downloaded;;
        patchSession (id session)
          {| p_status := None; p_title := None; p_session_report := None;
             p_audio_base64 := None; p_has_audio := Some true;
             p_audio_mime_type := None |};;
        mret downloaded
      else mret None.

Definition error_report (sid title : option string) (report : string)
    (audio : option string) : Msg :=
  SESSION_REPORT_READY
    (Some {| rr_sessionId := sid; rr_title := title;
             rr_sessionReport := Some report; rr_status := Some "error";
             rr_audioBase64 := Some audio; rr_hasAudio := None |}).

Definition regenerateSession (env : Env) (sid : string) : M unit :=
  session ← getSessionById (Some sid);
  match session with
  | None => alert "جلسه موردنظر یافت نشد."
  | Some session =>
      audio ← resolveSessionAudio env session;
      if negb (truthy audio) then
        alert "فایل صوتی این جلسه در دسترس نیست و از سرور نیز یافت نشد."
      else
        patchSession sid (status_patch processing);;
        refreshSessions;;
        try_catch
          (response ← send env
             (PROCESS_SESSION_AUDIO
                (Some {| sessionId := Some sid; audioBase64 := audio;
                         mimeType := Some (or_str (audio_mime_type session) "audio/webm");
                         isRegeneration := true |}));
           match response with
           | RespOk _ => mret tt
           | RespError error => throw (Error (or_str (Some error) "بازتحلیل آغاز نشد."))
           end)
          (λ error,
           _ ← send env
                 (error_report (Some sid) (title session)
                    ("خطا در بازتحلیل جلسه: " +:+ formatBackendError error)
                    (if truthy audio then audio else None));
           alert (formatBackendError error));;
        refreshSessions
  end.

Definition stop_tracks (s : option MediaStream) : M unit :=
  mapM (λ t, emit (TrackStopped t)) (default [] s);; mret tt.

(** [recorder.onstop]. *)
Definition onstop (env : Env) (dev : Devices) : M unit :=
  display ← gets (λ w, displayStreamRef (popup w));
  mic ← gets (λ w, micStreamRef (popup w));
  stop_tracks display;;
  stop_tracks mic;;
  current ← gets (λ w, currentSessionId (popup w));
  let chunks := filter (λ n, (0 < n)%N) (recorded_chunks dev) in
  let reset :=
    modify (set_popup (λ p, with_currentSessionId None (with_recorder false p)));;
    refreshSessions in
  if bool_decide (length chunks = 0) then
    alert "خطا: هیچ صدایی ضبط نشد. لطفاً دوباره تلاش کنید.";;
    _ ← send env (error_report current (Some "جلسه") "خطا: صدا ضبط نشد" None);
    reset
  else if bool_decide (foldr N.add 0%N chunks = 0%N) then
    alert "خطا: فایل صوتی خالی است.";;
    _ ← send env (error_report current (Some "جلسه") "خطا: فایل صوتی خالی" None);
    reset
  else
    try_catch
      (response ← send env
         (PROCESS_SESSION_AUDIO
            (Some {| sessionId := current; audioBase64 := Some (recorded_base64 dev);
                     mimeType := Some "audio/webm"; isRegeneration := false |}));
       match response with
       | RespOk _ => mret tt
       | RespError error =>
           throw (Error (or_str (Some error) "ارسال فایل برای تحلیل ناموفق بود."))
       end)
      (λ error,
       _ ← send env
             (error_report current (Some "خطا در تحلیل")
                ("خطا در ارسال فایل برای تحلیل: " +:+ formatBackendError error) None);
       alert (formatBackendError error));;
    reset.

Definition NO_AUDIO_SOURCE : string :=
  "خطا: هیچ منبع صوتی در دسترس نیست. لطفاً هنگام انتخاب صفحه، گزینه 'Share audio' را فعال کنید.".

(** The click listener of the record button. *)
Definition recordBtn_click (env : Env) (dev : Devices) : M unit :=
  recordingNow ← gets (λ w, isRecording (popup w));
  if recordingNow : bool then
    _ ← send env STOP_RECORDING;
    active ← gets (λ w, recorder (popup w));
    if active : bool then onstop env dev else mret tt
  else
    try_catch
      (res ← send env START_RECORDING;
       match res with
       | RespError error => alert (or_str (Some error) "شروع جلسه با خطا مواجه شد.")
       | RespOk sid =>
           if negb (truthy sid) then alert "شروع جلسه با خطا مواجه شد."
           else
             modify (set_popup (with_currentSessionId sid));;
             modify (set_popup (with_micStreamRef
               match getUserMedia dev with inr s => Some s | inl _ => None end));;
             display ← match getDisplayMedia dev with
                       | inr s => mret s
                       | inl e => throw e
                       end;
             modify (set_popup (with_displayStreamRef (Some display)));;
             mic ← gets (λ w, micStreamRef (popup w));
             let hasAudio :=
               bool_decide (0 < length (getAudioTracks display)) ||
               bool_decide (0 < length (getAudioTracks (default [] mic))) in
             if negb hasAudio then
               alert NO_AUDIO_SOURCE;;
               stop_tracks (Some display);;
               stop_tracks mic;;
               _ ← send env STOP_RECORDING;
               refreshSessions
             else
               modify (set_popup (with_recorder true));;
               emit RecorderStarted;;
               refreshSessions
       end)
      (λ e,
       alert (if bool_decide (err_name e = "NotAllowedError")
              then "خطا: دسترسی به صفحه یا میکروفون رد شد."
              else "خطا: " +:+ error_text e);;
       _ ← send env STOP_RECORDING;
       refreshSessions).

End Popup.

(** ** report.js *)

Module Report.

(** The click listener of the regenerate button: [sid] is the page's
    [sessionId] parameter; the guard on [regenInFlight] and the toast are
    not modelled. *)
Definition regenBtn_click (env : Env) (sid : option string) : M (option Response) :=
  if negb (truthy sid) then mret None
  else
    response ← Popup.send env
      (PROCESS_SESSION_AUDIO
         (Some {| sessionId := sid; audioBase64 := None; mimeType := None;
                  isRegeneration := true |}));
    mret (Some response).

End Report.

(** ** Vocabulary of the statements *)

(** The record [updateSession] writes at the index it found. *)
Definition patched (found : Session) (patch : Patch) : Session :=
  merge
    match p_audio_base64 patch with
    | Some audio => with_has_audio (truthy audio) found
    | None => found
    end
    patch.

(** What [updateSession] does to the audio entries. *)
Definition audio_after (sid : string) (patch : Patch)
    (m : gmap string string) : gmap string string :=
  match p_audio_base64 patch with
  | Some (Some a) =>
      if bool_decide (sid ≠ "") then
        if bool_decide (a ≠ "") then <[audio_key sid := a]> m
        else delete (audio_key sid) m
      else m
  | Some None => if bool_decide (sid ≠ "") then delete (audio_key sid) m else m
  | None => m
  end.

(** The world after [updateSession] found the record [s] at index [i]. *)
Definition write_session (i : nat) (s : Session) (sid : string) (patch : Patch)
    (w : World) : World :=
  set_storage (set_sessions (<[i := patched s patch]> (sessions (storage w))))
    (set_storage (set_audio_entries (audio_after sid patch)) w).

(** An environment whose remote service serves nothing: the audio
    endpoint answers 404 and the analysis endpoint 500. *)
Definition silent_env : Env :=
  {| uuid_profile := "profile-1"; uuid_session := "session-1";
     now_iso := "2024-01-01T00:00:00.000Z"; full_year := 2024;
     has_offscreen := false; offscreen_channel := None;
     audio_endpoint := λ _ _, FetchResponse false 404 None;
     analyze_endpoint := FetchResponse false 500 None |}.

(** A stored session with the given id, status and report, as
    [newSessionMeta] lays records out. *)
Definition sample_session (sid : string) (st : Status) (report : option string) : Session :=
  {| id := sid; title := Some "Session"; created_at := "2024-01-01T00:00:00.000Z";
     status := st; session_report := report; audio_base64 := None;
     user_id := Some "profile-1"; user_name := Some "User-2024";
     has_audio := false; audio_mime_type := Some "audio/webm" |}.

(** The world after a stop command that found the active id [a]. *)
Definition stopped (a : string) (w : World) : World :=
  let after_update :=
    match findIndex a (sessions (storage w)) with
    | Some (i, s) => write_session i s a (status_patch processing) w
    | None => w
    end in
  (emit (BadgeText "") (set_storage (set_activeSessionId None) after_update)).2.

(** The first record of [l] that carries the id [sid] is [s], at index
    [i]: the record a lookup by id means. *)
Definition first_with_id (sid : string) (l : list Session) (i : nat) (s : Session) : Prop :=
  l !! i = Some s ∧ id s = sid ∧ ∀ j y, l !! j = Some y → j < i → id y ≠ sid.

(** The record [s] with another status and nothing else changed. *)
Definition with_status (st : Status) (s : Session) : Session :=
  {| id := id s; title := title s; created_at := created_at s;
     status := st; session_report := session_report s;
     audio_base64 := audio_base64 s; user_id := user_id s;
     user_name := user_name s; has_audio := has_audio s;
     audio_mime_type := audio_mime_type s |}.

(** The session that [silent_env] creates, stopped. *)
Definition stopped_session : Session :=
  {| id := "session-1"; title := Some "Session";
     created_at := "2024-01-01T00:00:00.000Z"; status := processing;
     session_report := None; audio_base64 := None;
     user_id := Some "profile-1"; user_name := Some "User-2024";
     has_audio := false; audio_mime_type := Some "audio/webm" |}.

(** [m] keeps [I], whether it returns or throws. *)
Definition preserves {A} (I : World → Prop) (m : M A) : Prop :=
  ∀ w, I w → I (m w).2.

(** A predicate on worlds that only looks at the store. *)
Definition on_store (P : Store → Prop) : World → Prop := λ w, P (storage w).

(** The patches the coordinator writes never set [recording], carry a
    report whenever they set [done] or [failed], and leave the report
    alone when they leave the status alone. *)
Definition ok_patch (p : Patch) : Prop :=
  p_status p ≠ Some recording ∧
  (p_status p = Some done ∨ p_status p = Some failed → is_Some (p_session_report p)) ∧
  (p_status p = None → p_session_report p = None).

(** The world after a start command: [p] is the profile
    [getUserProfile] returned and [u] the stored profile afterwards. *)
Definition started (env : Env) (p : UserProfile) (u : option UserProfile)
    (w : World) : World :=
  {| storage :=
       {| sessions := sessions (storage w) ++ [newSessionMeta env p];
          activeSessionId := Some (uuid_session env);
          userProfile := u;
          audio_entries := audio_entries (storage w) |};
     autoOpenedReportSessions := autoOpenedReportSessions w;
     in_flight := in_flight w;
     popup := popup w;
     effects := effects w ++ [BadgeText "●"; BadgeColor "#ef4444"] |}.

(** The session is in one of the two stable states. *)
Definition terminal (s : Session) : Prop := status s = done ∨ status s = failed.

(** What every reachable store satisfies. *)
Definition report_inv (st : Store) : Prop :=
  ∀ s, s ∈ sessions st →
    (terminal s → is_Some (session_report s)) ∧
    (status s = recording → session_report s = None).

(** The biconditional of the specification. *)
Definition report_iff (st : Store) : Prop :=
  ∀ s, s ∈ sessions st → (terminal s ↔ is_Some (session_report s)).

(** An environment whose analysis endpoint answers with a report. *)
Definition reporting_env : Env :=
  {| uuid_profile := "profile-1"; uuid_session := "session-1";
     now_iso := "2024-01-01T00:00:00.000Z"; full_year := 2024;
     has_offscreen := false; offscreen_channel := None;
     audio_endpoint := λ _ _, FetchResponse false 404 None;
     analyze_endpoint :=
       FetchResponse true 200
         (Some {| r_title := Some "T"; r_session_report := Some "## Summary";
                  r_status := Some "ok"; r_error := None |}) |}.

(** The submit-for-analysis command with an inline payload. *)
Definition submit (sid audio : string) : Msg :=
  PROCESS_SESSION_AUDIO
    (Some {| sessionId := Some sid; audioBase64 := Some audio;
             mimeType := Some "audio/webm"; isRegeneration := false |}).

(** The regenerate command of the report page: no payload, only the id. *)
Definition regenerate (sid : string) : Msg :=
  PROCESS_SESSION_AUDIO
    (Some {| sessionId := Some sid; audioBase64 := None; mimeType := None;
             isRegeneration := true |}).

(** One session recorded, analysed with success, then regenerated from the
    cached audio; the run stops while the second analysis is waiting. *)
Definition regenerate_run : list Event :=
  [Deliver reporting_env START_RECORDING;
   Deliver reporting_env STOP_RECORDING;
   Deliver reporting_env (submit "session-1" "QUJD");
   Settle reporting_env;
   Deliver reporting_env (regenerate "session-1")].

(** The stored sessions whose status is [recording]. *)
Definition recording_sessions (st : Store) : list Session :=
  filter (λ s, status s = recording) (sessions st).

(** The invariant of the specification. *)
Definition single_recording (st : Store) : Prop :=
  length (recording_sessions st) ≤ 1 ∧
  ∀ a s, activeSessionId st = Some a → s ∈ sessions st →
         status s = recording → id s = a.

(** The condition on a start command: it arrives while the stored
    [activeSessionId] is empty and [crypto.randomUUID] gives it a
    non-empty id that no stored session carries.  Other events carry no
    condition. *)
Definition event_ok (w : World) (ev : Event) : Prop :=
  match ev with
  | Deliver env START_RECORDING =>
      truthy (activeSessionId (storage w)) = false ∧
      uuid_session env ≠ "" ∧
      uuid_session env ∉ id <$> sessions (storage w)
  | _ => True
  end.

(** The invariant behind [single_recording]: distinct ids, every
    recording session is the active one, and the pointer, when set, is a
    non-empty id. *)
Definition active_inv (st : Store) : Prop :=
  NoDup (id <$> sessions st) ∧
  (∀ s, s ∈ sessions st → status s = recording → activeSessionId st = Some (id s)) ∧
  (∀ a, activeSessionId st = Some a → a ≠ "").

(** A second use of the platform: another session id and a later clock. *)
Definition second_env : Env :=
  {| uuid_profile := "profile-2"; uuid_session := "session-2";
     now_iso := "2024-01-01T00:05:00.000Z"; full_year := 2024;
     has_offscreen := false; offscreen_channel := None;
     audio_endpoint := λ _ _, FetchResponse false 404 None;
     analyze_endpoint := FetchResponse false 500 None |}.

(** A session analysed through the direct completion path, which clears
    its audio entry. *)
Definition lost_audio_run : list Event :=
  [Deliver silent_env START_RECORDING;
   Deliver silent_env STOP_RECORDING;
   Deliver silent_env
     (SESSION_REPORT_READY
        (Some {| rr_sessionId := Some "session-1"; rr_title := Some "T";
                 rr_sessionReport := Some "## Summary"; rr_status := Some "ok";
                 rr_audioBase64 := Some None; rr_hasAudio := None |}))].

(** The store that run leaves. *)
Definition lost_audio_world : World := run lost_audio_run initial_world.

(** The analysis call failed: [fetch] rejected (timeout abort, connection
    failure) or the response has a non-success status. *)
Definition network_failure (r : FetchResult AnalysisResult) : Prop :=
  match r with
  | FetchRejects _ => True
  | FetchResponse ok _ _ => ok = false
  end.

(** The cause of a failed call: the text of the rejection, or the
    service's error detail when the body carries one, else
    [generic] followed by the status code. *)
Definition failure_cause (generic : string) (r : FetchResult AnalysisResult) : string :=
  match r with
  | FetchRejects e => error_text e
  | FetchResponse _ code body => or_str (body ≫= r_error) (generic +:+ pretty code)
  end.

(** The report the coordinator stores for a failed call, on the in-worker
    path and on the offscreen path. *)
Definition failure_report (env : Env) : string :=
  if has_offscreen env then
    DISPATCH_ERROR_PREFIX +:+
      or_str (Some (failure_cause "کد خطا " (analyze_endpoint env)))
        "Offscreen document rejected analysis job"
  else ANALYSIS_ERROR_PREFIX +:+ failure_cause "HTTP " (analyze_endpoint env).

(** One session recorded, stopped and submitted with inline audio; its
    analysis call has not settled yet. *)
Definition waiting_world : World :=
  run [Deliver silent_env START_RECORDING;
       Deliver silent_env STOP_RECORDING;
       Deliver silent_env (submit "session-1" "QUJD")] initial_world.

(** The record of that session. *)
Definition waiting_session : Session :=
  Eval vm_compute in
    default (sample_session "" failed None) (sessions (storage waiting_world) !! 0).

(** The job waiting in [waiting_world]. *)
Definition waiting_job : Job :=
  {| job_sessionId := "session-1"; job_session := waiting_session;
     job_audio := "QUJD"; job_mime := "audio/webm" |}.

(** What the bounded-time fetch of the per-session audio endpoint yields
    for the key [(u, sid)]: the body of a success response that carries
    audio. *)
Definition remote_audio (env : Env) (u sid : string) : option AudioData :=
  match audio_endpoint env u sid with
  | FetchResponse true _ (Some d) => if truthy (a_audio_base64 d) then Some d else None
  | _ => None
  end.

(** The local cache holds no usable audio for the id [sid]. *)
Definition cache_miss (w : World) (sid : string) : Prop :=
  sid = "" ∨ audio_entries (storage w) !! audio_key sid = None ∨
  audio_entries (storage w) !! audio_key sid = Some "".

(** The record [s0] once remote audio of type [mime] was found for it. *)
Definition marked_with_audio (mime : string) (s0 : Session) : Session :=
  {| id := id s0; title := title s0; created_at := created_at s0;
     status := status s0; session_report := session_report s0;
     audio_base64 := audio_base64 s0; user_id := user_id s0;
     user_name := user_name s0; has_audio := true;
     audio_mime_type := Some mime |}.

(** An environment whose audio endpoint serves a payload. *)
Definition serving_env : Env :=
  {| uuid_profile := "profile-1"; uuid_session := "session-1";
     now_iso := "2024-01-01T00:00:00.000Z"; full_year := 2024;
     has_offscreen := false; offscreen_channel := None;
     audio_endpoint := λ _ _,
       FetchResponse true 200
         (Some {| a_audio_base64 := Some "QUJD"; a_mime_type := Some "audio/ogg" |});
     analyze_endpoint := FetchResponse false 500 None |}.

(** The session of [lost_audio_world]: analysed, its audio entry removed. *)
Definition lost_audio_session : Session :=
  {| id := "session-1"; title := Some "T";
     created_at := "2024-01-01T00:00:00.000Z"; status := done;
     session_report := Some "## Summary"; audio_base64 := None;
     user_id := Some "profile-1"; user_name := Some "User-2024";
     has_audio := false; audio_mime_type := Some "audio/webm" |}.

(** One pass of the migration over the stored collection, as
    [refreshSessions] runs it. *)
Definition migration_pass (w : World) : World :=
  (Popup.migrateLegacySessionAudio (sessions (storage w)) w).2.

(** What one migration pass makes of a record. *)
Definition migrate_record (s : Session) : Session :=
  if truthy (audio_base64 s) then Popup.migrated s else s.

(** The world after the loop of the migration. *)
Fixpoint migrate_world (l : list Session) (w : World) : World :=
  match l with
  | [] => w
  | s :: rest =>
      migrate_world rest
        (if truthy (audio_base64 s)
         then (persistSessionAudioBlob (id s) (audio_base64 s) w).2
         else w)
  end.

(** A record of the legacy format: the payload inline, [has_audio] unset. *)
Definition legacy_session : Session :=
  {| id := "old-1"; title := Some "Session"; created_at := "2023-06-01T10:00:00.000Z";
     status := done; session_report := Some "## Summary";
     audio_base64 := Some "QUJD"; user_id := Some "profile-1";
     user_name := Some "User-2023"; has_audio := false;
     audio_mime_type := Some "audio/webm" |}.

(** A store holding that record, in a process that has not migrated. *)
Definition legacy_world : World :=
  set_storage (set_sessions [legacy_session]) initial_world.

(** The world with [es] appended to its log of effects. *)
Definition logged (es : list Effect) (w : World) : World :=
  {| storage := storage w;
     autoOpenedReportSessions := autoOpenedReportSessions w;
     in_flight := in_flight w; popup := popup w;
     effects := effects w ++ es |}.

(** The tracks a stream request acquired. *)
Definition acquired (r : JsError + MediaStream) : MediaStream :=
  match r with inr s => s | inl _ => [] end.

(** A microphone that is refused and a shared screen without audio. *)
Definition silent_devices : Devices :=
  {| getUserMedia :=
       inl {| err_name := "NotAllowedError"; err_message := "Permission denied" |};
     getDisplayMedia := inr [{| track_kind := VideoTrack; track_label := "screen" |}];
     recorded_chunks := []; recorded_base64 := "" |}.

(** ** The popup script: the buttons of the session list *)

Module PopupList.

(** The click listener of a card's delete button, for the card of the
    session [sid]; [confirmed] is the answer to the [confirm] dialog. *)
Definition deleteBtn_click (confirmed : bool) (sid : string) : M unit :=
  if confirmed then
    all ← get_sessions;
    put_sessions (filter (λ session, id session ≠ sid) all);;
    clearSessionAudioBlob sid;;
    Popup.refreshSessions
  else mret tt.

(** The click listener of the clear button. *)
Definition clearBtn_click (confirmed : bool) : M unit :=
  if confirmed then
    all ← get_sessions;
    mapM (λ session, clearSessionAudioBlob (id session)) all;;
    put_sessions [];;
    Popup.refreshSessions
  else mret tt.

End PopupList.

(** ** report.js: escaping *)

Module ReportView.

(** [str.replace(/c/g, rep)] for a pattern of one character. *)
Fixpoint replaceAll (c : ascii) (rep : string) (str : string) : string :=
  match str with
  | EmptyString => EmptyString
  | String a rest =>
      if Ascii.eqb a c then rep +:+ replaceAll c rep rest
      else String a (replaceAll c rep rest)
  end.

(** The double quote. *)
Definition dquote : ascii := "034"%char.

Definition escapeHtml (str : string) : string :=
  replaceAll "'"%char "&#039;"
    (replaceAll dquote "&quot;"
       (replaceAll ">"%char "&gt;"
          (replaceAll "<"%char "&lt;"
             (replaceAll "&"%char "&amp;" str)))).

End ReportView.

(** ** Handlers as interleaved tasks

    The scripts above run each handler from its first line to its last
    with nothing in between.  The handlers of the source are [async]
    functions: a handler runs until it awaits a platform call, and until
    that call settles the event loop runs whatever else is ready, another
    handler included.  A [Task] keeps these points:

    - [Done r]: the handler has returned ([inr]) or thrown ([inl]);
    - [Act write next]: synchronous code, which reads and writes the
      shared world in one go;
    - [Yield kind rest]: a platform call has been issued and the handler
      waits for it; other tasks may run before [rest] does.

    A platform call takes effect when it is issued ([call]): a storage
    read returns the array as it is at that moment, and the handler keeps
    working on that copy after the wait.  A wait is written only where the
    source reaches a platform call; an [await] of a function that returns
    without one lets no other handler of this model run. *)

Inductive Wait := OnStorage | OnNetwork | OnPlatform.

Inductive Task (A : Type) : Type :=
| Done (r : JsError + A)
| Act (write : World → World) (next : World → Task A)
| Yield (kind : Wait) (rest : Task A).

Arguments Done {A} r.
Arguments Act {A} write next.
Arguments Yield {A} kind rest.

Fixpoint bindT {A B} (t : Task A) (k : A → Task B) : Task B :=
  match t with
  | Done (inr x) => k x
  | Done (inl e) => Done (inl e)
  | Act write next => Act write (λ w, bindT (next w) k)
  | Yield kind rest => Yield kind (bindT rest k)
  end.

(** [try { t } catch (error) { handler error }] *)
Fixpoint catchT {A} (t : Task A) (handler : JsError → Task A) : Task A :=
  match t with
  | Done (inr x) => Done (inr x)
  | Done (inl e) => handler e
  | Act write next => Act write (λ w, catchT (next w) handler)
  | Yield kind rest => Yield kind (catchT rest handler)
  end.

Global Instance Task_ret : MRet Task := λ A x, Done (inr x).
Global Instance Task_bind : MBind Task := λ A B k t, bindT t k.

Definition throwT {A} (e : JsError) : Task A := Done (inl e).

(** Synchronous code: the script [m] without a wait. *)
Definition sync {A} (m : M A) : Task A :=
  Act (λ w, (m w).2) (λ w, Done (m w).1).

(** [await] of the platform call [m]: its effect, then the wait, then
    its result. *)
Definition call {A} (kind : Wait) (m : M A) : Task A :=
  Act (λ w, (m w).2) (λ w, Yield kind (Done (m w).1)).

Definition void {A} (t : Task A) : Task unit := _ ← t; mret tt.

(** A message on its way between two contexts of the extension. *)
Definition hop : Task unit := call OnPlatform (mret tt).

(** The task run with nothing in between. *)
Fixpoint finish {A} (t : Task A) (w : World) : (JsError + A) * World :=
  match t with
  | Done r => (r, w)
  | Act write next => finish (next w) (write w)
  | Yield _ rest => finish rest w
  end.

(** *** service_worker.js, one wait per platform call *)

Module Async.

Definition openReportTab (sid : option string) : Task unit :=
  opened ← sync (gets autoOpenedReportSessions);
  match sid with
  | Some s =>
      if bool_decide (s ≠ "") && negb (bool_decide (s ∈ opened)) then
        sync (modify (set_autoOpened (λ o, {[s]} ∪ o)));;
        call OnPlatform (emit (TabCreated s))
      else mret tt
  | None => mret tt
  end.

(** The request and the reading of its body are one wait: the function
    touches nothing shared between the two. *)
Definition requestBackendAnalysis (env : Env) : Task AnalysisResult :=
  call OnNetwork (requestBackendAnalysis env).

Definition persistSessionAudioBlob (sid : string) (audio : option string) : Task unit :=
  match audio with
  | Some a =>
      if bool_decide (sid ≠ "") && bool_decide (a ≠ "") then
        call OnStorage (modify (set_storage (set_audio_entries (<[audio_key sid := a]>))))
      else mret tt
  | None => mret tt
  end.

Definition clearSessionAudioBlob (sid : string) : Task unit :=
  if bool_decide (sid ≠ "") then
    call OnStorage (modify (set_storage (set_audio_entries (delete (audio_key sid)))))
  else mret tt.

Definition getUserProfile (env : Env) : Task UserProfile :=
  stored ← call OnStorage (gets (λ w, userProfile (storage w)));
  let create :=
    let profile :=
      {| profile_id := uuid_profile env;
         profile_name := "User-" +:+ pretty (full_year env) |} in
    call OnStorage (modify (set_storage (set_userProfile (Some profile))));;
    mret profile in
  match stored with
  | Some p =>
      if bool_decide (profile_id p ≠ "") && bool_decide (profile_name p ≠ "")
      then mret p else create
  | None => create
  end.

Definition loadSessionAudioBlob (sid : string) : Task (option string) :=
  if bool_decide (sid = "") then mret None
  else
    stored ← call OnStorage (gets (λ w, audio_entries (storage w) !! audio_key sid));
    mret (if truthy stored then stored else None).

Definition getSessionById (sid : option string) : Task (option Session) :=
  all ← call OnStorage get_sessions;
  mret (match sid with
        | Some s => snd <$> findIndex s all
        | None => None
        end).

Definition fetchSessionAudioFromBackend (env : Env)
    (userId : option string) (sid : string) : Task (option AudioData) :=
  match userId with
  | Some u =>
      if bool_decide (u ≠ "") && bool_decide (sid ≠ "") then
        call OnNetwork (fetchSessionAudioFromBackend env userId sid)
      else mret None
  | None => mret None
  end.

Definition pushSession (session : Session) : Task unit :=
  all ← call OnStorage get_sessions;
  call OnStorage (put_sessions (all ++ [session])).

(** The array is read once; the write after the waits puts back that
    copy with one record replaced. *)
Definition updateSession (sid : string) (patch : Patch) : Task unit :=
  all ← call OnStorage get_sessions;
  match findIndex sid all with
  | Some (idx, found) =>
      existing ←
        match p_audio_base64 patch with
        | Some audio =>
            if truthy audio then
              persistSessionAudioBlob sid audio;;
              mret (with_has_audio true found)
            else
              clearSessionAudioBlob sid;;
              mret (with_has_audio false found)
        | None => mret found
        end;
      call OnStorage (put_sessions (<[idx := merge existing patch]> all))
  | None => mret tt
  end.

Definition ensureAudioForSession (env : Env) (session : Session)
    (providedAudio mime : option string) : Task (option string * string) :=
  if truthy providedAudio then
    mret (providedAudio,
          or_str mime (or_str (audio_mime_type session) "audio/webm"))
  else
    cached ← loadSessionAudioBlob (id session);
    if truthy cached then
      mret (cached, or_str (audio_mime_type session) "audio/webm")
    else
      downloaded ← fetchSessionAudioFromBackend env (user_id session) (id session);
      if truthy (downloaded ≫= a_audio_base64) then
        persistSessionAudioBlob (id session) (downloaded ≫= a_audio_base64);;
        updateSession (id session)
          {| p_status := None; p_title := None; p_session_report := None;
             p_audio_base64 := None; p_has_audio := Some true;
             p_audio_mime_type :=
               Some (or_str (downloaded ≫= a_mime_type) "audio/webm") |};;
        mret (downloaded ≫= a_audio_base64,
              or_str (downloaded ≫= a_mime_type) "audio/webm")
      else
        mret (None, or_str mime (or_str (audio_mime_type session) "audio/webm")).

Definition onSTART_RECORDING (env : Env) : Task Response :=
  profile ← getUserProfile env;
  let session := newSessionMeta env profile in
  pushSession session;;
  call OnStorage (modify (set_storage (set_activeSessionId (Some (id session)))));;
  call OnPlatform (emit (BadgeText "●"));;
  call OnPlatform (emit (BadgeColor "#ef4444"));;
  mret (RespOk (Some (id session))).

Definition onSTOP_RECORDING : Task Response :=
  active ← call OnStorage (gets (λ w, activeSessionId (storage w)));
  match active with
  | Some a =>
      if bool_decide (a ≠ "") then
        updateSession a (status_patch processing);;
        call OnStorage (modify (set_storage (set_activeSessionId None)));;
        call OnPlatform (emit (BadgeText ""));;
        mret (RespOk (Some a))
      else mret (RespError "No active session.")
  | None => mret (RespError "No active session.")
  end.

(** The listener answers at once; the job it started is [spawned]. *)
Definition onPROCESS_SESSION_AUDIO (payload : option JobPayload) : Task Response :=
  if truthy (payload ≫= sessionId) then mret (RespOk None)
  else mret (RespError "Missing sessionId.").

Definition onOFFSCREEN_ANALYSIS_COMPLETE (sid : option string)
    (result : option AnalysisResult) (resultError : option string) : Task Response :=
  match sid with
  | Some s =>
      if bool_decide (s ≠ "") then
        if truthy resultError then
          updateSession s
            (failed_patch (ANALYSIS_ERROR_PREFIX +:+ default "" resultError));;
          mret (RespOk None)
        else
          updateSession s (result_patch result "Session Report");;
          (if negb (is_error_status result) && truthy (result ≫= r_session_report)
           then openReportTab sid else mret tt);;
          mret (RespOk None)
      else mret (RespError "Missing sessionId.")
  | None => mret (RespError "Missing sessionId.")
  end.

Definition onSESSION_REPORT_READY (payload : option ReportReady) : Task Response :=
  match payload with
  | Some p =>
      match rr_sessionId p with
      | Some s =>
          if bool_decide (s ≠ "") then
            updateSession s (report_ready_patch p);;
            mret (RespOk None)
          else mret (RespError "Missing sessionId.")
      | None => mret (RespError "Missing sessionId.")
      end
  | None => mret (RespError "Missing sessionId.")
  end.

Definition onMessage (env : Env) (msg : Msg) : Task Response :=
  catchT
    match msg with
    | START_RECORDING => onSTART_RECORDING env
    | STOP_RECORDING => onSTOP_RECORDING
    | PROCESS_SESSION_AUDIO payload => onPROCESS_SESSION_AUDIO payload
    | OFFSCREEN_ANALYSIS_COMPLETE sid result error =>
        onOFFSCREEN_ANALYSIS_COMPLETE sid result error
    | SESSION_REPORT_READY payload => onSESSION_REPORT_READY payload
    | OTHER_ACTION _ => mret (RespError "Unknown action.")
    end
    (λ e, mret (RespError (error_text e))).

(** The offscreen document.  Its completion message travels to the
    coordinator, whose listener handles it, and the answer travels back. *)
Definition offscreen_runBackendAnalysis (env : Env) (job : Job) : Task AnalysisResult :=
  if bool_decide (job_sessionId job = "") || bool_decide (job_audio job = "") then
    throwT (Error "Missing audio payload for analysis")
  else call OnNetwork (Offscreen.runBackendAnalysis env job).

Definition offscreen_onMessage (env : Env) (job : Job) : Task Response :=
  catchT
    (result ← offscreen_runBackendAnalysis env job;
     hop;;
     _ ← onMessage env
           (OFFSCREEN_ANALYSIS_COMPLETE (Some (job_sessionId job)) (Some result) None);
     hop;;
     mret (RespOk None))
    (λ error,
     hop;;
     _ ← onMessage env
           (OFFSCREEN_ANALYSIS_COMPLETE (Some (job_sessionId job)) None
              (Some (error_text error)));
     hop;;
     mret (RespError (error_text error))).

(** [ensureOffscreenDocument] (one wait stands for its one or two
    platform calls), the message on its way to the offscreen document,
    the listener there, and the answer on its way back.  A failure of the
    channel ([offscreen_channel]) is seen after a wait. *)
Definition dispatchOffscreenAnalysis (env : Env) (job : Job) : Task unit :=
  match offscreen_channel env with
  | Some e => call OnPlatform (throw e)
  | None =>
      hop;;
      hop;;
      response ← offscreen_onMessage env job;
      hop;;
      match response with
      | RespOk _ => mret tt
      | RespError error =>
          throwT (Error (or_str (Some error) "Offscreen document rejected analysis job"))
      end
  end.

Definition analyseSessionAudioJob (env : Env) (job : Job) : Task unit :=
  if negb (has_offscreen env) then
    catchT
      (result ← requestBackendAnalysis env;
       updateSession (job_sessionId job)
         (result_patch (Some result)
            (or_str (title (job_session job)) "Session Report"));;
       if negb (is_error_status (Some result)) && truthy (r_session_report result)
       then openReportTab (Some (job_sessionId job)) else mret tt)
      (λ error,
       updateSession (job_sessionId job)
         (failed_patch (ANALYSIS_ERROR_PREFIX +:+ error_text error)))
  else
    catchT
      (dispatchOffscreenAnalysis env job)
      (λ error,
       updateSession (job_sessionId job)
         (failed_patch (DISPATCH_ERROR_PREFIX +:+ error_text error))).

Definition processSessionAudioJob (env : Env) (payload : JobPayload) : Task unit :=
  session ← getSessionById (sessionId payload);
  match session, sessionId payload with
  | Some session, Some sid =>
      resolved ← ensureAudioForSession env session (audioBase64 payload) (mimeType payload);
      match resolved.1 with
      | Some readyAudio =>
          if bool_decide (readyAudio ≠ "") then
            updateSession sid
              {| p_status := Some processing; p_title := None;
                 p_session_report := None;
                 p_audio_base64 := Some (Some readyAudio); p_has_audio := None;
                 p_audio_mime_type := Some resolved.2 |};;
            sync (modify (set_autoOpened (λ o, o ∖ {[sid]})));;
            analyseSessionAudioJob env
              {| job_sessionId := sid; job_session := session;
                 job_audio := readyAudio; job_mime := resolved.2 |}
          else updateSession sid (failed_patch NO_AUDIO_REPORT)
      | None => updateSession sid (failed_patch NO_AUDIO_REPORT)
      end
  | _, _ => mret tt
  end.

(** The job that the [PROCESS_SESSION_AUDIO] branch starts without
    awaiting it; a failure goes to the [.catch] of the call. *)
Definition spawned (env : Env) (msg : Msg) : option (Task unit) :=
  match msg with
  | PROCESS_SESSION_AUDIO payload =>
      if truthy (payload ≫= sessionId) then
        Some (catchT
                (processSessionAudioJob env
                   (default {| sessionId := None; audioBase64 := None;
                               mimeType := None; isRegeneration := false |} payload))
                (λ _, mret tt))
      else None
  | _ => None
  end.

End Async.

(** *** The event loop

    The worker holds the shared world and the tasks it has started; a
    finished task stays in the pool as [Done].  A turn of the loop either
    takes a message, which starts its handler (after the job the handler
    spawns, if any) and runs it to its first wait, or resumes the task at
    index [i] of the pool, which runs from its wait to the next one. *)

Record System := { shared : World; pool : list (Task unit) }.

Definition initial_system : System := {| shared := initial_world; pool := [] |}.

Inductive Turn :=
| Arrive (env : Env) (msg : Msg)
| Resume (i : nat).

(** Synchronous code runs to the next wait. *)
Fixpoint run_sync {A} (t : Task A) (w : World) : World * Task A :=
  match t with
  | Act write next => run_sync (next w) (write w)
  | _ => (w, t)
  end.

Definition resume {A} (t : Task A) (w : World) : World * Task A :=
  match t with
  | Yield _ rest => run_sync rest w
  | _ => run_sync t w
  end.

Definition arrivals (env : Env) (msg : Msg) : list (Task unit) :=
  match Async.spawned env msg with
  | Some job => [job]
  | None => []
  end ++ [void (Async.onMessage env msg)].

Definition start_task (s : System) (t : Task unit) : System :=
  let r := run_sync t (shared s) in
  {| shared := r.1; pool := pool s ++ [r.2] |}.

Definition turn (s : System) (e : Turn) : System :=
  match e with
  | Arrive env msg => foldl start_task s (arrivals env msg)
  | Resume i =>
      match pool s !! i with
      | Some t =>
          let r := resume t (shared s) in
          {| shared := r.1; pool := <[i := r.2]> (pool s) |}
      | None => s
      end
  end.

Definition turns (es : list Turn) (s : System) : System := foldl turn s es.

(** *** Handlers that do not overlap

    The same loop under the schedule in which a task, once it runs, keeps
    running through its storage and platform waits, and gives way only
    when it waits for the network or has finished. *)

Definition is_network (kind : Wait) : bool :=
  match kind with OnNetwork => true | _ => false end.

Fixpoint run_quiet {A} (t : Task A) (w : World) : World * Task A :=
  match t with
  | Done r => (w, Done r)
  | Act write next => run_quiet (next w) (write w)
  | Yield kind rest => if is_network kind then (w, Yield kind rest) else run_quiet rest w
  end.

Definition resume_quiet {A} (t : Task A) (w : World) : World * Task A :=
  match t with
  | Yield _ rest => run_quiet rest w
  | _ => run_quiet t w
  end.

Definition start_task_alone (s : System) (t : Task unit) : System :=
  let r := run_quiet t (shared s) in
  {| shared := r.1; pool := pool s ++ [r.2] |}.

Definition turn_alone (s : System) (e : Turn) : System :=
  match e with
  | Arrive env msg => foldl start_task_alone s (arrivals env msg)
  | Resume i =>
      match pool s !! i with
      | Some t =>
          let r := resume_quiet t (shared s) in
          {| shared := r.1; pool := <[i := r.2]> (pool s) |}
      | None => s
      end
  end.

Definition turns_alone (es : list Turn) (s : System) : System := foldl turn_alone s es.

(** A start command is gated when it arrives while the stored
    [activeSessionId] is empty and [crypto.randomUUID] gives it a
    non-empty id that no stored session carries. *)
Definition gated (w : World) (e : Turn) : Prop :=
  match e with
  | Arrive env START_RECORDING =>
      truthy (activeSessionId (storage w)) = false ∧
      uuid_session env ≠ "" ∧
      uuid_session env ∉ id <$> sessions (storage w)
  | _ => True
  end.

(** Every start command of the schedule is gated in the world it arrives
    in, for the loop [next]. *)
Fixpoint all_gated (next : System → Turn → System) (s : System) (es : list Turn) : Prop :=
  match es with
  | [] => True
  | e :: rest => gated (shared s) e ∧ all_gated next (next s e) rest
  end.

(** The events by which an analysis result reaches the coordinator. *)
Definition is_completion (m : Msg) : Prop :=
  match m with
  | OFFSCREEN_ANALYSIS_COMPLETE _ _ _ | SESSION_REPORT_READY _ => True
  | _ => False
  end.

(** The report stored for an analysis response: its report, else its
    error text, else the fixed "invalid output" message when the response
    declares an error, else the empty string. *)
Definition analysed_report (data : AnalysisResult) : string :=
  or_str (r_session_report data)
    (or_str (r_error data)
       (if bool_decide (r_status data = Some "error") then INVALID_MODEL_OUTPUT else "")).

(** The title stored for an analysis response: the response's title, else
    the title the session had when the job began (in-worker path only),
    else "Session Report". *)
Definition analysed_title (env : Env) (job : Job) (data : AnalysisResult) : string :=
  or_str (r_title data)
    (if has_offscreen env then "Session Report"
     else or_str (title (job_session job)) "Session Report").

(** Whether the coordinator asks for the report tab: never for a response
    that declares an error; otherwise when the response has a report (on
    the offscreen path the error text counts as one, since the offscreen
    document has already merged it into the report). *)
Definition tab_wanted (env : Env) (data : AnalysisResult) : bool :=
  negb (bool_decide (r_status data = Some "error")) &&
  (if has_offscreen env
   then bool_decide (or_str (r_session_report data) (or_str (r_error data) "") ≠ "")
   else truthy (r_session_report data)).

(** The profile a start command works with: the stored one when it has an
    id and a name, else a new one made from a random id and the year. *)
Definition profile_in_use (env : Env) (w : World) : UserProfile :=
  let fresh := {| profile_id := uuid_profile env;
                  profile_name := "User-" +:+ pretty (full_year env) |} in
  match userProfile (storage w) with
  | Some p =>
      if bool_decide (profile_id p ≠ "") && bool_decide (profile_name p ≠ "")
      then p else fresh
  | None => fresh
  end.

(** The fields of a session that are fixed when it is created, with the
    inline audio field of the legacy format. *)
Definition birth (s : Session) : string * string * option string * option string * option string :=
  (id s, created_at s, user_id s, user_name s, audio_base64 s).

Definition twin_world : World :=
  set_storage
    (set_sessions [sample_session "twin" done (Some "first");
                   sample_session "twin" failed (Some "second")])
    initial_world.

Definition empty_job : Job :=
  {| job_sessionId := "session-1"; job_session := waiting_session;
     job_audio := ""; job_mime := "audio/webm" |}.

Definition broken_channel_env : Env :=
  {| uuid_profile := "profile-1"; uuid_session := "session-1";
     now_iso := "2024-01-01T00:00:00.000Z"; full_year := 2024;
     has_offscreen := true;
     offscreen_channel := Some (Error "Could not establish connection.");
     audio_endpoint := λ _ _, FetchResponse false 404 None;
     analyze_endpoint := reporting_env.(analyze_endpoint) |}.

(** The session [sid] is stored, [done] or [failed], with a report. *)
Definition terminal_at (sid : string) (w : World) : Prop :=
  ∃ i s, findIndex sid (sessions (storage w)) = Some (i, s) ∧
         terminal s ∧ is_Some (session_report s).

(** The job that waits in [waiting_world]; it carries the session as it
    was read before the job marked it. *)
Definition queued_job : Job :=
  Eval vm_compute in default waiting_job (head (in_flight waiting_world)).

(** The record [patchSession] writes over [found]. *)
Definition popup_patched (found : Session) (patch : Patch) : Session :=
  merge
    match p_audio_base64 patch with
    | Some (Some a) =>
        if bool_decide (a ≠ "")
        then with_has_audio true (Popup.without_inline_audio found)
        else Popup.without_inline_audio found
    | Some None => with_has_audio false (Popup.without_inline_audio found)
    | None => found
    end
    patch.

(** What [patchSession] does to the audio entries. *)
Definition popup_audio_after (sid : string) (patch : Patch)
    (m : gmap string string) : gmap string string :=
  match p_audio_base64 patch with
  | Some (Some a) =>
      if bool_decide (sid ≠ "") && bool_decide (a ≠ "") then <[audio_key sid := a]> m else m
  | Some None => if bool_decide (sid ≠ "") then delete (audio_key sid) m else m
  | None => m
  end.

(** The world after [patchSession] found the record [s] at index [i]. *)
Definition popup_write (i : nat) (s : Session) (sid : string) (patch : Patch)
    (w : World) : World :=
  set_storage (set_sessions (<[i := popup_patched s patch]> (sessions (storage w))))
    (set_storage (set_audio_entries (popup_audio_after sid patch)) w).

(** What the popup's list shows of a record; the legacy migration leaves
    it alone. *)
Definition shown (s : Session) : string * option string * Status * option string :=
  (id s, title s, status s, session_report s).

Definition recording_popup (w : World) (sid : string) : World :=
  set_popup (λ p, Popup.with_currentSessionId (Some sid)
                    (Popup.with_recorder true
                       (Popup.with_displayStreamRef
                          (Some [{| track_kind := AudioTrack; track_label := "tab" |}])
                          p))) w.

(** The patch with which a job marks its session. *)
Definition job_patch (audio mime : string) : Patch :=
  {| p_status := Some processing; p_title := None; p_session_report := None;
     p_audio_base64 := Some (Some audio); p_has_audio := None;
     p_audio_mime_type := Some mime |}.

(** The job started for the stored session [s] with the inline audio [a]. *)
Definition inline_job (sid a : string) (mime : option string) (s : Session) : Job :=
  {| job_sessionId := sid; job_session := s; job_audio := a;
     job_mime := or_str mime (or_str (audio_mime_type s) "audio/webm") |}.

(** The world after the coordinator accepted that job. *)
Definition job_accepted (i : nat) (s : Session) (sid a : string) (mime : option string)
    (w : World) : World :=
  set_in_flight (λ l, l ++ [inline_job sid a mime s])
    (set_autoOpened (λ o, o ∖ {[sid]})
       (write_session i s sid
          (job_patch a (or_str mime (or_str (audio_mime_type s) "audio/webm"))) w)).

Definition recording_devices : Devices :=
  {| getUserMedia := inr [{| track_kind := AudioTrack; track_label := "mic" |}];
     getDisplayMedia := inr [{| track_kind := VideoTrack; track_label := "screen" |};
                             {| track_kind := AudioTrack; track_label := "tab" |}];
     recorded_chunks := [0; 2048; 4096]%N; recorded_base64 := "QUJD" |}.

(** The alert of the [catch] block of the record button. *)
Definition capture_alert (e : JsError) : string :=
  if bool_decide (err_name e = "NotAllowedError")
  then "خطا: دسترسی به صفحه یا میکروفون رد شد."
  else "خطا: " +:+ error_text e.

(** What [escapeHtml] makes of one character. *)
Definition escaped (a : ascii) : string :=
  if Ascii.eqb a "&"%char then "&amp;"
  else if Ascii.eqb a "<"%char then "&lt;"
  else if Ascii.eqb a ">"%char then "&gt;"
  else if Ascii.eqb a ReportView.dquote then "&quot;"
  else if Ascii.eqb a "'"%char then "&#039;"
  else String a EmptyString.

(** The characters with a meaning in markup that [escapeHtml] removes. *)
Definition markup (a : ascii) : bool :=
  Ascii.eqb a "<"%char || Ascii.eqb a ">"%char ||
  Ascii.eqb a ReportView.dquote || Ascii.eqb a "'"%char.

Fixpoint chars (s : string) : list ascii :=
  match s with
  | EmptyString => []
  | String a rest => a :: chars rest
  end.

(** What a script may do when its session is not stored: nothing but,
    at most, open a report tab. *)
Definition only_a_tab (sid : string) (w w' : World) : Prop :=
  storage w' = storage w ∧ in_flight w' = in_flight w ∧
  (effects w' = effects w ∨ effects w' = effects w ++ [TabCreated sid]).

Definition orphan_world : World :=
  (PopupList.deleteBtn_click true "session-1" waiting_world).2.

Fixpoint quiet {A} (t : Task A) : Prop :=
  match t with
  | Done _ => True
  | Act _ next => ∀ w, quiet (next w)
  | Yield kind rest => is_network kind = false ∧ quiet rest
  end.

Fixpoint wp {A} (I : World → Prop) (t : Task A)
    (Q : JsError + A → World → Prop) (w : World) : Prop :=
  match t with
  | Done r => Q r w
  | Act write next => wp I (next w) Q (write w)
  | Yield kind rest =>
      if is_network kind then I w ∧ ∀ w', I w' → wp I rest Q w'
      else wp I rest Q w
  end.

Definition safe {A} (I : World → Prop) (t : Task A) : Prop :=
  ∀ w, I w → wp I t (λ _ w', I w') w.

(** What waits in the pool: the code after the wait. *)
Definition body {A} (t : Task A) : Task A :=
  match t with
  | Yield _ rest => rest
  | _ => t
  end.

Definition system_inv (I : World → Prop) (s : System) : Prop :=
  I (shared s) ∧ Forall (λ t, safe I (body t)) (pool s).

Definition again {A} (p : World * Task A) : World * Task A := resume p.2 p.1.

(** A third use of the platform. *)
Definition third_env : Env :=
  {| uuid_profile := "profile-3"; uuid_session := "session-3";
     now_iso := "2024-01-01T00:10:00.000Z"; full_year := 2024;
     has_offscreen := false; offscreen_channel := None;
     audio_endpoint := λ _ _, FetchResponse false 404 None;
     analyze_endpoint := FetchResponse false 500 None |}.

Definition resumes (i n : nat) : list Turn := replicate n (Resume i).

(** A first session is recorded, stopped and submitted, each handler
    running to its end before the next message; the job (task 2) has
    stored the audio, marked the session and waits for the analysis
    call. *)
Definition first_session_analysing : list Turn :=
  [Arrive silent_env START_RECORDING] ++ resumes 0 7 ++
  [Arrive silent_env STOP_RECORDING] ++ resumes 1 5 ++
  [Arrive silent_env (submit "session-1" "QUJD")] ++ resumes 2 4.

(** A second recording is started (task 4) and then stopped (task 5).
    The stop handler has read the pointer and asked for the sessions when
    the analysis call of the first session fails; the job asks for the
    sessions too, to mark the first one, and both get the array in which
    the second session is [recording].  The stop handler writes it back
    with the second session in [processing]; the job then writes its own
    copy, in which the second session is still [recording]; the stop
    handler clears the pointer.  A third recording is started (task 6).
    Storage calls settle in the order in which they were issued. *)
Definition overlapping_stop : list Turn :=
  first_session_analysing ++
  [Arrive second_env START_RECORDING] ++ resumes 4 6 ++
  [Arrive silent_env STOP_RECORDING; Resume 5; Resume 2; Resume 5;
   Resume 2; Resume 5; Resume 2; Resume 5; Resume 5] ++
  [Arrive third_env START_RECORDING] ++ resumes 6 6.

(** The same messages, handlers not overlapping: the job (task 2) is
    resumed when its analysis call has failed. *)
Definition separate_recordings : list Turn :=
  [Arrive silent_env START_RECORDING; Arrive silent_env STOP_RECORDING;
   Arrive silent_env (submit "session-1" "QUJD");
   Arrive second_env START_RECORDING; Resume 2;
   Arrive silent_env STOP_RECORDING; Arrive third_env START_RECORDING].

(** A second recording is started (task 4) while the job of the first
    (task 2) waits for its analysis call.  The start handler has asked
    for the sessions, to append its own, when the analysis call fails and
    the job asks for them too; the start handler writes the array with
    the new session, and the job then writes its copy, which lacks it.
    Storage calls settle in the order in which they were issued. *)
Definition overlapping_start : list Turn :=
  first_session_analysing ++
  [Arrive second_env START_RECORDING; Resume 4; Resume 2; Resume 4; Resume 2;
   Resume 4; Resume 2; Resume 4; Resume 4; Resume 4].

(** The same messages, handlers not overlapping. *)
Definition separate_start : list Turn :=
  [Arrive silent_env START_RECORDING; Arrive silent_env STOP_RECORDING;
   Arrive silent_env (submit "session-1" "QUJD");
   Arrive second_env START_RECORDING; Resume 2].

(** * Properties *)

(** ** Running scripts *)

Lemma bind_run {A B} (m : M A) (k : A → M B) (w : World) :
  (m ≫= k) w =
  match m w with
  | (inr x, w') => k x w'
  | (inl e, w') => (inl e, w')
  end.
Proof. reflexivity. Qed.

Lemma try_catch_run {A} (body : M A) (handler : JsError → M A) (w : World) :
  try_catch body handler w =
  match body w with
  | (inr x, w') => (inr x, w')
  | (inl e, w') => handler e w'
  end.
Proof. reflexivity. Qed.

Ltac unfold_m :=
  unfold mbind, mret, M_bind, M_ret, bind, ret, gets, modify, throw, try_catch,
    get_sessions, put_sessions, emit in *.

Lemma findIndex_None (sid : string) (l : list Session) :
  findIndex sid l = None ↔ sid ∉ id <$> l.
Proof.
  unfold findIndex. rewrite list_find_None, Forall_forall, list_elem_of_fmap.
  split.
  - intros H [s [-> Hs]]. by apply (H s).
  - intros H s Hs Heq. apply H. exists s. by split.
Qed.

Lemma findIndex_Some (sid : string) (l : list Session) (i : nat) (s : Session) :
  findIndex sid l = Some (i, s) →
  l !! i = Some s ∧ id s = sid ∧ ∀ j y, l !! j = Some y → j < i → id y ≠ sid.
Proof. unfold findIndex. by rewrite list_find_Some. Qed.

Lemma updateSession_unknown (sid : string) (patch : Patch) (w : World) :
  sid ∉ id <$> sessions (storage w) →
  updateSession sid patch w = (inr tt, w).
Proof.
  intros H%findIndex_None. unfold updateSession. unfold_m. simpl.
  by rewrite H.
Qed.

Lemma updateSession_found (sid : string) (patch : Patch) (w : World) i s :
  findIndex sid (sessions (storage w)) = Some (i, s) →
  updateSession sid patch w = (inr tt, write_session i s sid patch w).
Proof.
  intros H. unfold updateSession, write_session, patched, audio_after.
  unfold_m. simpl. rewrite H.
  destruct patch as [ps pt pr [[a|]|] ph pm]; simpl;
    unfold persistSessionAudioBlob, clearSessionAudioBlob; unfold_m; simpl;
    repeat case_bool_decide; simpl; try reflexivity; try congruence.
Qed.

(** ** Unknown session ids (C10) *)

(** C10: for a session id that no record of the sessions collection
    carries, [updateSession] leaves the whole store (and so the sessions
    collection) as it was, and a [PROCESS_SESSION_AUDIO] message naming
    that id is answered without any write: the world after the handler is
    the world before it. *)
Theorem unknown_session_writes_nothing
    (env : Env) (w : World) (sid : string) (patch : Patch) (payload : JobPayload) :
  sid ∉ id <$> sessions (storage w) →
  sessionId payload = Some sid →
  updateSession sid patch w = (inr tt, w) ∧
  processSessionAudioJob env payload w = (inr tt, w) ∧
  onMessage env (PROCESS_SESSION_AUDIO (Some payload)) w =
    (inr (if bool_decide (sid ≠ "") then RespOk None
          else RespError "Missing sessionId."), w).
Proof.
  intros Hnot Hsid. split; [by apply updateSession_unknown|].
  pose proof Hnot as Hfind%findIndex_None.
  assert (Hbegin : beginSessionAudioJob env payload w = (inr None, w)).
  { unfold beginSessionAudioJob, getSessionById. unfold_m. simpl.
    rewrite Hsid, Hfind. reflexivity. }
  split.
  - unfold processSessionAudioJob. rewrite bind_run, Hbegin. reflexivity.
  - unfold onMessage, onPROCESS_SESSION_AUDIO. rewrite try_catch_run. simpl.
    rewrite Hsid. simpl. case_bool_decide; [|reflexivity].
    rewrite bind_run, try_catch_run, Hbegin. reflexivity.
Qed.

Lemma unknown_session_writes_nothing_witness :
  updateSession "ghost" (status_patch failed) initial_world = (inr tt, initial_world) ∧
  processSessionAudioJob silent_env
    {| sessionId := Some "ghost"; audioBase64 := Some "QUJD"; mimeType := None;
       isRegeneration := false |} initial_world = (inr tt, initial_world) ∧
  onMessage silent_env
    (PROCESS_SESSION_AUDIO
       (Some {| sessionId := Some "ghost"; audioBase64 := Some "QUJD";
                mimeType := None; isRegeneration := false |})) initial_world =
    (inr (if bool_decide ("ghost" ≠ "") then RespOk None
          else RespError "Missing sessionId."), initial_world).
Proof.
  apply (unknown_session_writes_nothing silent_env initial_world "ghost").
  - simpl. apply not_elem_of_nil.
  - reflexivity.
Defined.

(** ** The audio blob cache (C8) *)

Lemma persist_then_load (sid audio : string) (w : World) :
  sid ≠ "" → audio ≠ "" →
  loadSessionAudioBlob sid (persistSessionAudioBlob sid (Some audio) w).2 =
    (inr (Some audio), (persistSessionAudioBlob sid (Some audio) w).2).
Proof.
  intros Hs Ha. unfold loadSessionAudioBlob, persistSessionAudioBlob. unfold_m.
  rewrite (bool_decide_true (sid ≠ "")), (bool_decide_true (audio ≠ "")) by done.
  rewrite (bool_decide_false (sid = "")) by done.
  simpl. rewrite lookup_insert_eq. simpl. by rewrite bool_decide_true.
Qed.

(** C8: for a session whose id is a non-empty string and a non-empty
    payload, [persistSessionAudioBlob] followed by [loadSessionAudioBlob]
    returns the very string that was persisted, and so does the
    local-cache step of [ensureAudioForSession] (no inline payload
    supplied). *)
Theorem audio_blob_round_trip
    (env : Env) (session : Session) (audio : string) (mime : option string)
    (w : World) :
  id session ≠ "" → audio ≠ "" →
  let w1 := (persistSessionAudioBlob (id session) (Some audio) w).2 in
  loadSessionAudioBlob (id session) w1 = (inr (Some audio), w1) ∧
  ensureAudioForSession env session None mime w1 =
    (inr (Some audio, or_str (audio_mime_type session) "audio/webm"), w1).
Proof.
  intros Hs Ha w1. pose proof (persist_then_load _ _ w Hs Ha) as Hload.
  split; [exact Hload|].
  unfold ensureAudioForSession. simpl. rewrite bind_run. fold w1 in Hload.
  rewrite Hload. simpl. by rewrite bool_decide_true.
Qed.

Lemma audio_blob_round_trip_witness :
  let w1 := (persistSessionAudioBlob "s1" (Some "QUJD") initial_world).2 in
  loadSessionAudioBlob "s1" w1 = (inr (Some "QUJD"), w1) ∧
  ensureAudioForSession silent_env (sample_session "s1" done (Some "R")) None None w1 =
    (inr (Some "QUJD", "audio/webm"), w1).
Proof.
  apply (audio_blob_round_trip silent_env (sample_session "s1" done (Some "R"))
           "QUJD" None initial_world); simpl; congruence.
Defined.

(** ** The stop command (C6) *)

Lemma stop_without_active (env : Env) (w : World) :
  truthy (activeSessionId (storage w)) = false →
  onMessage env STOP_RECORDING w = (inr (RespError "No active session."), w).
Proof.
  intros H. unfold onMessage, onSTOP_RECORDING. rewrite try_catch_run, bind_run.
  unfold_m. simpl. destruct (activeSessionId (storage w)) as [a|]; [|done].
  simpl in H. by rewrite H.
Qed.

Lemma stop_with_active (env : Env) (w : World) (a : string) :
  activeSessionId (storage w) = Some a → a ≠ "" →
  onMessage env STOP_RECORDING w = (inr (RespOk (Some a)), stopped a w).
Proof.
  intros Hact Ha. unfold onMessage, onSTOP_RECORDING, stopped.
  rewrite try_catch_run, bind_run. unfold gets at 1. rewrite Hact.
  rewrite bool_decide_true by done. rewrite bind_run.
  destruct (findIndex a (sessions (storage w))) as [[i s]|] eqn:Hfind.
  - by rewrite (updateSession_found _ _ _ _ _ Hfind).
  - apply findIndex_None in Hfind. by rewrite (updateSession_unknown _ _ _ Hfind).
Qed.

Lemma write_session_lookup (i : nat) (s : Session) (sid : string) (patch : Patch)
    (w : World) :
  sessions (storage w) !! i = Some s →
  sessions (storage (write_session i s sid patch w)) !! i = Some (patched s patch).
Proof.
  intros H. simpl. apply list_lookup_insert_eq. by eapply lookup_lt_Some.
Qed.

Lemma first_with_id_findIndex (sid : string) (l : list Session) (i : nat) (s : Session) :
  first_with_id sid l i s ↔ findIndex sid l = Some (i, s).
Proof. unfold first_with_id, findIndex. by rewrite list_find_Some. Qed.

(** C6: the stop command answers [ok] exactly when [activeSessionId] holds
    an id (a non-empty string).  Without one the answer is the error
    "No active session." and the world is unchanged.  With the id [a] the
    answer carries [a], the pointer is cleared, the badge is reset and
    the profile and the audio entries are as before.  The first stored
    record with the id [a] gets the status [processing] and keeps every
    other field, and all other records are as before; when no stored
    record carries [a] (the session was deleted meanwhile) the answer is
    still [ok] with [a] and no record changes. *)
Theorem stop_recording_spec (env : Env) (w : World) :
  (is_ok (response_of env STOP_RECORDING w) = true ↔
     truthy (activeSessionId (storage w)) = true) ∧
  (truthy (activeSessionId (storage w)) = false →
     onMessage env STOP_RECORDING w = (inr (RespError "No active session."), w)) ∧
  (∀ a, activeSessionId (storage w) = Some a → a ≠ "" →
     let w' := (onMessage env STOP_RECORDING w).2 in
     (onMessage env STOP_RECORDING w).1 = inr (RespOk (Some a)) ∧
     activeSessionId (storage w') = None ∧
     userProfile (storage w') = userProfile (storage w) ∧
     audio_entries (storage w') = audio_entries (storage w) ∧
     effects w' = effects w ++ [BadgeText ""] ∧
     (∀ i s, first_with_id a (sessions (storage w)) i s →
        sessions (storage w') = <[i := with_status processing s]> (sessions (storage w)) ∧
        sessions (storage w') !! i = Some (with_status processing s) ∧
        ∀ j, j ≠ i → sessions (storage w') !! j = sessions (storage w) !! j) ∧
     ((∀ s, s ∈ sessions (storage w) → id s ≠ a) →
        sessions (storage w') = sessions (storage w))).
Proof.
  split; [|split].
  - unfold response_of.
    destruct (truthy (activeSessionId (storage w))) eqn:Ht.
    + destruct (activeSessionId (storage w)) as [a|] eqn:Hact; [|done].
      simpl in Ht. apply bool_decide_eq_true in Ht.
      by rewrite (stop_with_active env w a Hact Ht).
    + by rewrite (stop_without_active env w Ht).
  - apply stop_without_active.
  - intros a Hact Ha w'. subst w'. rewrite (stop_with_active env w a Hact Ha).
    unfold stopped. simpl.
    destruct (findIndex a (sessions (storage w))) as [[i s]|] eqn:Hfind; simpl.
    + pose proof (findIndex_Some _ _ _ _ Hfind) as (Hi & Hid & _).
      assert (Hmerge : patched s (status_patch processing) = with_status processing s)
        by done.
      rewrite Hmerge.
      split; [done|]. split; [done|]. split; [done|]. split; [done|]. split; [done|].
      split.
      * intros i' s' H%first_with_id_findIndex. rewrite Hfind in H.
        injection H as <- <-. split; [done|].
        split; [apply list_lookup_insert_eq; by eapply lookup_lt_Some|].
        intros. by apply list_lookup_insert_ne.
      * intros H. exfalso. apply (H s); [by eapply list_elem_of_lookup_2|done].
    + split; [done|]. split; [done|]. split; [done|]. split; [done|]. split; [done|].
      split; [|done].
      intros i s H%first_with_id_findIndex. congruence.
Qed.

Lemma stop_recording_spec_witness :
  let w := (onMessage silent_env START_RECORDING initial_world).2 in
  status <$> sessions (storage w) = [recording] ∧
  activeSessionId (storage w) = Some "session-1" ∧
  (onMessage silent_env STOP_RECORDING w).1 = inr (RespOk (Some "session-1")) ∧
  activeSessionId (storage (onMessage silent_env STOP_RECORDING w).2) = None ∧
  sessions (storage (onMessage silent_env STOP_RECORDING w).2) = [stopped_session] ∧
  onMessage silent_env STOP_RECORDING initial_world =
    (inr (RespError "No active session."), initial_world).
Proof.
  pose (w := (onMessage silent_env START_RECORDING initial_world).2).
  destruct (stop_recording_spec silent_env w) as (_ & _ & H).
  destruct (stop_recording_spec silent_env initial_world) as (_ & H0 & _).
  destruct (H "session-1" eq_refl ltac:(done)) as (H1 & H2 & _ & _ & _ & H3 & _).
  destruct (H3 0 (sample_session "session-1" recording None)) as (H4 & _).
  { split; [reflexivity|]. split; [reflexivity|]. intros j y _ Hj. lia. }
  split; [reflexivity|]. split; [reflexivity|]. split; [exact H1|]. split; [exact H2|].
  split; [exact H4|]. apply H0. reflexivity.
Defined.

(** ** Preservation of store predicates by the coordinator's scripts *)

Lemma preserves_ret {A} (I : World → Prop) (x : A) : preserves I (mret x).
Proof. by intros w. Qed.

Lemma preserves_throw {A} (I : World → Prop) (e : JsError) : preserves I (@throw A e).
Proof. by intros w. Qed.

Lemma preserves_gets {A} (I : World → Prop) (f : World → A) : preserves I (gets f).
Proof. by intros w. Qed.

Lemma preserves_bind {A B} (I : World → Prop) (m : M A) (k : A → M B) :
  preserves I m → (∀ x, preserves I (k x)) → preserves I (m ≫= k).
Proof.
  intros Hm Hk w HI. rewrite bind_run. specialize (Hm w HI).
  destruct (m w) as [[e|x] w']; simpl in *; [done|]. by apply Hk.
Qed.

Lemma preserves_try_catch {A} (I : World → Prop) (body : M A) (h : JsError → M A) :
  preserves I body → (∀ e, preserves I (h e)) → preserves I (try_catch body h).
Proof.
  intros Hm Hk w HI. rewrite try_catch_run. specialize (Hm w HI).
  destruct (body w) as [[e|x] w']; simpl in *; [by apply Hk|done].
Qed.

Lemma preserves_emit (P : Store → Prop) (e : Effect) : preserves (on_store P) (emit e).
Proof. by intros w. Qed.

Lemma preserves_set_autoOpened (P : Store → Prop) f :
  preserves (on_store P) (modify (set_autoOpened f)).
Proof. by intros w. Qed.

Lemma preserves_set_in_flight (P : Store → Prop) f :
  preserves (on_store P) (modify (set_in_flight f)).
Proof. by intros w. Qed.

Lemma preserves_set_popup (P : Store → Prop) f :
  preserves (on_store P) (modify (set_popup f)).
Proof. by intros w. Qed.

Ltac solve_ok_patch :=
  unfold ok_patch; simpl; repeat split;
  try congruence; try (intros [?|?]; congruence); eauto.

Lemma ok_failed_patch (r : string) : ok_patch (failed_patch r).
Proof. repeat split; simpl; eauto; congruence. Qed.

Lemma ok_result_patch (r : option AnalysisResult) (t : string) : ok_patch (result_patch r t).
Proof.
  repeat split; simpl; eauto; try congruence. by destruct (is_error_status r).
Qed.

Lemma ok_report_ready_patch (p : ReportReady) : ok_patch (report_ready_patch p).
Proof.
  repeat split; simpl; eauto; try congruence. by case_bool_decide.
Qed.

Lemma ok_status_patch_processing : ok_patch (status_patch processing).
Proof. repeat split; simpl; try congruence. by intros [|]. Qed.

Ltac pres_step :=
  lazymatch goal with
  | |- preserves _ (mret _) => apply preserves_ret
  | |- preserves _ (throw _) => apply preserves_throw
  | |- preserves _ (gets _) => apply preserves_gets
  | |- preserves _ (emit _) => apply preserves_emit
  | |- preserves _ (modify (set_autoOpened _)) => apply preserves_set_autoOpened
  | |- preserves _ (modify (set_in_flight _)) => apply preserves_set_in_flight
  | |- preserves _ (modify (set_popup _)) => apply preserves_set_popup
  | |- preserves _ (try_catch _ _) => apply preserves_try_catch; [|intros ?]
  | |- preserves _ (mbind _ _) => apply preserves_bind; [|intros ?]
  | |- preserves _ (if ?b then _ else _) => destruct b
  | |- preserves _ (match ?x with _ => _ end) => destruct x
  end.

Section coordinator_scripts.
Variable P : Store → Prop.
Hypothesis P_audio : ∀ st f, P st → P (set_audio_entries f st).
Hypothesis P_update : ∀ st i s patch,
  P st → sessions st !! i = Some s → ok_patch patch →
  P (set_sessions (<[i := patched s patch]> (sessions st)) st).

Lemma preserves_updateSession sid patch :
  ok_patch patch → preserves (on_store P) (updateSession sid patch).
Proof.
  intros Hok w HI.
  destruct (findIndex sid (sessions (storage w))) as [[i s]|] eqn:Hfind.
  - rewrite (updateSession_found _ _ _ _ _ Hfind).
    apply findIndex_Some in Hfind as (Hi & _).
    unfold on_store, write_session. simpl.
    apply (P_update (set_audio_entries (audio_after sid patch) (storage w)) i s patch);
      [by apply P_audio|done|done].
  - apply findIndex_None in Hfind. by rewrite (updateSession_unknown _ _ _ Hfind).
Qed.

Lemma preserves_persist sid audio :
  preserves (on_store P) (persistSessionAudioBlob sid audio).
Proof.
  unfold persistSessionAudioBlob. repeat pres_step.
  intros w HI. by apply P_audio.
Qed.

Lemma preserves_load sid : preserves (on_store P) (loadSessionAudioBlob sid).
Proof. unfold loadSessionAudioBlob. repeat pres_step. Qed.

Lemma preserves_fetch env u sid :
  preserves (on_store P) (fetchSessionAudioFromBackend env u sid).
Proof. unfold fetchSessionAudioFromBackend. repeat pres_step. Qed.

Lemma preserves_ensureAudio env session provided mime :
  preserves (on_store P) (ensureAudioForSession env session provided mime).
Proof.
  unfold ensureAudioForSession. pres_step; [pres_step|].
  pres_step; [apply preserves_load|]. pres_step; [pres_step|].
  pres_step; [apply preserves_fetch|]. pres_step; [|pres_step].
  pres_step; [apply preserves_persist|]. pres_step; [|pres_step].
  apply preserves_updateSession. solve_ok_patch.
Qed.

Lemma preserves_openReportTab sid : preserves (on_store P) (openReportTab sid).
Proof. unfold openReportTab. repeat pres_step. Qed.

Lemma preserves_begin env payload :
  preserves (on_store P) (beginSessionAudioJob env payload).
Proof.
  unfold beginSessionAudioJob, getSessionById, get_sessions.
  pres_step; [repeat pres_step|].
  pres_step; [|pres_step]. pres_step; [|pres_step].
  pres_step; [apply preserves_ensureAudio|].
  pres_step; [pres_step|].
  - pres_step; [|repeat pres_step].
    apply preserves_updateSession. solve_ok_patch.
  - pres_step; [|pres_step]. apply preserves_updateSession, ok_failed_patch.
  - pres_step; [|pres_step]. apply preserves_updateSession, ok_failed_patch.
Qed.

Lemma preserves_complete sid result error :
  preserves (on_store P) (onOFFSCREEN_ANALYSIS_COMPLETE sid result error).
Proof.
  unfold onOFFSCREEN_ANALYSIS_COMPLETE.
  pres_step; [|pres_step]. pres_step; [|pres_step]. pres_step.
  - pres_step; [|pres_step]. apply preserves_updateSession, ok_failed_patch.
  - pres_step; [apply preserves_updateSession, ok_result_patch|].
    pres_step; [|pres_step]. pres_step; [apply preserves_openReportTab|pres_step].
Qed.

Lemma preserves_report_ready payload :
  preserves (on_store P) (onSESSION_REPORT_READY payload).
Proof.
  unfold onSESSION_REPORT_READY. repeat (pres_step; try pres_step).
  apply preserves_updateSession, ok_report_ready_patch.
Qed.

Lemma preserves_process env payload :
  preserves (on_store P) (onPROCESS_SESSION_AUDIO env payload).
Proof.
  unfold onPROCESS_SESSION_AUDIO. pres_step; [|pres_step].
  pres_step; [|repeat pres_step].
  pres_step; [apply preserves_begin|pres_step].
Qed.

Lemma preserves_offscreen env job :
  preserves (on_store P) (Offscreen.onMessage env job).
Proof.
  unfold Offscreen.onMessage, onMessage.
  pres_step.
  - pres_step.
    + unfold Offscreen.runBackendAnalysis. repeat pres_step.
    + pres_step; [|pres_step]. pres_step; [|pres_step]. apply preserves_complete.
  - pres_step; [|pres_step]. pres_step; [|pres_step]. apply preserves_complete.
Qed.

Lemma preserves_analyse env job :
  preserves (on_store P) (analyseSessionAudioJob env job).
Proof.
  unfold analyseSessionAudioJob. pres_step.
  - pres_step.
    + pres_step; [unfold requestBackendAnalysis; repeat pres_step|].
      pres_step; [apply preserves_updateSession, ok_result_patch|].
      pres_step; [apply preserves_openReportTab|pres_step].
    + apply preserves_updateSession, ok_failed_patch.
  - pres_step.
    + unfold dispatchOffscreenAnalysis. pres_step; [pres_step|].
      pres_step; [apply preserves_offscreen|]. repeat pres_step.
    + apply preserves_updateSession, ok_failed_patch.
Qed.

Lemma preserves_settle env : preserves (on_store P) (settle env).
Proof.
  unfold settle. pres_step; [pres_step|]. pres_step; [pres_step|].
  pres_step; [pres_step|]. pres_step; [apply preserves_analyse|pres_step].
Qed.
End coordinator_scripts.

(** ** The start command *)

Lemma start_run (env : Env) (w : World) :
  ∃ p u,
    onMessage env START_RECORDING w =
      (inr (RespOk (Some (uuid_session env))), started env p u w).
Proof.
  unfold onMessage, onSTART_RECORDING, started, getUserProfile, pushSession.
  unfold_m. simpl.
  destruct (userProfile (storage w)) as [p|] eqn:Hp.
  - destruct (bool_decide (profile_id p ≠ "") && bool_decide (profile_name p ≠ ""));
      simpl; rewrite <- ?app_assoc; simpl; eauto.
  - simpl. rewrite <- ?app_assoc; simpl; eauto.
Qed.

(** ** Status and report (C2) *)

Lemma elem_of_insert_inv {A} (l : list A) (i : nat) (x y : A) :
  x ∈ <[i:=y]> l → x = y ∨ x ∈ l.
Proof.
  intros [j Hj]%list_elem_of_lookup. destruct (decide (i = j)) as [->|Hne].
  - left. assert (j < length l).
    { apply lookup_lt_Some in Hj. by rewrite length_insert in Hj. }
    rewrite list_lookup_insert_eq in Hj by done. congruence.
  - right. rewrite list_lookup_insert_ne in Hj by done.
    apply list_elem_of_lookup. eauto.
Qed.

Lemma patched_status (s : Session) (p : Patch) :
  status (patched s p) = default (status s) (p_status p).
Proof. unfold patched. by destruct (p_audio_base64 p). Qed.

Lemma patched_report (s : Session) (p : Patch) :
  session_report (patched s p) =
  match p_session_report p with Some r => Some r | None => session_report s end.
Proof. unfold patched. by destruct (p_audio_base64 p). Qed.

Lemma patched_id (s : Session) (p : Patch) : id (patched s p) = id s.
Proof. unfold patched. by destruct (p_audio_base64 p). Qed.

Lemma report_inv_audio (st : Store) f : report_inv st → report_inv (set_audio_entries f st).
Proof. done. Qed.

Lemma report_inv_update (st : Store) (i : nat) (s : Session) (patch : Patch) :
  report_inv st → sessions st !! i = Some s → ok_patch patch →
  report_inv (set_sessions (<[i := patched s patch]> (sessions st)) st).
Proof.
  intros HI Hi (Hrec & Hterm & Hnone) s' Hs'. simpl in Hs'.
  apply elem_of_insert_inv in Hs' as [->|Hs']; [|by apply HI].
  assert (Hs : s ∈ sessions st) by (apply list_elem_of_lookup; eauto).
  destruct (HI s Hs) as [H1 H2].
  unfold terminal. rewrite patched_status, patched_report.
  destruct (p_status patch) as [st'|] eqn:Hst; simpl.
  - split.
    + intros Ht. destruct (Hterm ltac:(destruct Ht; [left|right]; congruence)) as [r ->].
      eauto.
    + intros ->. done.
  - rewrite (Hnone eq_refl). done.
Qed.

Lemma step_report_inv (w : World) (ev : Event) :
  report_inv (storage w) → report_inv (storage (step w ev)).
Proof.
  intros HI. destruct ev as [env msg|env]; simpl.
  - destruct msg as [| |payload|sid result error|payload|action].
    + destruct (start_run env w) as (p & u & ->). simpl.
      intros s [Hs|Hs]%elem_of_app; [by apply HI|].
      apply list_elem_of_singleton in Hs as ->. unfold terminal. simpl.
      split; [intros [|]; congruence|done].
    + destruct (truthy (activeSessionId (storage w))) eqn:Ht.
      * destruct (activeSessionId (storage w)) as [a|] eqn:Hact; [|done].
        simpl in Ht. apply bool_decide_eq_true in Ht.
        rewrite (stop_with_active env w a Hact Ht). unfold stopped. simpl.
        destruct (findIndex a (sessions (storage w))) as [[i s]|] eqn:Hfind; [|done].
        apply findIndex_Some in Hfind as (Hi & _).
        exact (report_inv_update _ i s _ HI Hi ok_status_patch_processing).
      * by rewrite (stop_without_active env w Ht).
    + unfold onMessage. apply (preserves_try_catch (on_store report_inv)); [|intros ?; apply preserves_ret|done].
      apply preserves_process; [apply report_inv_audio|apply report_inv_update].
    + unfold onMessage. apply (preserves_try_catch (on_store report_inv)); [|intros ?; apply preserves_ret|done].
      apply preserves_complete; [apply report_inv_audio|apply report_inv_update].
    + unfold onMessage. apply (preserves_try_catch (on_store report_inv)); [|intros ?; apply preserves_ret|done].
      apply preserves_report_ready; [apply report_inv_audio|apply report_inv_update].
    + done.
  - apply (preserves_settle report_inv); [apply report_inv_audio|apply report_inv_update|done].
Qed.

Lemma run_invariant (I : World → Prop) (evs : list Event) (w : World) :
  (∀ w ev, I w → I (step w ev)) → I w → I (run evs w).
Proof.
  intros Hstep. revert w. induction evs as [|ev evs IH]; intros w HI; [done|].
  simpl. apply IH. by apply Hstep.
Qed.

(** C2, as stated, fails: after a regenerate command the session is back
    in [processing] and still carries the report of the previous
    analysis, so a non-null [session_report] does not imply a status in
    [{done, failed}]. *)
Lemma report_iff_counterexample :
  let w := run regenerate_run initial_world in
  reachable w ∧
  (status <$> sessions (storage w)) = [processing] ∧
  (session_report <$> sessions (storage w)) = [Some "## Summary"] ∧
  ¬ report_iff (storage w).
Proof.
  intros w. split; [by exists regenerate_run|].
  assert (Hs : (status <$> sessions (storage w)) = [processing]) by (vm_compute; reflexivity).
  assert (Hr : (session_report <$> sessions (storage w)) = [Some "## Summary"])
    by (vm_compute; reflexivity).
  split; [done|]. split; [done|].
  intros Hiff. destruct (sessions (storage w)) as [|s [|]] eqn:Hw; try done.
  simpl in Hs, Hr. injection Hs as Hs. injection Hr as Hr.
  destruct (Hiff s) as [_ H]; [rewrite Hw; by left|].
  destruct H as [H|H]; [by rewrite Hr| |]; congruence.
Qed.

(** C2, amended: every store mutation of the coordinator (each delivered
    message and each settled analysis) preserves, and so every reachable
    store satisfies, for every session: a status in [{done, failed}]
    implies a non-null [session_report], and status [recording] implies a
    null one.  The converse of the first implication is not claimed. *)
Theorem reachable_report_invariant :
  (∀ w ev, report_inv (storage w) → report_inv (storage (step w ev))) ∧
  (∀ w, reachable w → report_inv (storage w)).
Proof.
  split; [apply step_report_inv|].
  intros w [evs <-].
  apply (run_invariant (on_store report_inv)); [apply step_report_inv|].
  intros s Hs. simpl in Hs. by apply elem_of_nil in Hs.
Qed.

Lemma reachable_report_invariant_witness :
  report_inv (storage (run regenerate_run initial_world)).
Proof.
  apply (proj2 reachable_report_invariant). by exists regenerate_run.
Defined.

(** ** The active session (C1) *)

Lemma elem_of_insert_other {A} (l : list A) (i : nat) (x y : A) :
  x ∈ <[i:=y]> l → x = y ∨ ∃ j, j ≠ i ∧ l !! j = Some x.
Proof.
  intros [j Hj]%list_elem_of_lookup. destruct (decide (i = j)) as [->|Hne].
  - left. assert (j < length l).
    { apply lookup_lt_Some in Hj. by rewrite length_insert in Hj. }
    rewrite list_lookup_insert_eq in Hj by done. congruence.
  - right. rewrite list_lookup_insert_ne in Hj by done. eauto.
Qed.

Lemma ids_insert_patched (l : list Session) (i : nat) (s : Session) (p : Patch) :
  l !! i = Some s → id <$> <[i := patched s p]> l = id <$> l.
Proof.
  intros Hi. rewrite list_fmap_insert, patched_id.
  apply list_insert_id. by rewrite list_lookup_fmap, Hi.
Qed.

Lemma active_inv_audio (st : Store) f : active_inv st → active_inv (set_audio_entries f st).
Proof. done. Qed.

Lemma active_inv_update (st : Store) (i : nat) (s : Session) (patch : Patch) :
  active_inv st → sessions st !! i = Some s → ok_patch patch →
  active_inv (set_sessions (<[i := patched s patch]> (sessions st)) st).
Proof.
  intros (Hnd & Hrec & Hne) Hi (Hp & _). split; [|split]; simpl; [| |done].
  - by rewrite ids_insert_patched.
  - intros s' Hs' Hst. apply elem_of_insert_inv in Hs' as [->|Hs']; [|by apply Hrec].
    rewrite patched_id. apply Hrec; [apply list_elem_of_lookup; eauto|].
    rewrite patched_status in Hst. destruct (p_status patch); simpl in *; congruence.
Qed.

Lemma active_inv_stop (env : Env) (w : World) :
  active_inv (storage w) → active_inv (storage (step w (Deliver env STOP_RECORDING))).
Proof.
  intros HI. pose proof HI as (Hnd & Hrec & Hne). simpl.
  destruct (activeSessionId (storage w)) as [a|] eqn:Hact.
  - rewrite (stop_with_active env w a Hact (Hne a eq_refl)). unfold stopped. simpl.
    destruct (findIndex a (sessions (storage w))) as [[i s]|] eqn:Hfind; simpl.
    + apply findIndex_Some in Hfind as (Hi & Hid & _).
      split; [|split]; simpl; [by rewrite ids_insert_patched| |done].
      intros s' Hs' Hst. exfalso.
      apply elem_of_insert_other in Hs' as [->|(j & Hj & Hs')].
      * by rewrite patched_status in Hst.
      * assert (Hin : s' ∈ sessions (storage w)) by (apply list_elem_of_lookup; eauto).
        pose proof (Hrec s' Hin Hst) as Heq. apply Hj.
        apply (NoDup_lookup (id <$> sessions (storage w)) j i a Hnd);
          rewrite list_lookup_fmap; [rewrite Hs'|rewrite Hi]; simpl; congruence.
    + apply findIndex_None in Hfind.
      split; [|split]; simpl; [done| |done].
      intros s' Hs' Hst. exfalso. apply Hfind.
      pose proof (Hrec s' Hs' Hst) as Heq. apply list_elem_of_fmap. exists s'.
      split; [congruence|done].
  - by rewrite (stop_without_active env w) by (by rewrite Hact).
Qed.

Lemma active_inv_start (env : Env) (w : World) :
  event_ok w (Deliver env START_RECORDING) →
  active_inv (storage w) → active_inv (storage (step w (Deliver env START_RECORDING))).
Proof.
  intros (Hgate & Hne & Hfresh) (Hnd & Hrec & Hact). simpl.
  destruct (start_run env w) as (p & u & ->). simpl.
  assert (Hnone : activeSessionId (storage w) = None).
  { destruct (activeSessionId (storage w)) as [a|] eqn:Ha; [|done].
    simpl in Hgate. apply bool_decide_eq_false in Hgate. destruct Hgate.
    by apply Hact. }
  split; [|split]; simpl.
  - rewrite fmap_app. apply NoDup_app. split; [done|]. split.
    + intros x Hx Hx'. simpl in Hx'. apply list_elem_of_singleton in Hx' as ->. done.
    + simpl. apply NoDup_singleton.
  - intros s [Hs|Hs]%elem_of_app Hst.
    + specialize (Hrec s Hs Hst). congruence.
    + by apply list_elem_of_singleton in Hs as ->.
  - intros a [= <-]. done.
Qed.

Lemma step_active_inv (w : World) (ev : Event) :
  event_ok w ev → active_inv (storage w) → active_inv (storage (step w ev)).
Proof.
  intros Hok HI. destruct ev as [env msg|env].
  - destruct msg as [| |payload|sid result error|payload|action].
    + by apply active_inv_start.
    + by apply active_inv_stop.
    + simpl. unfold onMessage.
      apply (preserves_try_catch (on_store active_inv)); [|intros ?; apply preserves_ret|done].
      apply preserves_process; [apply active_inv_audio|apply active_inv_update].
    + simpl. unfold onMessage.
      apply (preserves_try_catch (on_store active_inv)); [|intros ?; apply preserves_ret|done].
      apply preserves_complete; [apply active_inv_audio|apply active_inv_update].
    + simpl. unfold onMessage.
      apply (preserves_try_catch (on_store active_inv)); [|intros ?; apply preserves_ret|done].
      apply preserves_report_ready; [apply active_inv_audio|apply active_inv_update].
    + done.
  - apply (preserves_settle active_inv); [apply active_inv_audio|apply active_inv_update|done].
Qed.

Lemma filter_unique_id (P : Session → Prop) `{∀ s, Decision (P s)} (l : list Session) :
  NoDup (id <$> l) →
  (∀ s1 s2, s1 ∈ l → s2 ∈ l → P s1 → P s2 → id s1 = id s2) →
  length (filter P l) ≤ 1.
Proof.
  induction l as [|x l IH]; intros Hnd Hsame; [simpl; lia|].
  rewrite fmap_cons in Hnd. apply NoDup_cons in Hnd as [Hx Hnd].
  rewrite filter_cons. destruct (decide (P x)) as [HP|HP].
  - destruct (filter P l) as [|y k] eqn:Hf; [simpl; lia|]. exfalso.
    assert (Hy : y ∈ filter P l) by (rewrite Hf; by left).
    apply list_elem_of_filter in Hy as [HPy Hy]. apply Hx.
    apply list_elem_of_fmap. exists y. split; [|done].
    apply Hsame; [by left|by right|done|done].
  - apply IH; [done|]. intros s1 s2 H1 H2. apply Hsame; by right.
Qed.

Lemma active_inv_single_recording (st : Store) : active_inv st → single_recording st.
Proof.
  intros (Hnd & Hrec & _). split.
  - apply filter_unique_id; [done|]. intros s1 s2 H1 H2 Hs1 Hs2.
    pose proof (Hrec s1 H1 Hs1). pose proof (Hrec s2 H2 Hs2). congruence.
  - intros a s Ha Hs Hst. specialize (Hrec s Hs Hst). congruence.
Qed.

(** C1, as stated, fails: a second start command while the first session
    is still recording is answered [ok] with a new id, and the store then
    holds two sessions in [recording], the older one with an id different
    from [activeSessionId]. *)
Lemma double_start_counterexample :
  let w1 := run [Deliver silent_env START_RECORDING] initial_world in
  let w2 := step w1 (Deliver second_env START_RECORDING) in
  reachable w2 ∧
  (status <$> sessions (storage w1)) = [recording] ∧
  response_of second_env START_RECORDING w1 = RespOk (Some "session-2") ∧
  (status <$> sessions (storage w2)) = [recording; recording] ∧
  (id <$> sessions (storage w2)) = ["session-1"; "session-2"] ∧
  activeSessionId (storage w2) = Some "session-2" ∧
  ¬ single_recording (storage w2).
Proof.
  intros w1 w2. split.
  { by exists [Deliver silent_env START_RECORDING; Deliver second_env START_RECORDING]. }
  repeat split; try (vm_compute; reflexivity).
  intros [Hlen _]. vm_compute in Hlen. lia.
Qed.

(** ** Regenerate without audio (C3) *)

Lemma findIndex_write_session (sid : string) (l : list Session) (i : nat)
    (s : Session) (p : Patch) :
  findIndex sid l = Some (i, s) →
  findIndex sid (<[i := patched s p]> l) = Some (i, patched s p).
Proof.
  unfold findIndex. rewrite !list_find_Some. intros (Hi & Hid & Hlt).
  split; [|split].
  - apply list_lookup_insert_eq. by eapply lookup_lt_Some.
  - by rewrite patched_id.
  - intros j y Hj Hji. rewrite list_lookup_insert_ne in Hj by lia. by eapply Hlt.
Qed.

Lemma ensureAudio_unavailable (env : Env) (session : Session) (mime : option string)
    (w : World) :
  (loadSessionAudioBlob (id session) w).1 = inr None →
  (∀ w', (fetchSessionAudioFromBackend env (user_id session) (id session) w').1 = inr None ∨
         ∃ d, (fetchSessionAudioFromBackend env (user_id session) (id session) w').1 = inr (Some d) ∧
              truthy (a_audio_base64 d) = false) →
  ensureAudioForSession env session None mime w =
    (inr (None, or_str mime (or_str (audio_mime_type session) "audio/webm")), w).
Proof.
  intros Hload Hfetch. unfold ensureAudioForSession. simpl. rewrite bind_run.
  assert (Hw : (loadSessionAudioBlob (id session) w).2 = w).
  { unfold loadSessionAudioBlob. unfold_m. by case_bool_decide. }
  destruct (loadSessionAudioBlob (id session) w) as [r w0] eqn:Hl.
  simpl in Hload, Hw. subst r w0. simpl. rewrite bind_run.
  assert (Hw : (fetchSessionAudioFromBackend env (user_id session) (id session) w).2 = w).
  { unfold fetchSessionAudioFromBackend. unfold_m.
    destruct (user_id session); [|done]. destruct (_ && _); [|done].
    by destruct (audio_endpoint env _ _). }
  specialize (Hfetch w).
  destruct (fetchSessionAudioFromBackend env (user_id session) (id session) w)
    as [r w0] eqn:Hf.
  simpl in Hfetch, Hw. subst w0.
  destruct Hfetch as [->|(d & -> & Hd)]; simpl; [done|]. by rewrite Hd.
Qed.

Lemma fetch_remote_audio (env : Env) (u sid : string) (w : World) :
  u ≠ "" → sid ≠ "" →
  ∃ r, fetchSessionAudioFromBackend env (Some u) sid w = (inr r, w) ∧
       (if truthy (r ≫= a_audio_base64) then Some r else None) =
         Some <$> remote_audio env u sid.
Proof.
  intros Hu Hs. unfold fetchSessionAudioFromBackend, remote_audio. unfold_m.
  rewrite !bool_decide_true by done. simpl.
  destruct (audio_endpoint env u sid) as [e|[] code [d|]]; simpl;
    eexists; (split; [reflexivity|]); simpl; try done.
  by destruct (truthy (a_audio_base64 d)).
Qed.

Lemma fetch_without_remote_audio (env : Env) (u : option string) (sid : string)
    (w : World) :
  (∀ u', remote_audio env u' sid = None) →
  (fetchSessionAudioFromBackend env u sid w).1 = inr None ∨
  ∃ d, (fetchSessionAudioFromBackend env u sid w).1 = inr (Some d) ∧
       truthy (a_audio_base64 d) = false.
Proof.
  intros Hremote. destruct u as [u|]; [|by left].
  destruct (decide (u = "")) as [->|Hu]; [by left|].
  destruct (decide (sid = "")) as [->|Hs].
  { left. unfold fetchSessionAudioFromBackend.
    rewrite (bool_decide_false ("" ≠ "")) by (intros H; by apply H).
    by rewrite andb_false_r. }
  destruct (fetch_remote_audio env u sid w Hu Hs) as (r & -> & Hr).
  rewrite Hremote in Hr. simpl in *. destruct r as [d|]; [right|by left].
  exists d. split; [done|]. change (Some d ≫= a_audio_base64) with (a_audio_base64 d) in Hr.
  by destruct (truthy (a_audio_base64 d)).
Qed.

(** The coordinator on a regenerate command for a stored session whose
    audio is neither cached nor served by the remote endpoint: the answer
    is [ok] and the record is overwritten with [failed] and the
    "no audio" report. *)
Lemma regenerate_without_audio (env : Env) (sid : string) (w : World) i s :
  sid ≠ "" →
  findIndex sid (sessions (storage w)) = Some (i, s) →
  audio_entries (storage w) !! audio_key sid = None →
  (∀ u, remote_audio env u sid = None) →
  onMessage env (regenerate sid) w =
    (inr (RespOk None), write_session i s sid (failed_patch NO_AUDIO_REPORT) w).
Proof.
  intros Hsid Hfind Hcache Hremote.
  pose proof (findIndex_Some _ _ _ _ Hfind) as (Hi & Hid & _).
  unfold onMessage, regenerate, onPROCESS_SESSION_AUDIO.
  rewrite try_catch_run. simpl. rewrite bool_decide_true by done.
  rewrite bind_run, try_catch_run.
  unfold beginSessionAudioJob. rewrite bind_run.
  unfold getSessionById at 1. rewrite bind_run. unfold get_sessions, gets at 1.
  simpl. rewrite Hfind. simpl.
  rewrite bind_run, ensureAudio_unavailable.
  - simpl. rewrite bind_run, (updateSession_found _ _ _ _ _ Hfind). reflexivity.
  - unfold loadSessionAudioBlob. rewrite Hid. unfold_m.
    rewrite bool_decide_false by done. simpl. by rewrite Hcache.
  - intros w'. apply fetch_without_remote_audio. by rewrite Hid.
Qed.

(** The popup's regenerate on the same kind of session (no inline audio
    in the record, no cache entry, nothing served remotely): an alert and
    no write at all. *)
Lemma popup_regenerate_without_audio (env : Env) (sid : string) (w : World) i s :
  sid ≠ "" →
  findIndex sid (sessions (storage w)) = Some (i, s) →
  truthy (audio_base64 s) = false →
  audio_entries (storage w) !! audio_key sid = None →
  (∀ u, remote_audio env u sid = None) →
  Popup.regenerateSession env sid w =
    (inr tt,
     logged [Alerted "فایل صوتی این جلسه در دسترس نیست و از سرور نیز یافت نشد."] w).
Proof.
  intros Hsid Hfind Hinline Hcache Hremote.
  pose proof (findIndex_Some _ _ _ _ Hfind) as (Hi & Hid & _). subst sid.
  unfold Popup.regenerateSession. rewrite bind_run.
  unfold getSessionById at 1. rewrite bind_run. unfold get_sessions, gets at 1.
  simpl. rewrite Hfind. simpl. rewrite bind_run.
  unfold Popup.resolveSessionAudio. rewrite Hinline, bind_run.
  unfold loadSessionAudioBlob. rewrite bool_decide_false by done.
  rewrite bind_run. unfold gets at 1. rewrite Hcache. simpl.
  rewrite bind_run. unfold Popup.fetchSessionAudioFromBackend. rewrite bind_run.
  pose proof (fetch_without_remote_audio env (user_id s) (id s) w Hremote) as Hf.
  assert (Hw : (fetchSessionAudioFromBackend env (user_id s) (id s) w).2 = w).
  { unfold fetchSessionAudioFromBackend. unfold_m.
    destruct (user_id s); [|done]. destruct (_ && _); [|done].
    by destruct (audio_endpoint env _ _). }
  destruct (fetchSessionAudioFromBackend env (user_id s) (id s) w) as [r w0].
  simpl in Hf, Hw. subst w0.
  destruct Hf as [->|(d & -> & Hd)]; simpl; [done|]. by rewrite Hd.
Qed.

(** C3 (evaluation of the code at the failing input): the session
    ["session-1"] is [done] with a report and has no audio, locally or
    remotely.  The regenerate button of the report page sends
    [PROCESS_SESSION_AUDIO] with [isRegeneration]; the coordinator answers
    [ok] and the session ends [failed] with its report replaced. *)
Theorem report_page_regenerate_overwrites :
  let w := lost_audio_world in
  let w' := (Report.regenBtn_click silent_env (Some "session-1") w).2 in
  reachable w ∧
  ((λ s, (id s, status s, session_report s)) <$> sessions (storage w)) =
    [("session-1", done, Some "## Summary")] ∧
  audio_entries (storage w) !! audio_key "session-1" = None ∧
  (Report.regenBtn_click silent_env (Some "session-1") w).1 = inr (Some (RespOk None)) ∧
  ((λ s, (id s, status s, session_report s)) <$> sessions (storage w')) =
    [("session-1", failed, Some NO_AUDIO_REPORT)].
Proof.
  intros w w'. split; [by exists lost_audio_run|].
  repeat split; vm_compute; reflexivity.
Qed.

(** The popup's own regenerate path on the same store: it resolves the
    audio first, finds none, alerts and leaves the store untouched. *)
Lemma popup_regenerate_keeps_state :
  let w := lost_audio_world in
  let w' := (Popup.regenerateSession silent_env "session-1" w).2 in
  sessions (storage w') = sessions (storage w) ∧
  effects w' =
    effects w ++ [Alerted "فایل صوتی این جلسه در دسترس نیست و از سرور نیز یافت نشد."].
Proof. intros w w'. split; vm_compute; reflexivity. Qed.

(** ** Network failures of the analysis call (C4) *)

Lemma or_str_nonempty (a : option string) (b : string) : b ≠ "" → or_str a b ≠ "".
Proof.
  intros Hb. unfold or_str. destruct a as [s|]; [|done]. by case_bool_decide.
Qed.

Lemma append_nonempty (a b : string) : a ≠ "" → a +:+ b ≠ "".
Proof. by destruct a. Qed.

Lemma error_text_Error (m : string) : m ≠ "" → error_text (Error m) = m.
Proof. intros Hm. unfold error_text. simpl. by rewrite bool_decide_true. Qed.

Lemma requestBackendAnalysis_failure (env : Env) (w : World) :
  network_failure (analyze_endpoint env) →
  ∃ e, requestBackendAnalysis env w = (inl e, w) ∧
       error_text e = failure_cause "HTTP " (analyze_endpoint env).
Proof.
  unfold requestBackendAnalysis, network_failure, failure_cause.
  destruct (analyze_endpoint env) as [e|ok code body]; [by eauto|].
  intros ->. destruct body as [data|]; simpl; eexists; (split; [reflexivity|]);
    apply error_text_Error; try apply or_str_nonempty; by apply append_nonempty.
Qed.

Lemma runBackendAnalysis_failure (env : Env) (job : Job) (w : World) :
  job_sessionId job ≠ "" → job_audio job ≠ "" →
  network_failure (analyze_endpoint env) →
  ∃ e, Offscreen.runBackendAnalysis env job w = (inl e, w) ∧
       error_text e = failure_cause "کد خطا " (analyze_endpoint env).
Proof.
  intros Hs Ha. unfold Offscreen.runBackendAnalysis, network_failure, failure_cause.
  rewrite !bool_decide_false by done. simpl.
  destruct (analyze_endpoint env) as [e|ok code body]; [by eauto|].
  intros ->. destruct body as [data|]; simpl; eexists; (split; [reflexivity|]);
    apply error_text_Error; try apply or_str_nonempty; by apply append_nonempty.
Qed.

(** C4: an analysis attempt for a stored session whose network call is
    rejected (timeout, connection failure) or answered with a non-success
    status returns normally (nothing is thrown past the job) and leaves
    the session [failed], its [session_report] being the error prefix
    followed by the cause: the text of the rejection, or the service's
    error detail when present, else a generic message ending in the
    status code.  This holds on the in-worker path and on the offscreen
    path. *)
Theorem analysis_failure_ends_failed
    (env : Env) (job : Job) (w : World) (i : nat) (s : Session) :
  findIndex (job_sessionId job) (sessions (storage w)) = Some (i, s) →
  job_sessionId job ≠ "" → job_audio job ≠ "" →
  offscreen_channel env = None →
  network_failure (analyze_endpoint env) →
  ∃ w' s',
    analyseSessionAudioJob env job w = (inr tt, w') ∧
    sessions (storage w') !! i = Some s' ∧
    id s' = job_sessionId job ∧
    status s' = failed ∧
    session_report s' = Some (failure_report env) ∧
    (∀ ok code body, analyze_endpoint env = FetchResponse ok code body →
       ∀ detail, body ≫= r_error = Some detail → detail ≠ "" →
       failure_cause "HTTP " (analyze_endpoint env) = detail ∧
       failure_cause "کد خطا " (analyze_endpoint env) = detail) ∧
    (∀ ok code body, analyze_endpoint env = FetchResponse ok code body →
       truthy (body ≫= r_error) = false →
       failure_cause "HTTP " (analyze_endpoint env) = "HTTP " +:+ pretty code ∧
       failure_cause "کد خطا " (analyze_endpoint env) = "کد خطا " +:+ pretty code).
Proof.
  intros Hfind Hsid Haudio Hchan Hfail.
  pose proof (findIndex_Some _ _ _ _ Hfind) as (Hi & Hid & _).
  assert (Hcauses :
    (∀ ok code body, analyze_endpoint env = FetchResponse ok code body →
       ∀ detail, body ≫= r_error = Some detail → detail ≠ "" →
       failure_cause "HTTP " (analyze_endpoint env) = detail ∧
       failure_cause "کد خطا " (analyze_endpoint env) = detail) ∧
    (∀ ok code body, analyze_endpoint env = FetchResponse ok code body →
       truthy (body ≫= r_error) = false →
       failure_cause "HTTP " (analyze_endpoint env) = "HTTP " +:+ pretty code ∧
       failure_cause "کد خطا " (analyze_endpoint env) = "کد خطا " +:+ pretty code)).
  { split.
    - intros ok code body -> detail Hd Hne. unfold failure_cause. rewrite Hd.
      simpl. by rewrite bool_decide_true.
    - intros ok code body -> Hd. unfold failure_cause.
      destruct (body ≫= r_error) as [d|]; [|done]. simpl in *. by rewrite Hd. }
  unfold analyseSessionAudioJob, failure_report.
  destruct (has_offscreen env) eqn:Hoff; simpl.
  - (* offscreen path *)
    destruct (runBackendAnalysis_failure env job w Hsid Haudio Hfail) as (e & He & Htext).
    set (cause := failure_cause "کد خطا " (analyze_endpoint env)) in *.
    rewrite try_catch_run. unfold dispatchOffscreenAnalysis. rewrite Hchan.
    rewrite bind_run. unfold Offscreen.onMessage. rewrite try_catch_run.
    rewrite bind_run, He. rewrite bind_run, Htext.
    unfold onMessage at 1. rewrite try_catch_run.
    unfold onOFFSCREEN_ANALYSIS_COMPLETE. rewrite bool_decide_true by done.
    destruct (truthy (Some cause)) eqn:Hcause.
    + rewrite bind_run, (updateSession_found _ _ _ _ _ Hfind). simpl.
      pose proof (findIndex_write_session _ _ _ _
                    (failed_patch (ANALYSIS_ERROR_PREFIX +:+ cause)) Hfind) as Hfind'.
      erewrite updateSession_found by (simpl; exact Hfind').
      eexists _, _. split; [reflexivity|].
      split; [apply write_session_lookup; simpl;
              apply list_lookup_insert_eq; by eapply lookup_lt_Some|].
      rewrite !patched_id. simpl in Hcause. apply bool_decide_eq_true in Hcause.
      unfold or_str. rewrite bool_decide_true by done.
      rewrite (error_text_Error cause) by done. done.
    + rewrite bind_run, (updateSession_found _ _ _ _ _ Hfind). simpl.
      pose proof (findIndex_write_session _ _ _ _
                    (result_patch None "Session Report") Hfind) as Hfind'.
      erewrite updateSession_found by (simpl; exact Hfind').
      eexists _, _. split; [reflexivity|].
      split; [apply write_session_lookup; simpl;
              apply list_lookup_insert_eq; by eapply lookup_lt_Some|].
      rewrite !patched_id. simpl in Hcause. apply bool_decide_eq_false in Hcause.
      assert (cause = "") as -> by (by destruct (decide (cause = "")); [|destruct Hcause]).
      done.
  - (* in-worker path *)
    destruct (requestBackendAnalysis_failure env w Hfail) as (e & He & Htext).
    rewrite try_catch_run, bind_run, He.
    rewrite (updateSession_found _ _ _ _ _ Hfind), Htext.
    eexists _, _. split; [reflexivity|].
    split; [by apply write_session_lookup|]. rewrite patched_id. done.
Qed.

Lemma analysis_failure_ends_failed_witness :
  ∃ w' s',
    analyseSessionAudioJob silent_env waiting_job waiting_world = (inr tt, w') ∧
    sessions (storage w') !! 0 = Some s' ∧
    status s' = failed ∧
    session_report s' = Some (ANALYSIS_ERROR_PREFIX +:+ "HTTP 500").
Proof.
  destruct (analysis_failure_ends_failed silent_env waiting_job waiting_world 0
              waiting_session) as (w' & s' & H1 & H2 & _ & H3 & H4 & _).
  - vm_compute. reflexivity.
  - simpl. congruence.
  - simpl. congruence.
  - reflexivity.
  - reflexivity.
  - exists w', s'. repeat split; assumption.
Defined.

(** ** Resolution order of the audio (C5) *)

Lemma load_Some_truthy (sid c : string) (w : World) :
  (loadSessionAudioBlob sid w).1 = inr (Some c) → c ≠ "".
Proof.
  unfold loadSessionAudioBlob. unfold_m. case_bool_decide; [done|]. simpl.
  destruct (audio_entries (storage w) !! audio_key sid) as [x|]; simpl; [|done].
  case_bool_decide; [|done]. congruence.
Qed.

Lemma ensureAudio_inline (env : Env) (s : Session) (provided mime : option string)
    (w : World) :
  truthy provided = true →
  ensureAudioForSession env s provided mime w =
    (inr (provided, or_str mime (or_str (audio_mime_type s) "audio/webm")), w).
Proof. intros H. unfold ensureAudioForSession. by rewrite H. Qed.

Lemma ensureAudio_cached (env : Env) (s : Session) (provided mime : option string)
    (c : string) (w : World) :
  truthy provided = false →
  loadSessionAudioBlob (id s) w = (inr (Some c), w) →
  ensureAudioForSession env s provided mime w =
    (inr (Some c, or_str (audio_mime_type s) "audio/webm"), w).
Proof.
  intros H Hload. unfold ensureAudioForSession. rewrite H, bind_run, Hload.
  assert (c ≠ "") by (eapply load_Some_truthy; by rewrite Hload).
  simpl. by rewrite bool_decide_true.
Qed.

Lemma ensureAudio_remote (env : Env) (s : Session) (provided mime : option string)
    (u : string) (d : AudioData) (w : World) :
  truthy provided = false →
  loadSessionAudioBlob (id s) w = (inr None, w) →
  user_id s = Some u → u ≠ "" → id s ≠ "" →
  remote_audio env u (id s) = Some d →
  ∃ w',
    ensureAudioForSession env s provided mime w =
      (inr (a_audio_base64 d, or_str (a_mime_type d) "audio/webm"), w') ∧
    audio_entries (storage w') !! audio_key (id s) = a_audio_base64 d ∧
    activeSessionId (storage w') = activeSessionId (storage w) ∧
    length (sessions (storage w')) = length (sessions (storage w)) ∧
    ∀ i s0, findIndex (id s) (sessions (storage w)) = Some (i, s0) →
      ∃ s1, sessions (storage w') !! i = Some s1 ∧ has_audio s1 = true ∧
            id s1 = id s0 ∧ status s1 = status s0 ∧
            session_report s1 = session_report s0.
Proof.
  intros H Hload Hu Hune Hsid Hremote.
  destruct (fetch_remote_audio env u (id s) w Hune Hsid) as (r & Hfetch & Hr).
  rewrite Hremote in Hr. simpl in Hr.
  destruct (truthy (r ≫= a_audio_base64)) eqn:Htr; [|done].
  injection Hr as ->. simpl in Htr.
  destruct (a_audio_base64 d) as [a|] eqn:Ha; [|done].
  simpl in Htr. apply bool_decide_eq_true in Htr.
  unfold ensureAudioForSession. rewrite H, bind_run, Hload. simpl.
  rewrite bind_run, Hu, Hfetch. simpl. rewrite Ha. simpl.
  rewrite (bool_decide_true (a ≠ "")) by done.
  rewrite bind_run. unfold persistSessionAudioBlob.
  rewrite (bool_decide_true (id s ≠ "")) by done. simpl.
  rewrite bind_run.
  set (w1 := set_storage _ w).
  destruct (findIndex (id s) (sessions (storage w))) as [[i s0]|] eqn:Hfind.
  - erewrite updateSession_found by (simpl; exact Hfind). simpl.
    eexists. split; [reflexivity|]. simpl. unfold audio_after. simpl.
    rewrite lookup_insert_eq.
    repeat split; try done; [by rewrite length_insert|].
    intros i' s0' [= <- <-]. apply findIndex_Some in Hfind as (Hi & _).
    eexists. split; [apply list_lookup_insert_eq; by eapply lookup_lt_Some|done].
  - apply findIndex_None in Hfind.
    rewrite updateSession_unknown by (simpl; exact Hfind). simpl.
    eexists. split; [reflexivity|]. simpl. rewrite lookup_insert_eq.
    repeat split; try done.
Qed.

Lemma begin_with_inline (env : Env) (payload : JobPayload) (sid a : string)
    (w : World) (i : nat) (s0 : Session) :
  sessionId payload = Some sid → sid ≠ "" →
  audioBase64 payload = Some a → a ≠ "" →
  findIndex sid (sessions (storage w)) = Some (i, s0) →
  ∃ job w',
    beginSessionAudioJob env payload w = (inr (Some job), w') ∧
    job_sessionId job = sid ∧ job_audio job = a ∧
    audio_entries (storage w') !! audio_key sid = Some a ∧
    ∃ s1, sessions (storage w') !! i = Some s1 ∧ has_audio s1 = true ∧
          status s1 = processing.
Proof.
  intros Hsid Hne Haudio Ha Hfind.
  pose proof (findIndex_Some _ _ _ _ Hfind) as (Hi & _).
  unfold beginSessionAudioJob. rewrite bind_run.
  unfold getSessionById at 1. rewrite bind_run. unfold get_sessions, gets at 1.
  simpl. rewrite Hsid, Hfind. simpl.
  rewrite bind_run, ensureAudio_inline by (rewrite Haudio; simpl; by rewrite bool_decide_true).
  simpl. rewrite Haudio, (bool_decide_true (a ≠ "")) by done.
  rewrite bind_run, (updateSession_found _ _ _ _ _ Hfind). simpl.
  eexists _, _. split; [reflexivity|]. simpl.
  unfold audio_after. simpl. rewrite !bool_decide_true by done.
  rewrite lookup_insert_eq. repeat split; try done.
  eexists. split; [apply list_lookup_insert_eq; by eapply lookup_lt_Some|].
  unfold patched. simpl. by rewrite bool_decide_true.
Qed.

Lemma load_cached (sid c : string) (w : World) :
  sid ≠ "" → audio_entries (storage w) !! audio_key sid = Some c → c ≠ "" →
  loadSessionAudioBlob sid w = (inr (Some c), w).
Proof.
  intros Hs Hc Hne. unfold loadSessionAudioBlob. rewrite bool_decide_false by done.
  rewrite bind_run. unfold gets at 1. rewrite Hc. simpl.
  by rewrite bool_decide_true.
Qed.

Lemma load_missed (sid : string) (w : World) :
  cache_miss w sid → loadSessionAudioBlob sid w = (inr None, w).
Proof.
  unfold loadSessionAudioBlob. intros [->|[H|H]].
  - by rewrite bool_decide_true.
  - destruct (bool_decide (sid = "")); [done|].
    rewrite bind_run. unfold gets at 1. by rewrite H.
  - destruct (bool_decide (sid = "")); [done|].
    rewrite bind_run. unfold gets at 1. by rewrite H.
Qed.

Lemma ensureAudio_remote_run (env : Env) (s : Session) (provided mime : option string)
    (u a : string) (d : AudioData) (w : World) :
  truthy provided = false →
  loadSessionAudioBlob (id s) w = (inr None, w) →
  user_id s = Some u → u ≠ "" → id s ≠ "" →
  remote_audio env u (id s) = Some d → a_audio_base64 d = Some a →
  a ≠ "" ∧
  ensureAudioForSession env s provided mime w =
    (inr (Some a, or_str (a_mime_type d) "audio/webm"),
     set_storage
       (set_sessions
          match findIndex (id s) (sessions (storage w)) with
          | Some (i, s0) =>
              <[i := marked_with_audio (or_str (a_mime_type d) "audio/webm") s0]>
                (sessions (storage w))
          | None => sessions (storage w)
          end)
       (set_storage (set_audio_entries <[audio_key (id s) := a]>) w)).
Proof.
  intros H Hload Hu Hune Hsid Hremote Ha.
  destruct (fetch_remote_audio env u (id s) w Hune Hsid) as (r & Hfetch & Hr).
  rewrite Hremote in Hr. simpl in Hr.
  destruct (truthy (r ≫= a_audio_base64)) eqn:Htr; [|done].
  injection Hr as ->. simpl in Htr. rewrite Ha in Htr.
  simpl in Htr. apply bool_decide_eq_true in Htr. split; [done|].
  unfold ensureAudioForSession. rewrite H, bind_run, Hload. simpl.
  rewrite bind_run, Hu, Hfetch. simpl. rewrite Ha. simpl.
  rewrite (bool_decide_true (a ≠ "")) by done.
  rewrite bind_run. unfold persistSessionAudioBlob.
  rewrite (bool_decide_true (id s ≠ "")) by done. simpl.
  rewrite bind_run.
  set (w1 := set_storage _ w).
  destruct (findIndex (id s) (sessions (storage w))) as [[i s0]|] eqn:Hfind.
  - erewrite updateSession_found by (simpl; exact Hfind). reflexivity.
  - apply findIndex_None in Hfind.
    rewrite updateSession_unknown by (simpl; exact Hfind). reflexivity.
Qed.

(** C5: [ensureAudioForSession] resolves the audio of a session in this
    order and stops at the first hit.  (1) A supplied inline payload is
    returned as it is, and the job that asked for it stores it under the
    session's audio entry.  (2) Else, when the audio entry stored under
    the session's id holds a non-empty payload, that payload is returned,
    without any write.  (3) Else the remote endpoint is fetched under the
    key (user id, session id); when it serves audio, the payload is
    written to the session's audio entry (no other entry changes), the
    first stored record with the session's id gets [has_audio = true] and
    the served type, every other record and field is kept, and the
    payload is returned; when it does not (rejection, timeout,
    non-success status, no audio in the body, or no user id to ask
    with), the result is "unavailable" (a null payload) and nothing is
    written. *)
Theorem audio_resolution_order
    (env : Env) (s : Session) (provided mime : option string) (w : World) :
  (truthy provided = true →
     ensureAudioForSession env s provided mime w =
       (inr (provided, or_str mime (or_str (audio_mime_type s) "audio/webm")), w)) ∧
  (∀ payload sid a i s0,
     sessionId payload = Some sid → sid ≠ "" →
     audioBase64 payload = Some a → a ≠ "" →
     first_with_id sid (sessions (storage w)) i s0 →
     ∃ job w',
       beginSessionAudioJob env payload w = (inr (Some job), w') ∧
       job_audio job = a ∧
       audio_entries (storage w') !! audio_key sid = Some a) ∧
  (truthy provided = false → id s ≠ "" →
     ∀ c, audio_entries (storage w) !! audio_key (id s) = Some c → c ≠ "" →
     ensureAudioForSession env s provided mime w =
       (inr (Some c, or_str (audio_mime_type s) "audio/webm"), w)) ∧
  (truthy provided = false → cache_miss w (id s) →
     ∀ u, user_id s = Some u → u ≠ "" → id s ≠ "" →
     match remote_audio env u (id s) with
     | Some d =>
         ∃ w',
           ensureAudioForSession env s provided mime w =
             (inr (a_audio_base64 d, or_str (a_mime_type d) "audio/webm"), w') ∧
           truthy (a_audio_base64 d) = true ∧
           audio_entries (storage w') !! audio_key (id s) = a_audio_base64 d ∧
           (∀ k, k ≠ audio_key (id s) →
              audio_entries (storage w') !! k = audio_entries (storage w) !! k) ∧
           ((∀ y, y ∈ sessions (storage w) → id y ≠ id s) →
              sessions (storage w') = sessions (storage w)) ∧
           ∀ i s0, first_with_id (id s) (sessions (storage w)) i s0 →
             sessions (storage w') =
               <[i := marked_with_audio (or_str (a_mime_type d) "audio/webm") s0]>
                 (sessions (storage w)) ∧
             ∃ s1, sessions (storage w') !! i = Some s1 ∧ has_audio s1 = true ∧
                   id s1 = id s0 ∧ status s1 = status s0 ∧
                   session_report s1 = session_report s0
     | None =>
         ensureAudioForSession env s provided mime w =
           (inr (None, or_str mime (or_str (audio_mime_type s) "audio/webm")), w)
     end) ∧
  (truthy provided = false → cache_miss w (id s) →
     truthy (user_id s) = false ∨ id s = "" →
     ensureAudioForSession env s provided mime w =
       (inr (None, or_str mime (or_str (audio_mime_type s) "audio/webm")), w)).
Proof.
  split; [apply ensureAudio_inline|].
  split.
  { intros payload sid a i s0 H1 H2 H3 H4 H5%first_with_id_findIndex.
    destruct (begin_with_inline env payload sid a w i s0 H1 H2 H3 H4 H5)
      as (job & w' & Hb & _ & Hj & Hc & _). eauto. }
  split.
  { intros Hp Hid c Hc Hne. apply ensureAudio_cached; [done|]. by apply load_cached. }
  assert (Hnone : ∀ p, truthy p = false →
            ensureAudioForSession env s p mime w = ensureAudioForSession env s None mime w).
  { intros p Hp. unfold ensureAudioForSession. by rewrite Hp. }
  split.
  - intros Hp Hmiss%load_missed u Hu Hune Hsid.
    destruct (remote_audio env u (id s)) as [d|] eqn:Hremote.
    + assert (Htruthy : truthy (a_audio_base64 d) = true).
      { unfold remote_audio in Hremote.
        destruct (audio_endpoint env u (id s)) as [|[] ? [d'|]]; try done.
        destruct (truthy (a_audio_base64 d')) eqn:Ht; [|done]. congruence. }
      destruct (a_audio_base64 d) as [a|] eqn:Ha; [|done].
      destruct (ensureAudio_remote_run env s provided mime u a d w Hp Hmiss Hu Hune Hsid
                  Hremote Ha) as [Hne Hrun].
      eexists. split; [exact Hrun|]. split; [done|]. simpl.
      split; [apply lookup_insert_eq|].
      split; [intros k Hk; by apply lookup_insert_ne|].
      split.
      * intros Hnew.
        destruct (findIndex (id s) (sessions (storage w))) as [[i s0]|] eqn:Hfind; [|done].
        apply findIndex_Some in Hfind as (Hi & Hid & _).
        exfalso. apply (Hnew s0); [by eapply list_elem_of_lookup_2|done].
      * intros i s0 Hfirst. pose proof Hfirst as (Hi & _).
        apply first_with_id_findIndex in Hfirst. rewrite Hfirst.
        split; [done|].
        eexists. split; [apply list_lookup_insert_eq; by eapply lookup_lt_Some|done].
    + rewrite (Hnone _ Hp). apply ensureAudio_unavailable; [by rewrite Hmiss|].
      intros w0. rewrite Hu.
      destruct (fetch_remote_audio env u (id s) w0 Hune Hsid) as (r & -> & Hr).
      rewrite Hremote in Hr. simpl in *.
      destruct r as [d|]; [right|by left].
      exists d. split; [done|]. simpl in Hr. by destruct (truthy (a_audio_base64 d)).
  - intros Hp Hmiss%load_missed Hmissing. rewrite (Hnone _ Hp).
    apply ensureAudio_unavailable; [by rewrite Hmiss|].
    intros w0. left. unfold fetchSessionAudioFromBackend. unfold_m.
    destruct (user_id s) as [u|]; [|done].
    destruct Hmissing as [Hu|Hs].
    + simpl in Hu. by rewrite Hu.
    + rewrite Hs. rewrite (bool_decide_false ("" ≠ "")) by (intros H; by apply H).
      by rewrite andb_false_r.
Qed.

Lemma audio_resolution_order_witness :
  ensureAudioForSession silent_env (sample_session "s1" done (Some "R"))
    (Some "QUJD") None initial_world =
    (inr (Some "QUJD", "audio/webm"), initial_world) ∧
  audio_entries (storage waiting_world) !! audio_key "session-1" = Some "QUJD" ∧
  ensureAudioForSession silent_env waiting_session None None waiting_world =
    (inr (Some "QUJD", "audio/webm"), waiting_world) ∧
  sessions (storage lost_audio_world) = [lost_audio_session] ∧
  audio_entries (storage lost_audio_world) !! audio_key "session-1" = None ∧
  (∃ w', ensureAudioForSession serving_env lost_audio_session None None lost_audio_world =
           (inr (Some "QUJD", "audio/ogg"), w') ∧
         audio_entries (storage w') !! audio_key "session-1" = Some "QUJD" ∧
         sessions (storage w') = [marked_with_audio "audio/ogg" lost_audio_session]) ∧
  ensureAudioForSession silent_env lost_audio_session None None lost_audio_world =
    (inr (None, "audio/webm"), lost_audio_world).
Proof.
  split.
  { apply (proj1 (audio_resolution_order silent_env (sample_session "s1" done (Some "R"))
                    (Some "QUJD") None initial_world)).
    reflexivity. }
  split; [vm_compute; reflexivity|].
  split.
  { destruct (audio_resolution_order silent_env waiting_session None None waiting_world)
      as (_ & _ & H & _).
    apply (H eq_refl ltac:(simpl; congruence) "QUJD"); [vm_compute; reflexivity|congruence]. }
  split; [vm_compute; reflexivity|].
  split; [vm_compute; reflexivity|].
  split.
  { destruct (audio_resolution_order serving_env lost_audio_session None None
                lost_audio_world) as (_ & _ & _ & H & _).
    assert (Hmiss : cache_miss lost_audio_world (id lost_audio_session))
      by (right; left; vm_compute; reflexivity).
    specialize (H eq_refl Hmiss "profile-1" eq_refl ltac:(congruence)
                  ltac:(simpl; congruence)).
    destruct H as (w' & H1 & _ & H2 & _ & _ & H3).
    destruct (H3 0 lost_audio_session) as (H4 & _).
    { split; [vm_compute; reflexivity|]. split; [reflexivity|]. intros j y _ Hj. lia. }
    exists w'. split; [exact H1|]. split; [exact H2|].
    rewrite H4. vm_compute. reflexivity. }
  destruct (audio_resolution_order silent_env lost_audio_session None None
              lost_audio_world) as (_ & _ & _ & H & _).
  assert (Hmiss : cache_miss lost_audio_world (id lost_audio_session))
    by (right; left; vm_compute; reflexivity).
  exact (H eq_refl Hmiss "profile-1" eq_refl ltac:(congruence) ltac:(simpl; congruence)).
Defined.

(** ** Legacy migration (C7) *)

Lemma persist_ok (sid : string) (audio : option string) (w : World) :
  (persistSessionAudioBlob sid audio w).1 = inr tt.
Proof.
  unfold persistSessionAudioBlob. destruct audio; [|done]. by destruct (_ && _).
Qed.

Lemma migrate_loop_run (l : list Session) (m : bool) (w : World) :
  Popup.migrate_loop l m w =
    (inr (migrate_record <$> l, m || existsb (λ s, truthy (audio_base64 s)) l),
     migrate_world l w).
Proof.
  revert m w. induction l as [|s l IH]; intros m w; simpl.
  - by rewrite orb_false_r.
  - unfold migrate_record at 1. destruct (truthy (audio_base64 s)) eqn:Ht.
    + rewrite bind_run. pose proof (persist_ok (id s) (audio_base64 s) w) as Hp.
      destruct (persistSessionAudioBlob (id s) (audio_base64 s) w) as [r w1].
      simpl in Hp. subst r. rewrite bind_run, IH. simpl. by rewrite orb_true_r.
    + rewrite bind_run, IH. done.
Qed.

Lemma migrate_world_frame (l : list Session) (w : World) :
  sessions (storage (migrate_world l w)) = sessions (storage w) ∧
  activeSessionId (storage (migrate_world l w)) = activeSessionId (storage w) ∧
  userProfile (storage (migrate_world l w)) = userProfile (storage w) ∧
  popup (migrate_world l w) = popup w ∧
  effects (migrate_world l w) = effects w ∧
  in_flight (migrate_world l w) = in_flight w.
Proof.
  revert w. induction l as [|s l IH]; intros w; simpl; [done|].
  destruct (IH (if truthy (audio_base64 s)
                then (persistSessionAudioBlob (id s) (audio_base64 s) w).2 else w))
    as (-> & -> & -> & -> & -> & ->).
  destruct (truthy (audio_base64 s)); [|done].
  unfold persistSessionAudioBlob. destruct (audio_base64 s); [|done].
  by destruct (_ && _).
Qed.

Lemma migrate_world_clean (l : list Session) (w : World) :
  existsb (λ s, truthy (audio_base64 s)) l = false → migrate_world l w = w.
Proof.
  revert w. induction l as [|s l IH]; intros w; simpl; [done|].
  intros [Hs Hl]%orb_false_elim. rewrite Hs. by apply IH.
Qed.

Lemma migrate_record_clean (l : list Session) :
  existsb (λ s, truthy (audio_base64 s)) l = false → migrate_record <$> l = l.
Proof.
  induction l as [|s l IH]; simpl; [done|].
  intros [Hs Hl]%orb_false_elim. unfold migrate_record at 1.
  rewrite Hs. f_equal. by apply IH.
Qed.

Lemma migrated_clean (l : list Session) :
  existsb (λ s, truthy (audio_base64 s)) (migrate_record <$> l) = false.
Proof.
  induction l as [|s l IH]; [done|]. rewrite fmap_cons. cbn [existsb].
  rewrite IH, orb_false_r.
  unfold migrate_record. by destruct (truthy (audio_base64 s)) eqn:Ht.
Qed.

Lemma migrate_world_other (l : list Session) (w : World) (k : string) :
  k ∉ audio_key <$> (id <$> l) →
  audio_entries (storage (migrate_world l w)) !! k = audio_entries (storage w) !! k.
Proof.
  revert w. induction l as [|s l IH]; intros w Hk; simpl; [done|].
  rewrite !fmap_cons in Hk. apply not_elem_of_cons in Hk as [Hne Hk].
  rewrite IH by done. destruct (truthy (audio_base64 s)); [|done].
  unfold persistSessionAudioBlob. destruct (audio_base64 s); [|done].
  destruct (_ && _); [|done]. simpl. by rewrite lookup_insert_ne.
Qed.

Lemma audio_key_inj (a b : string) : audio_key a = audio_key b → a = b.
Proof. unfold audio_key. apply (inj (String.app AUDIO_STORAGE_PREFIX)). Qed.

Lemma migrate_world_lookup (l : list Session) (w : World) (s : Session) :
  NoDup (id <$> l) → s ∈ l → truthy (audio_base64 s) = true → id s ≠ "" →
  audio_entries (storage (migrate_world l w)) !! audio_key (id s) = audio_base64 s.
Proof.
  revert w. induction l as [|x l IH]; intros w Hnd Hs Ht Hid; [by apply elem_of_nil in Hs|].
  rewrite fmap_cons in Hnd. apply NoDup_cons in Hnd as [Hx Hnd].
  apply elem_of_cons in Hs as [->|Hs]; simpl.
  - rewrite Ht. rewrite migrate_world_other.
    + unfold persistSessionAudioBlob. destruct (audio_base64 x) as [a|]; [|done].
      simpl in Ht. rewrite Ht, bool_decide_true by done. simpl.
      by rewrite lookup_insert_eq.
    + intros Hin. apply list_elem_of_fmap in Hin as (y & Hy%audio_key_inj & Hin).
      by subst y.
  - by apply IH.
Qed.

Lemma migrate_done_noop (l : list Session) (w : World) :
  legacyAudioMigrationDone (popup w) = true →
  Popup.migrateLegacySessionAudio l w = (inr l, w).
Proof. intros H. unfold Popup.migrateLegacySessionAudio. unfold_m. by rewrite H. Qed.

Lemma migrate_fresh_run (l : list Session) (w : World) :
  legacyAudioMigrationDone (popup w) = false →
  Popup.migrateLegacySessionAudio l w =
    (inr (migrate_record <$> l),
     set_popup (Popup.with_migrationDone true)
       (if existsb (λ s, truthy (audio_base64 s)) l
        then set_storage (set_sessions (migrate_record <$> l)) (migrate_world l w)
        else migrate_world l w)).
Proof.
  intros H. unfold Popup.migrateLegacySessionAudio.
  rewrite bind_run. unfold gets at 1. rewrite H. rewrite bind_run, migrate_loop_run.
  simpl. by destruct (existsb _ l).
Qed.

Lemma migration_pass_fresh (w : World) :
  legacyAudioMigrationDone (popup w) = false →
  sessions (storage (migration_pass w)) = migrate_record <$> sessions (storage w) ∧
  audio_entries (storage (migration_pass w)) =
    audio_entries (storage (migrate_world (sessions (storage w)) w)) ∧
  activeSessionId (storage (migration_pass w)) = activeSessionId (storage w) ∧
  legacyAudioMigrationDone (popup (migration_pass w)) = true.
Proof.
  intros H. unfold migration_pass. rewrite (migrate_fresh_run _ _ H). simpl.
  destruct (migrate_world_frame (sessions (storage w)) w) as (Hs & Ha & _).
  destruct (existsb _ (sessions (storage w))) eqn:Hex; simpl.
  - done.
  - rewrite migrate_record_clean by done. done.
Qed.

Lemma migrate_world_payload (l : list Session) (w : World) (s : Session) :
  s ∈ l → truthy (audio_base64 s) = true → id s ≠ "" →
  ∃ s2, s2 ∈ l ∧ id s2 = id s ∧ truthy (audio_base64 s2) = true ∧
        audio_entries (storage (migrate_world l w)) !! audio_key (id s) = audio_base64 s2.
Proof.
  revert w s. induction l as [|x l IH]; intros w s Hs Ht Hid; [by apply elem_of_nil in Hs|].
  simpl.
  destruct (decide (Exists (λ y, id y = id s ∧ truthy (audio_base64 y) = true) l))
    as [(y & Hy & Hidy & Hty)%Exists_exists|Hlater].
  - rewrite <- Hidy in Hid |- *.
    destruct (IH (if truthy (audio_base64 x)
                  then (persistSessionAudioBlob (id x) (audio_base64 x) w).2 else w)
                y Hy Hty Hid) as (s2 & Hs2 & Hid2 & Ht2 & Hc).
    exists s2. split; [by right|]. split; [congruence|]. by split.
  - apply elem_of_cons in Hs as [->|Hs];
      [|exfalso; apply Hlater, Exists_exists; by exists s].
    exists x. split; [by left|]. split; [done|]. split; [done|].
    rewrite Ht.
    assert (Hkeep : ∀ l' w',
              (∀ y, y ∈ l' → ¬ (id y = id x ∧ truthy (audio_base64 y) = true)) →
              audio_entries (storage (migrate_world l' w')) !! audio_key (id x) =
                audio_entries (storage w') !! audio_key (id x)).
    { clear. induction l' as [|y l' IH]; intros w' Hno; [done|]. simpl.
      rewrite IH by (intros z Hz; apply Hno; by right).
      destruct (truthy (audio_base64 y)) eqn:Hty; [|done].
      unfold persistSessionAudioBlob. destruct (audio_base64 y) as [a|] eqn:Hay; [|done].
      destruct (_ && _); [|done]. simpl.
      apply lookup_insert_ne. intros Hk%audio_key_inj.
      apply (Hno y); [by left|]. split; [done|]. by rewrite Hay. }
    rewrite Hkeep by (intros y Hy [H1 H2]; apply Hlater, Exists_exists; by exists y).
    unfold persistSessionAudioBlob. destruct (audio_base64 x) as [a|]; [|done].
    simpl in Ht. rewrite Ht, bool_decide_true by done. simpl.
    by rewrite lookup_insert_eq.
Qed.

(** C7: the migration pass is idempotent.  In a process that has not yet
    migrated, one pass rewrites each record carrying inline audio: its
    inline field is cleared ([audio_base64] null) and [has_audio] is
    true, its other fields are kept; records without inline audio are
    left as they are, so afterwards no record carries inline audio; and
    the process flag is set.  The payload goes to the audio entries:
    under the key of a non-empty id stands the payload of a record with
    that id, the record's own when the stored ids are distinct.  From
    then on a pass in the same process is the identity, whatever array
    it is given; and a pass in any other process (the flag reset) over
    the migrated store leaves the stored collection and the audio entries
    exactly as the first pass left them. *)
Theorem migration_idempotent (w : World) :
  (legacyAudioMigrationDone (popup w) = false →
     sessions (storage (migration_pass w)) = migrate_record <$> sessions (storage w)) ∧
  legacyAudioMigrationDone (popup (migration_pass w)) = true ∧
  (∀ l, Popup.migrateLegacySessionAudio l (migration_pass w) = (inr l, migration_pass w)) ∧
  migration_pass (migration_pass w) = migration_pass w ∧
  (legacyAudioMigrationDone (popup w) = false →
     ∀ p, storage (migration_pass (set_popup (λ _, p) (migration_pass w))) =
          storage (migration_pass w)) ∧
  (legacyAudioMigrationDone (popup w) = false →
     NoDup (id <$> sessions (storage w)) →
     ∀ s, s ∈ sessions (storage w) → truthy (audio_base64 s) = true → id s ≠ "" →
       audio_entries (storage (migration_pass w)) !! audio_key (id s) = audio_base64 s) ∧
  (legacyAudioMigrationDone (popup w) = false →
     length (sessions (storage (migration_pass w))) = length (sessions (storage w)) ∧
     (∀ i s, sessions (storage w) !! i = Some s →
        ∃ s', sessions (storage (migration_pass w)) !! i = Some s' ∧
              id s' = id s ∧ title s' = title s ∧ created_at s' = created_at s ∧
              status s' = status s ∧ session_report s' = session_report s ∧
              user_id s' = user_id s ∧ user_name s' = user_name s ∧
              audio_mime_type s' = audio_mime_type s ∧
              (truthy (audio_base64 s) = true →
                 audio_base64 s' = None ∧ has_audio s' = true) ∧
              (truthy (audio_base64 s) = false → s' = s)) ∧
     (∀ s', s' ∈ sessions (storage (migration_pass w)) →
        truthy (audio_base64 s') = false) ∧
     (∀ s, s ∈ sessions (storage w) → truthy (audio_base64 s) = true → id s ≠ "" →
        ∃ s2, s2 ∈ sessions (storage w) ∧ id s2 = id s ∧
              truthy (audio_base64 s2) = true ∧
              audio_entries (storage (migration_pass w)) !! audio_key (id s) =
                audio_base64 s2) ∧
     activeSessionId (storage (migration_pass w)) = activeSessionId (storage w)).
Proof.
  assert (Hflag : legacyAudioMigrationDone (popup (migration_pass w)) = true).
  { destruct (legacyAudioMigrationDone (popup w)) eqn:H.
    - unfold migration_pass. by rewrite migrate_done_noop.
    - by apply migration_pass_fresh. }
  split; [intros H; by apply migration_pass_fresh|].
  split; [done|].
  split; [intros l; by apply migrate_done_noop|].
  split; [unfold migration_pass at 1; by rewrite migrate_done_noop|].
  split.
  { intros H p. destruct (migration_pass_fresh w H) as (Hs & _).
    set (w1 := migration_pass w) in *.
    destruct (legacyAudioMigrationDone p) eqn:Hp.
    + unfold migration_pass at 1. by rewrite migrate_done_noop.
    + unfold migration_pass at 1. rewrite migrate_fresh_run by done.
      simpl. rewrite Hs, migrated_clean. simpl.
      rewrite migrate_world_clean by apply migrated_clean. done. }
  split.
  { intros H Hnd s Hs Ht Hid.
    destruct (migration_pass_fresh w H) as (_ & -> & _).
    by apply migrate_world_lookup. }
  intros H. destruct (migration_pass_fresh w H) as (Hs & Ha & Hact & _).
  split; [by rewrite Hs, length_fmap|].
  split.
  { intros i s Hi. exists (migrate_record s).
    split; [by rewrite Hs, list_lookup_fmap, Hi|].
    unfold migrate_record. destruct (truthy (audio_base64 s)) eqn:Ht; simpl.
    - repeat split; done.
    - repeat split; done. }
  split.
  { intros s' Hin. rewrite Hs in Hin.
    apply list_elem_of_fmap in Hin as (s & -> & _).
    unfold migrate_record. by destruct (truthy (audio_base64 s)) eqn:Ht. }
  split; [|done].
  intros s Hin Ht Hid. rewrite Ha. by apply migrate_world_payload.
Qed.

Lemma migration_idempotent_witness :
  sessions (storage (migration_pass legacy_world)) =
    [{| id := "old-1"; title := Some "Session"; created_at := "2023-06-01T10:00:00.000Z";
        status := done; session_report := Some "## Summary";
        audio_base64 := None; user_id := Some "profile-1";
        user_name := Some "User-2023"; has_audio := true;
        audio_mime_type := Some "audio/webm" |}] ∧
  migration_pass (migration_pass legacy_world) = migration_pass legacy_world ∧
  storage (migration_pass (set_popup (λ _, initial_popup) (migration_pass legacy_world))) =
    storage (migration_pass legacy_world) ∧
  audio_entries (storage (migration_pass legacy_world)) !! audio_key "old-1" = Some "QUJD" ∧
  ∃ s', sessions (storage (migration_pass legacy_world)) !! 0 = Some s' ∧
        audio_base64 s' = None ∧ has_audio s' = true.
Proof.
  destruct (migration_idempotent legacy_world) as (H1 & _ & _ & H2 & H3 & H4 & H5).
  split; [exact (H1 eq_refl)|]. split; [exact H2|]. split; [exact (H3 eq_refl initial_popup)|].
  assert (Hnd : NoDup (id <$> sessions (storage legacy_world)))
    by (simpl; apply NoDup_singleton).
  assert (Hin : legacy_session ∈ sessions (storage legacy_world)) by (simpl; by left).
  assert (Hid : id legacy_session ≠ "") by (simpl; congruence).
  split; [exact (H4 eq_refl Hnd legacy_session Hin eq_refl Hid)|].
  destruct (H5 eq_refl) as (_ & H6 & _).
  destruct (H6 0 legacy_session eq_refl) as (s' & Hs' & _ & _ & _ & _ & _ & _ & _ & _ & H7 & _).
  destruct (H7 eq_refl) as [H8 H9].
  exists s'. by repeat split.
Defined.

(** ** Capture without any audio track (C9) *)

Lemma stop_tracks_run (s : option MediaStream) (w : World) :
  Popup.stop_tracks s w = (inr tt, logged (TrackStopped <$> default [] s) w).
Proof.
  unfold Popup.stop_tracks. rewrite bind_run.
  assert (H : ∀ l w, ∃ r, mapM (λ t, emit (TrackStopped t)) l w =
                          (inr r, logged (TrackStopped <$> l) w)).
  { clear. induction l as [|t l IH]; intros w.
    - exists []. destruct w. unfold logged. simpl. by rewrite app_nil_r.
    - simpl. rewrite bind_run. unfold emit at 1, modify at 1.
      rewrite bind_run.
      destruct (IH {| storage := storage w;
                      autoOpenedReportSessions := autoOpenedReportSessions w;
                      in_flight := in_flight w; popup := popup w;
                      effects := effects w ++ [TrackStopped t] |}) as (r & ->).
      eexists. unfold logged. simpl. by rewrite <- app_assoc. }
  destruct (H (default [] s) w) as (r & ->). done.
Qed.

Lemma refreshSessions_frame (w : World) :
  ∃ w', Popup.refreshSessions w = (inr tt, w') ∧
        effects w' = effects w ∧ in_flight w' = in_flight w ∧
        recorder (popup w') = recorder (popup w) ∧
        isRecording (popup w') = truthy (activeSessionId (storage w)) ∧
        activeSessionId (storage w') = activeSessionId (storage w) ∧
        length (sessions (storage w')) = length (sessions (storage w)).
Proof.
  unfold Popup.refreshSessions. rewrite bind_run. unfold gets at 1. rewrite bind_run.
  destruct (legacyAudioMigrationDone (popup w)) eqn:H.
  - rewrite migrate_done_noop by done. eexists. split; [reflexivity|]. done.
  - rewrite migrate_fresh_run by done. eexists. split; [reflexivity|]. simpl.
    destruct (migrate_world_frame (sessions (storage w)) w)
      as (Hs & Ha & _ & Hp & He & Hf).
    destruct (existsb _ (sessions (storage w))); simpl;
      rewrite ?Hs, ?Ha, ?Hp, ?He, ?Hf, ?length_fmap; repeat split; done.
Qed.

(** C9: a press of the record button in the start state, where the
    display stream is acquired without audio tracks and the microphone is
    refused or yields no audio track.  The handler returns normally and
    the effects it adds are, in this order: the start command with its
    badge, the alert naming the missing audio source, the stop of every
    track of the display stream and of the microphone stream, and the stop
    command with its badge.  When the alert is raised the new session is
    still [recording] (it is the last record after the start command);
    the recorder is never started, no job is put in flight, no
    [PROCESS_SESSION_AUDIO] message is added to the log, and the active
    pointer ends cleared. *)
Theorem no_audio_capture_aborts
    (env : Env) (dev : Devices) (w : World) (display : MediaStream) :
  isRecording (popup w) = false →
  uuid_session env ≠ "" →
  getDisplayMedia dev = inr display →
  getAudioTracks display = [] →
  getAudioTracks (acquired (getUserMedia dev)) = [] →
  let after_start := (Popup.send env START_RECORDING w).2 in
  let result := Popup.recordBtn_click env dev w in
  result.1 = inr tt ∧
  (∃ s, last (sessions (storage after_start)) = Some s ∧
        id s = uuid_session env ∧ status s = recording) ∧
  effects result.2 =
    effects w ++
      [Sent START_RECORDING; BadgeText "●"; BadgeColor "#ef4444";
       Alerted Popup.NO_AUDIO_SOURCE] ++
      (TrackStopped <$> display) ++
      (TrackStopped <$> acquired (getUserMedia dev)) ++
      [Sent STOP_RECORDING; BadgeText ""] ∧
  (∀ p, Sent (PROCESS_SESSION_AUDIO p) ∈ effects result.2 →
        Sent (PROCESS_SESSION_AUDIO p) ∈ effects w) ∧
  (RecorderStarted ∈ effects result.2 → RecorderStarted ∈ effects w) ∧
  recorder (popup result.2) = recorder (popup w) ∧
  in_flight result.2 = in_flight w ∧
  activeSessionId (storage result.2) = None.
Proof.
  intros Hrec Huuid Hdisplay Hda Hma after_start result.
  assert (Heff : ∃ w', result = (inr tt, w') ∧
    effects w' =
      effects w ++
        [Sent START_RECORDING; BadgeText "●"; BadgeColor "#ef4444";
         Alerted Popup.NO_AUDIO_SOURCE] ++
        (TrackStopped <$> display) ++
        (TrackStopped <$> acquired (getUserMedia dev)) ++
        [Sent STOP_RECORDING; BadgeText ""] ∧
    recorder (popup w') = recorder (popup w) ∧
    in_flight w' = in_flight w ∧
    activeSessionId (storage w') = None).
  { subst result. unfold Popup.recordBtn_click.
    rewrite bind_run. unfold gets at 1. rewrite Hrec.
    rewrite try_catch_run, bind_run.
    unfold Popup.send at 1. rewrite bind_run. unfold emit at 1, modify at 1.
    destruct (start_run env
                {| storage := storage w;
                   autoOpenedReportSessions := autoOpenedReportSessions w;
                   in_flight := in_flight w; popup := popup w;
                   effects := effects w ++ [Sent START_RECORDING] |}) as (p & u & ->).
    simpl. rewrite (bool_decide_true (uuid_session env ≠ "")) by done. simpl.
    rewrite Hdisplay.
    repeat (rewrite bind_run; cbv [modify gets mret M_ret ret]).
    rewrite Hda.
    destruct (getUserMedia dev) as [e|mic] eqn:Hmic; simpl in Hma; simpl;
      rewrite ?Hma; simpl;
      unfold Popup.alert; rewrite bind_run; unfold emit at 1, modify at 1;
      rewrite bind_run, stop_tracks_run, bind_run, stop_tracks_run;
      rewrite bind_run; unfold Popup.send; rewrite bind_run;
      unfold emit at 1, modify at 1;
      (erewrite stop_with_active by (simpl; done));
      match goal with
      | |- context [Popup.refreshSessions ?w0] =>
          destruct (refreshSessions_frame w0) as (w' & -> & He & Hf & Hr & _ & Ha & _)
      end;
      exists w'; (split; [done|]); rewrite He, Hf, Hr, Ha; unfold stopped; simpl;
      destruct (findIndex _ _) as [[i s]|]; simpl; rewrite <- ?app_assoc; simpl;
      rewrite ?app_nil_r; done. }
  destruct Heff as (w' & Hres & He & Hr & Hf & Ha). rewrite Hres. simpl.
  split; [done|]. split.
  { subst after_start. unfold Popup.send. rewrite bind_run.
    unfold emit at 1, modify at 1.
    match goal with
    | |- context [onMessage env START_RECORDING ?w0] =>
        destruct (start_run env w0) as (p & u & ->)
    end.
    simpl. exists (newSessionMeta env p). by rewrite last_snoc. }
  split; [done|].
  assert (Hnew : ∀ e, e ∈ effects w' → e ∈ effects w ∨
            e ∈ [Sent START_RECORDING; BadgeText "●"; BadgeColor "#ef4444";
                 Alerted Popup.NO_AUDIO_SOURCE] ∨
            (∃ t, e = TrackStopped t) ∨
            e ∈ [Sent STOP_RECORDING; BadgeText ""]).
  { intros e. rewrite He. rewrite !elem_of_app, !list_elem_of_fmap.
    intros [?|[?|[(t & -> & _)|[(t & -> & _)|?]]]]; eauto 10. }
  repeat split; try done.
  - intros p Hp. destruct (Hnew _ Hp) as [?|[H|[(t & H)|H]]]; [done| |done|].
    + repeat (apply elem_of_cons in H as [H|H]; [discriminate H|]).
      by apply elem_of_nil in H.
    + repeat (apply elem_of_cons in H as [H|H]; [discriminate H|]).
      by apply elem_of_nil in H.
  - intros Hp. destruct (Hnew _ Hp) as [?|[H|[(t & H)|H]]]; [done| |done|].
    + repeat (apply elem_of_cons in H as [H|H]; [discriminate H|]).
      by apply elem_of_nil in H.
    + repeat (apply elem_of_cons in H as [H|H]; [discriminate H|]).
      by apply elem_of_nil in H.
Qed.

Lemma no_audio_capture_aborts_witness :
  (Popup.recordBtn_click silent_env silent_devices initial_world).1 = inr tt ∧
  effects (Popup.recordBtn_click silent_env silent_devices initial_world).2 =
    [Sent START_RECORDING; BadgeText "●"; BadgeColor "#ef4444";
     Alerted Popup.NO_AUDIO_SOURCE;
     TrackStopped {| track_kind := VideoTrack; track_label := "screen" |};
     Sent STOP_RECORDING; BadgeText ""] ∧
  in_flight (Popup.recordBtn_click silent_env silent_devices initial_world).2 = [].
Proof.
  destruct (no_audio_capture_aborts silent_env silent_devices initial_world
              [{| track_kind := VideoTrack; track_label := "screen" |}])
    as (H1 & _ & H2 & _ & _ & _ & H3 & _).
  - reflexivity.
  - simpl. congruence.
  - reflexivity.
  - reflexivity.
  - reflexivity.
  - split; [exact H1|]. split; [exact H2|exact H3].
Defined.

(** * Further properties of the code *)

(** ** Malformed messages *)

(** X1: a message without a usable session id, or with an action the
    listener does not know, is answered with an error and changes
    nothing: [PROCESS_SESSION_AUDIO], [OFFSCREEN_ANALYSIS_COMPLETE] and
    [SESSION_REPORT_READY] whose [sessionId] is missing or empty get
    "Missing sessionId.", any other action gets "Unknown action.". *)
Theorem malformed_message_rejected (env : Env) (w : World) :
  (∀ p, truthy (p ≫= sessionId) = false →
     onMessage env (PROCESS_SESSION_AUDIO p) w =
       (inr (RespError "Missing sessionId."), w)) ∧
  (∀ sid r e, truthy sid = false →
     onMessage env (OFFSCREEN_ANALYSIS_COMPLETE sid r e) w =
       (inr (RespError "Missing sessionId."), w)) ∧
  (∀ p, truthy (p ≫= rr_sessionId) = false →
     onMessage env (SESSION_REPORT_READY p) w =
       (inr (RespError "Missing sessionId."), w)) ∧
  (∀ a, onMessage env (OTHER_ACTION a) w = (inr (RespError "Unknown action."), w)).
Proof.
  split; [|split; [|split; [|done]]].
  - intros p Hp. unfold onMessage, onPROCESS_SESSION_AUDIO.
    rewrite try_catch_run. by rewrite Hp.
  - intros sid r e Hs. unfold onMessage, onOFFSCREEN_ANALYSIS_COMPLETE.
    rewrite try_catch_run. destruct sid as [s|]; [|done]. simpl in Hs. by rewrite Hs.
  - intros p Hp. unfold onMessage, onSESSION_REPORT_READY.
    rewrite try_catch_run. destruct p as [p|]; [|done]. simpl in Hp.
    destruct (rr_sessionId p) as [s|]; [|done]. simpl in Hp. by rewrite Hp.
Qed.

Lemma malformed_message_rejected_witness :
  onMessage silent_env
    (PROCESS_SESSION_AUDIO
       (Some {| sessionId := Some ""; audioBase64 := Some "QUJD"; mimeType := None;
                isRegeneration := false |})) waiting_world =
    (inr (RespError "Missing sessionId."), waiting_world).
Proof.
  apply (proj1 (malformed_message_rejected silent_env waiting_world)). reflexivity.
Defined.

(** ** Completion events delivered twice *)

Lemma patched_idemp (s : Session) (p : Patch) : patched (patched s p) p = patched s p.
Proof.
  unfold patched, merge, with_has_audio.
  destruct p as [ps pt pr pa ph pm]; simpl.
  destruct pa, ps, pt, pr, ph, pm; simpl; reflexivity.
Qed.

Lemma audio_after_idemp (sid : string) (p : Patch) (m : gmap string string) :
  audio_after sid p (audio_after sid p m) = audio_after sid p m.
Proof.
  unfold audio_after. destruct (p_audio_base64 p) as [[a|]|]; [| |done];
    repeat case_bool_decide; try done;
    by rewrite ?insert_insert_eq, ?delete_delete_eq.
Qed.

Lemma updateSession_ok (sid : string) (p : Patch) (w : World) :
  (updateSession sid p w).1 = inr tt.
Proof.
  destruct (findIndex sid (sessions (storage w))) as [[i s]|] eqn:Hfind.
  - by rewrite (updateSession_found _ _ _ _ _ Hfind).
  - apply findIndex_None in Hfind. by rewrite (updateSession_unknown _ _ _ Hfind).
Qed.

Lemma updateSession_idemp (sid : string) (p : Patch) (w : World) :
  updateSession sid p (updateSession sid p w).2 = updateSession sid p w.
Proof.
  destruct (findIndex sid (sessions (storage w))) as [[i s]|] eqn:Hfind.
  - rewrite (updateSession_found _ _ _ _ _ Hfind).
    pose proof (findIndex_write_session _ _ _ _ p Hfind) as Hfind'.
    erewrite updateSession_found by (simpl; exact Hfind').
    unfold write_session, set_storage, set_sessions, set_audio_entries. simpl.
    by rewrite list_insert_insert_eq, patched_idemp, audio_after_idemp.
  - apply findIndex_None in Hfind. rewrite (updateSession_unknown _ _ _ Hfind).
    by rewrite (updateSession_unknown _ _ _ Hfind).
Qed.

Lemma openReportTab_ok (sid : option string) (w : World) :
  (openReportTab sid w).1 = inr tt.
Proof.
  unfold openReportTab. unfold_m. destruct sid as [s|]; [|done].
  by destruct (_ && _).
Qed.

Lemma openReportTab_idemp (sid : option string) (w : World) :
  openReportTab sid (openReportTab sid w).2 = openReportTab sid w.
Proof.
  unfold openReportTab. unfold_m. destruct sid as [s|]; [|done]. simpl.
  destruct (bool_decide (s ≠ "")) eqn:Hs; simpl; [|done].
  destruct (bool_decide (s ∈ autoOpenedReportSessions w)) eqn:Hin; simpl.
  - by rewrite Hin.
  - unfold modify. simpl. rewrite bool_decide_true by set_solver. done.
Qed.

Lemma openReportTab_storage (sid : option string) (w : World) :
  storage (openReportTab sid w).2 = storage w.
Proof.
  unfold openReportTab. unfold_m. destruct sid as [s|]; [|done].
  by destruct (_ && _).
Qed.

Lemma updateSession_settled (sid : string) (p : Patch) (w w' : World) :
  storage w' = storage (updateSession sid p w).2 →
  updateSession sid p w' = (inr tt, w').
Proof.
  intros Hst.
  destruct (findIndex sid (sessions (storage w))) as [[i s]|] eqn:Hfind.
  - rewrite (updateSession_found _ _ _ _ _ Hfind) in Hst.
    pose proof (findIndex_write_session _ _ _ _ p Hfind) as Hfind'.
    destruct w' as [st ao fl pp ef]. simpl in Hst. subst st.
    erewrite updateSession_found by (simpl; exact Hfind').
    unfold write_session, set_storage, set_sessions, set_audio_entries. simpl.
    by rewrite list_insert_insert_eq, patched_idemp, audio_after_idemp.
  - apply findIndex_None in Hfind. rewrite (updateSession_unknown _ _ _ Hfind) in Hst.
    apply updateSession_unknown. by rewrite Hst.
Qed.

(** X2: delivering the same completion event a second time changes
    nothing.  For [OFFSCREEN_ANALYSIS_COMPLETE] and [SESSION_REPORT_READY]
    the second delivery gets the answer of the first and leaves the world
    the first one produced: the record is written with the same values,
    the audio entry is set or cleared to the same effect, and no second
    report tab is opened. *)
Theorem completion_redelivery (env : Env) (m : Msg) (w : World) :
  is_completion m →
  onMessage env m (onMessage env m w).2 = onMessage env m w.
Proof.
  destruct m as [| |payload|sid result error|payload|action]; try done; intros _.
  - unfold onMessage, onOFFSCREEN_ANALYSIS_COMPLETE. rewrite !try_catch_run.
    destruct sid as [s|]; [|done]. destruct (bool_decide (s ≠ "")); [|done].
    destruct (truthy error).
    + rewrite !bind_run.
      pose proof (updateSession_ok s
                    (failed_patch (ANALYSIS_ERROR_PREFIX +:+ default "" error)) w) as Hok.
      pose proof (updateSession_idemp s
                    (failed_patch (ANALYSIS_ERROR_PREFIX +:+ default "" error)) w) as Hid.
      destruct (updateSession s _ w) as [r w1]. simpl in Hok, Hid. subst r. simpl.
      rewrite ?bind_run, Hid. done.
    + set (p := result_patch result "Session Report").
      set (tab := if negb (is_error_status result) && truthy (result ≫= r_session_report)
                  then openReportTab (Some s) else mret tt).
      assert (Htab_ok : ∀ w0, (tab w0).1 = inr tt).
      { intros w0. subst tab. destruct (_ && _); [apply openReportTab_ok|done]. }
      assert (Htab_st : ∀ w0, storage (tab w0).2 = storage w0).
      { intros w0. subst tab. destruct (_ && _); [apply openReportTab_storage|done]. }
      assert (Htab_id : ∀ w0, tab (tab w0).2 = tab w0).
      { intros w0. subst tab. destruct (_ && _); [apply openReportTab_idemp|done]. }
      rewrite !bind_run.
      pose proof (updateSession_ok s p w) as Hok.
      destruct (updateSession s p w) as [r w1] eqn:Hup. simpl in Hok. subst r.
      rewrite ?bind_run. specialize (Htab_ok w1) as Hok1.
      destruct (tab w1) as [r w2] eqn:Htab. simpl in Hok1. subst r. simpl.
      rewrite ?bind_run.
      rewrite (updateSession_settled s p w w2).
      * rewrite ?bind_run. specialize (Htab_id w1). rewrite Htab in Htab_id.
        simpl in Htab_id. rewrite Htab_id. done.
      * rewrite Hup. simpl. specialize (Htab_st w1). by rewrite Htab in Htab_st.
  - unfold onMessage, onSESSION_REPORT_READY. rewrite !try_catch_run.
    destruct payload as [p|]; [|done]. destruct (rr_sessionId p) as [s|]; [|done].
    destruct (bool_decide (s ≠ "")); [|done].
    rewrite !bind_run.
    pose proof (updateSession_ok s (report_ready_patch p) w) as Hok.
    pose proof (updateSession_idemp s (report_ready_patch p) w) as Hid.
    destruct (updateSession s _ w) as [r w1]. simpl in Hok, Hid. subst r. simpl.
    rewrite ?bind_run, Hid. done.
Qed.

Lemma completion_redelivery_witness :
  let m := OFFSCREEN_ANALYSIS_COMPLETE (Some "session-1")
             (Some {| r_title := Some "T"; r_session_report := Some "## Summary";
                      r_status := Some "ok"; r_error := None |}) None in
  onMessage silent_env m (onMessage silent_env m waiting_world).2 =
    onMessage silent_env m waiting_world.
Proof. intros m. by apply completion_redelivery. Defined.

(** ** A settled analysis call with a success status *)

Lemma or_str_Some (a b : string) : a ≠ "" → or_str (Some a) b = a.
Proof. intros H. unfold or_str. by rewrite bool_decide_true. Qed.

Lemma merged_report (r e : option string) (x : string) :
  or_str (Some (or_str r (or_str e ""))) (or_str None x) = or_str r (or_str e x).
Proof.
  unfold or_str. destruct r as [r|], e as [e|];
    repeat (case_bool_decide; simpl; try congruence).
Qed.

Lemma openReportTab_run (s : string) (w : World) :
  s ≠ "" →
  openReportTab (Some s) w =
    (inr tt,
     if bool_decide (s ∈ autoOpenedReportSessions w) then w
     else logged [TabCreated s] (set_autoOpened (λ o, {[s]} ∪ o) w)).
Proof.
  intros Hs. unfold openReportTab. unfold_m. rewrite bool_decide_true by done.
  simpl. by destruct (bool_decide (s ∈ autoOpenedReportSessions w)).
Qed.

(** X3: an analysis call answered with a success status, for a stored
    session.  The job returns normally and the session ends [failed] if
    the body declares [status = "error"] and [done] otherwise; its report
    is the body's report, else its error text, else the fixed message
    (error) or the empty string; its title is the body's title, else a
    fallback.  A report tab is opened exactly when one is wanted and none
    was opened for this session since its job began; nothing else is
    logged.  An unreadable body counts as an empty one. *)
Theorem analysis_response_stored
    (env : Env) (job : Job) (w : World) (i : nat) (s : Session)
    (code : N) (body : option AnalysisResult) :
  findIndex (job_sessionId job) (sessions (storage w)) = Some (i, s) →
  job_sessionId job ≠ "" → job_audio job ≠ "" →
  offscreen_channel env = None →
  analyze_endpoint env = FetchResponse true code body →
  let data := default empty_result body in
  ∃ w' s',
    analyseSessionAudioJob env job w = (inr tt, w') ∧
    sessions (storage w') !! i = Some s' ∧
    id s' = job_sessionId job ∧
    status s' = (if bool_decide (r_status data = Some "error") then failed else done) ∧
    session_report s' = Some (analysed_report data) ∧
    title s' = Some (analysed_title env job data) ∧
    effects w' =
      effects w ++
        (if tab_wanted env data &&
            negb (bool_decide (job_sessionId job ∈ autoOpenedReportSessions w))
         then [TabCreated (job_sessionId job)] else []) ∧
    (tab_wanted env data = true → job_sessionId job ∈ autoOpenedReportSessions w').
Proof.
  intros Hfind Hsid Haudio Hchan Hresp data.
  pose proof (findIndex_Some _ _ _ _ Hfind) as (Hi & Hid & _).
  unfold analyseSessionAudioJob, analysed_title, tab_wanted.
  destruct (has_offscreen env) eqn:Hoff; simpl.
  - (* offscreen path *)
    rewrite try_catch_run. unfold dispatchOffscreenAnalysis. rewrite Hchan.
    rewrite bind_run. unfold Offscreen.onMessage. rewrite try_catch_run, bind_run.
    unfold Offscreen.runBackendAnalysis.
    rewrite !bool_decide_false by done. simpl. rewrite Hresp. fold data.
    set (merged := or_str (r_session_report data) (or_str (r_error data) "")).
    set (res := {| r_title := _; r_session_report := Some merged;
                   r_status := _; r_error := None |}).
    assert (Herr : is_error_status (Some res) =
                   bool_decide (r_status data = Some "error")).
    { unfold is_error_status. simpl. apply bool_decide_ext.
      destruct (r_status data) as [st|]; simpl; [|split; congruence].
      case_bool_decide as Hst; split; intros [= H]; congruence. }
    assert (Hreport :
      or_str (Some merged)
        (or_str None
           (if bool_decide (r_status data = Some "error")
            then INVALID_MODEL_OUTPUT else "")) = analysed_report data).
    { unfold analysed_report. subst merged. apply merged_report. }
    assert (Hpatch : result_patch (Some res) "Session Report" =
      {| p_status := Some (if bool_decide (r_status data = Some "error")
                           then failed else done);
         p_title := Some (or_str (r_title data) "Session Report");
         p_session_report := Some (analysed_report data);
         p_audio_base64 := None; p_has_audio := None; p_audio_mime_type := None |}).
    { unfold result_patch. rewrite Herr.
      change (Some res ≫= r_session_report) with (Some merged).
      change (Some res ≫= r_error) with (@None string).
      change (Some res ≫= r_title) with (Some (or_str (r_title data) "Session Report")).
      rewrite Hreport.
      rewrite (or_str_Some (or_str (r_title data) "Session Report"))
        by (by apply or_str_nonempty).
      done. }
    assert (Hwant : negb (is_error_status (Some res)) &&
                    truthy (Some res ≫= r_session_report) =
                    negb (bool_decide (r_status data = Some "error")) &&
                    bool_decide (merged ≠ "")).
    { by rewrite Herr. }
    unfold mret at 1, M_ret, ret. rewrite bind_run.
    unfold onMessage at 1. rewrite try_catch_run.
    unfold onOFFSCREEN_ANALYSIS_COMPLETE. rewrite bool_decide_true by done.
    change (truthy None) with false. cbv iota. rewrite bind_run.
    rewrite Hpatch, Hwant.
    rewrite (updateSession_found _ _ _ _ _ Hfind). rewrite bind_run.
    destruct (negb (bool_decide (r_status data = Some "error")) &&
              bool_decide (merged ≠ "")) eqn:Hw.
    + rewrite openReportTab_run by done. simpl.
      destruct (bool_decide (job_sessionId job ∈ autoOpenedReportSessions w)) eqn:Hin;
        simpl; eexists _, _; (split; [reflexivity|]); simpl;
        (split; [apply list_lookup_insert_eq; by eapply lookup_lt_Some|]);
        rewrite patched_id, patched_status, patched_report; simpl;
        rewrite ?app_nil_r; repeat split; try done.
      * intros _. by apply bool_decide_eq_true in Hin.
      * intros _. set_solver.
    + simpl. eexists _, _. split; [reflexivity|]. simpl.
      split; [apply list_lookup_insert_eq; by eapply lookup_lt_Some|].
      rewrite patched_id, patched_status, patched_report. simpl.
      rewrite ?app_nil_r. repeat split; done.
  - (* in-worker path *)
    rewrite try_catch_run, bind_run. unfold requestBackendAnalysis. rewrite Hresp.
    fold data. unfold mret at 1, M_ret, ret.
    rewrite bind_run, (updateSession_found _ _ _ _ _ Hfind).
    assert (Herr : is_error_status (Some data) = bool_decide (r_status data = Some "error"))
      by done.
    rewrite Herr.
    destruct (negb (bool_decide (r_status data = Some "error")) &&
              truthy (r_session_report data)) eqn:Hwant.
    + rewrite openReportTab_run by done. simpl.
      destruct (bool_decide (job_sessionId job ∈ autoOpenedReportSessions w)) eqn:Hin;
        simpl; eexists _, _; (split; [reflexivity|]); simpl;
        (split; [apply list_lookup_insert_eq; by eapply lookup_lt_Some|]);
        rewrite patched_id, patched_status, patched_report; simpl;
        rewrite ?Herr, ?app_nil_r; repeat split; try done.
      * intros _. by apply bool_decide_eq_true in Hin.
      * intros _. set_solver.
    + simpl. eexists _, _. split; [reflexivity|]. simpl.
      split; [apply list_lookup_insert_eq; by eapply lookup_lt_Some|].
      rewrite patched_id, patched_status, patched_report. simpl.
      rewrite ?Herr, ?app_nil_r. repeat split; done.
Qed.

Lemma analysis_response_stored_witness :
  ∃ w' s',
    analyseSessionAudioJob reporting_env waiting_job waiting_world = (inr tt, w') ∧
    sessions (storage w') !! 0 = Some s' ∧
    status s' = done ∧ session_report s' = Some "## Summary" ∧ title s' = Some "T" ∧
    effects w' = effects waiting_world ++ [TabCreated "session-1"].
Proof.
  destruct (analysis_response_stored reporting_env waiting_job waiting_world 0
              waiting_session 200
              (Some {| r_title := Some "T"; r_session_report := Some "## Summary";
                       r_status := Some "ok"; r_error := None |}))
    as (w' & s' & H1 & H2 & _ & H3 & H4 & H5 & H6 & _).
  - vm_compute. reflexivity.
  - simpl. congruence.
  - simpl. congruence.
  - reflexivity.
  - reflexivity.
  - exists w', s'. repeat split; assumption.
Defined.

(** ** The user profile *)

Lemma start_profile_run (env : Env) (w : World) :
  onMessage env START_RECORDING w =
    (inr (RespOk (Some (uuid_session env))),
     started env (profile_in_use env w) (Some (profile_in_use env w)) w).
Proof.
  unfold onMessage, onSTART_RECORDING, started, getUserProfile, pushSession,
    profile_in_use.
  unfold_m. simpl.
  destruct (userProfile (storage w)) as [p|] eqn:Hp.
  - destruct (bool_decide (profile_id p ≠ "") && bool_decide (profile_name p ≠ ""));
      simpl; rewrite <- ?app_assoc; simpl;
      unfold set_activeSessionId, set_sessions, set_userProfile; simpl;
      rewrite ?Hp; done.
  - simpl. rewrite <- ?app_assoc; simpl. done.
Qed.

Lemma profile_update (p : UserProfile) (st : Store) (i : nat) (s : Session)
    (patch : Patch) :
  userProfile st = Some p → sessions st !! i = Some s → ok_patch patch →
  userProfile (set_sessions (<[i := patched s patch]> (sessions st)) st) = Some p.
Proof. done. Qed.

(** X4: the installation's profile is created once and never changed.  A
    start command that finds no profile with an id and a name stores a
    new one (random id, name "User-" followed by the year); once a
    profile with a non-empty id and name is stored, every message and
    every settled analysis leaves it as it is; and each new session
    copies the id and name of the profile in use. *)
Theorem profile_created_once (env : Env) (w : World) :
  (∀ p ev, userProfile (storage w) = Some p →
     profile_id p ≠ "" → profile_name p ≠ "" →
     userProfile (storage (step w ev)) = Some p) ∧
  (let w' := step w (Deliver env START_RECORDING) in
   userProfile (storage w') = Some (profile_in_use env w) ∧
   ∃ s, last (sessions (storage w')) = Some s ∧
        user_id s = Some (profile_id (profile_in_use env w)) ∧
        user_name s = Some (profile_name (profile_in_use env w))) ∧
  ((∀ p, userProfile (storage w) = Some p → profile_id p = "" ∨ profile_name p = "") →
   profile_in_use env w =
     {| profile_id := uuid_profile env;
        profile_name := "User-" +:+ pretty (full_year env) |}).
Proof.
  split; [|split].
  - intros p ev Hp Hid Hname.
    destruct ev as [env' msg|env'].
    + destruct msg as [| |payload|sid result error|payload|action]; simpl.
      * rewrite start_profile_run. simpl. unfold profile_in_use. rewrite Hp.
        by rewrite !bool_decide_true.
      * destruct (truthy (activeSessionId (storage w))) eqn:Ht.
        -- destruct (activeSessionId (storage w)) as [a|] eqn:Hact; [|done].
           simpl in Ht. apply bool_decide_eq_true in Ht.
           rewrite (stop_with_active env' w a Hact Ht). unfold stopped. simpl.
           by destruct (findIndex a (sessions (storage w))) as [[i s]|].
        -- by rewrite (stop_without_active env' w Ht).
      * unfold onMessage.
        apply (preserves_try_catch (on_store (λ st, userProfile st = Some p)));
          [|intros ?; apply preserves_ret|done].
        apply preserves_process; [done|apply profile_update].
      * unfold onMessage.
        apply (preserves_try_catch (on_store (λ st, userProfile st = Some p)));
          [|intros ?; apply preserves_ret|done].
        apply preserves_complete; [done|apply profile_update].
      * unfold onMessage.
        apply (preserves_try_catch (on_store (λ st, userProfile st = Some p)));
          [|intros ?; apply preserves_ret|done].
        apply preserves_report_ready; [done|apply profile_update].
      * done.
    + apply (preserves_settle (λ st, userProfile st = Some p));
        [done|apply profile_update|done].
  - simpl. rewrite start_profile_run. simpl. split; [done|].
    eexists. rewrite last_snoc. done.
  - intros Hbad. unfold profile_in_use.
    destruct (userProfile (storage w)) as [p|]; [|done].
    destruct (Hbad p eq_refl) as [H|H]; rewrite H.
    + by rewrite (bool_decide_false ("" ≠ "")) by (intros H'; by apply H').
    + rewrite (bool_decide_false ("" ≠ "")) by (intros H'; by apply H').
      by rewrite andb_false_r.
Qed.

Lemma profile_created_once_witness :
  userProfile (storage (step waiting_world (Deliver second_env START_RECORDING))) =
    Some {| profile_id := "profile-1"; profile_name := "User-2024" |}.
Proof.
  apply (proj1 (profile_created_once second_env waiting_world)).
  - reflexivity.
  - simpl. congruence.
  - simpl. congruence.
Defined.

(** ** What a handler does to the list of sessions *)

Lemma birth_patched (s : Session) (p : Patch) : birth (patched s p) = birth s.
Proof. unfold patched, birth. by destruct (p_audio_base64 p). Qed.

Lemma births_update (l : list (string * string * option string * option string * option string))
    (st : Store) (i : nat) (s : Session) (patch : Patch) :
  birth <$> sessions st = l → sessions st !! i = Some s → ok_patch patch →
  birth <$> sessions (set_sessions (<[i := patched s patch]> (sessions st)) st) = l.
Proof.
  intros <- Hi _. simpl. rewrite list_fmap_insert, birth_patched.
  apply list_insert_id. by rewrite list_lookup_fmap, Hi.
Qed.

(** A handler of the coordinator, run from its first line to its last,
    leaves the stored records in their order as far as id, creation time,
    owner and inline audio field go; a start command appends one. *)
Lemma births_step (w : World) (ev : Event) :
  birth <$> sessions (storage (step w ev)) =
    (birth <$> sessions (storage w)) ++
      match ev with
      | Deliver env START_RECORDING =>
          [birth (newSessionMeta env (profile_in_use env w))]
      | _ => []
      end.
Proof.
  set (P := λ st : Store, birth <$> sessions st = birth <$> sessions (storage w)).
  assert (Hw : on_store P w) by done.
  assert (HPa : ∀ st f, P st → P (set_audio_entries f st)) by done.
  assert (HPu : ∀ st i s patch, P st → sessions st !! i = Some s → ok_patch patch →
                P (set_sessions (<[i := patched s patch]> (sessions st)) st)).
  { intros st i s patch. apply births_update. }
  destruct ev as [env msg|env].
  - destruct msg as [| |payload|sid result error|payload|action]; simpl.
    + rewrite start_profile_run. simpl. by rewrite fmap_app.
    + rewrite app_nil_r.
      destruct (truthy (activeSessionId (storage w))) eqn:Ht.
      * destruct (activeSessionId (storage w)) as [a|] eqn:Hact; [|done].
        simpl in Ht. apply bool_decide_eq_true in Ht.
        rewrite (stop_with_active env w a Hact Ht). unfold stopped. simpl.
        destruct (findIndex a (sessions (storage w))) as [[i s]|] eqn:Hfind; [|done].
        apply findIndex_Some in Hfind as (Hi & _).
        exact (births_update _ (set_audio_entries _ (storage w)) i s _ eq_refl Hi
                 ok_status_patch_processing).
      * by rewrite (stop_without_active env w Ht).
    + rewrite app_nil_r. unfold onMessage.
      apply (preserves_try_catch (on_store P)); [|intros ?; apply preserves_ret|done].
      by apply preserves_process.
    + rewrite app_nil_r. unfold onMessage.
      apply (preserves_try_catch (on_store P)); [|intros ?; apply preserves_ret|done].
      by apply preserves_complete.
    + rewrite app_nil_r. unfold onMessage.
      apply (preserves_try_catch (on_store P)); [|intros ?; apply preserves_ret|done].
      by apply preserves_report_ready.
    + by rewrite app_nil_r.
  - rewrite app_nil_r. by apply (preserves_settle P).
Qed.

(** ** Scripts that keep a predicate on worlds *)

Section world_scripts.
Variable I : World → Prop.
Hypothesis I_emit : ∀ w e, I w → I (emit e w).2.
Hypothesis I_opened : ∀ w f, I w → I (set_autoOpened f w).
Hypothesis I_audio : ∀ w f, I w → I (set_storage (set_audio_entries f) w).
Hypothesis I_update : ∀ w i s p,
  I w → sessions (storage w) !! i = Some s → ok_patch p →
  I (set_storage (set_sessions (<[i := patched s p]> (sessions (storage w)))) w).

Lemma keeps_emit e : preserves I (emit e).
Proof. intros w. apply I_emit. Qed.

Lemma keeps_opened f : preserves I (modify (set_autoOpened f)).
Proof. intros w. apply I_opened. Qed.

Ltac keeps_step :=
  lazymatch goal with
  | |- preserves _ (mret _) => apply preserves_ret
  | |- preserves _ (throw _) => apply preserves_throw
  | |- preserves _ (gets _) => apply preserves_gets
  | |- preserves _ (emit _) => apply keeps_emit
  | |- preserves _ (modify (set_autoOpened _)) => apply keeps_opened
  | |- preserves _ (try_catch _ _) => apply preserves_try_catch; [|intros ?]
  | |- preserves _ (mbind _ _) => apply preserves_bind; [|intros ?]
  | |- preserves _ (if ?b then _ else _) => destruct b
  | |- preserves _ (match ?x with _ => _ end) => destruct x
  end.

Lemma keeps_updateSession sid patch :
  ok_patch patch → preserves I (updateSession sid patch).
Proof.
  intros Hok w HI.
  destruct (findIndex sid (sessions (storage w))) as [[i s]|] eqn:Hfind.
  - rewrite (updateSession_found _ _ _ _ _ Hfind).
    apply findIndex_Some in Hfind as (Hi & _). simpl.
    apply (I_update (set_storage (set_audio_entries (audio_after sid patch)) w) i s patch);
      [by apply I_audio|done|done].
  - apply findIndex_None in Hfind. by rewrite (updateSession_unknown _ _ _ Hfind).
Qed.

Lemma keeps_persist sid audio : preserves I (persistSessionAudioBlob sid audio).
Proof.
  unfold persistSessionAudioBlob. repeat keeps_step. intros w HI. by apply I_audio.
Qed.

Lemma keeps_load sid : preserves I (loadSessionAudioBlob sid).
Proof. unfold loadSessionAudioBlob. repeat keeps_step. Qed.

Lemma keeps_fetch env u sid : preserves I (fetchSessionAudioFromBackend env u sid).
Proof. unfold fetchSessionAudioFromBackend. repeat keeps_step. Qed.

Lemma keeps_ensureAudio env session provided mime :
  preserves I (ensureAudioForSession env session provided mime).
Proof.
  unfold ensureAudioForSession. keeps_step; [keeps_step|].
  keeps_step; [apply keeps_load|]. keeps_step; [keeps_step|].
  keeps_step; [apply keeps_fetch|]. keeps_step; [|keeps_step].
  keeps_step; [apply keeps_persist|]. keeps_step; [|keeps_step].
  apply keeps_updateSession. solve_ok_patch.
Qed.

Lemma keeps_openReportTab sid : preserves I (openReportTab sid).
Proof. unfold openReportTab. repeat keeps_step. Qed.

Lemma keeps_begin env payload : preserves I (beginSessionAudioJob env payload).
Proof.
  unfold beginSessionAudioJob, getSessionById, get_sessions.
  keeps_step; [repeat keeps_step|].
  keeps_step; [|keeps_step]. keeps_step; [|keeps_step].
  keeps_step; [apply keeps_ensureAudio|].
  keeps_step; [keeps_step|].
  - keeps_step; [|repeat keeps_step].
    apply keeps_updateSession. solve_ok_patch.
  - keeps_step; [|keeps_step]. apply keeps_updateSession, ok_failed_patch.
  - keeps_step; [|keeps_step]. apply keeps_updateSession, ok_failed_patch.
Qed.

Lemma keeps_complete sid result error :
  preserves I (onOFFSCREEN_ANALYSIS_COMPLETE sid result error).
Proof.
  unfold onOFFSCREEN_ANALYSIS_COMPLETE.
  keeps_step; [|keeps_step]. keeps_step; [|keeps_step]. keeps_step.
  - keeps_step; [|keeps_step]. apply keeps_updateSession, ok_failed_patch.
  - keeps_step; [apply keeps_updateSession, ok_result_patch|].
    keeps_step; [|keeps_step]. keeps_step; [apply keeps_openReportTab|keeps_step].
Qed.

Lemma keeps_report_ready payload : preserves I (onSESSION_REPORT_READY payload).
Proof.
  unfold onSESSION_REPORT_READY. repeat (keeps_step; try keeps_step).
  apply keeps_updateSession, ok_report_ready_patch.
Qed.

Lemma keeps_offscreen env job : preserves I (Offscreen.onMessage env job).
Proof.
  unfold Offscreen.onMessage, onMessage.
  keeps_step.
  - keeps_step.
    + unfold Offscreen.runBackendAnalysis. repeat keeps_step.
    + keeps_step; [|keeps_step]. keeps_step; [|keeps_step]. apply keeps_complete.
  - keeps_step; [|keeps_step]. keeps_step; [|keeps_step]. apply keeps_complete.
Qed.

Lemma keeps_analyse env job : preserves I (analyseSessionAudioJob env job).
Proof.
  unfold analyseSessionAudioJob. keeps_step.
  - keeps_step.
    + keeps_step; [unfold requestBackendAnalysis; repeat keeps_step|].
      keeps_step; [apply keeps_updateSession, ok_result_patch|].
      keeps_step; [apply keeps_openReportTab|keeps_step].
    + apply keeps_updateSession, ok_failed_patch.
  - keeps_step.
    + unfold dispatchOffscreenAnalysis. keeps_step; [keeps_step|].
      keeps_step; [apply keeps_offscreen|]. repeat keeps_step.
    + apply keeps_updateSession, ok_failed_patch.
Qed.
End world_scripts.

(** ** What [updateSession] touches *)

(** X7: [updateSession] writes one record only, the first one that
    carries the id.  The collection keeps its length, every other record
    (a later one with the same id included) is left as it was, the
    written record keeps its id, creation time, owner and inline audio
    field, and the active pointer and the profile are not touched.  A
    field the patch does not name keeps its value. *)
Theorem updateSession_writes_first_match
    (sid : string) (patch : Patch) (w : World) (i : nat) (s : Session) :
  findIndex sid (sessions (storage w)) = Some (i, s) →
  let w' := (updateSession sid patch w).2 in
  length (sessions (storage w')) = length (sessions (storage w)) ∧
  (∀ j, j ≠ i → sessions (storage w') !! j = sessions (storage w) !! j) ∧
  (∀ j, j < i → ∀ y, sessions (storage w) !! j = Some y → id y ≠ sid) ∧
  activeSessionId (storage w') = activeSessionId (storage w) ∧
  userProfile (storage w') = userProfile (storage w) ∧
  ∃ s', sessions (storage w') !! i = Some s' ∧ birth s' = birth s ∧
        status s' = default (status s) (p_status patch) ∧
        title s' = from_option Some (title s) (p_title patch) ∧
        session_report s' = from_option Some (session_report s) (p_session_report patch) ∧
        audio_mime_type s' =
          from_option Some (audio_mime_type s) (p_audio_mime_type patch).
Proof.
  intros Hfind w'. subst w'. rewrite (updateSession_found _ _ _ _ _ Hfind).
  apply findIndex_Some in Hfind as (Hi & Hid & Hfirst). simpl.
  split; [by rewrite length_insert|].
  split; [intros j Hj; by apply list_lookup_insert_ne|].
  split; [intros j Hj y Hy; by eapply Hfirst|].
  split; [done|]. split; [done|].
  exists (patched s patch).
  split; [apply list_lookup_insert_eq; by eapply lookup_lt_Some|].
  rewrite birth_patched, patched_status, patched_report.
  repeat split; try done; destruct patch as [ps pt pr pa ph pm]; unfold patched; simpl;
    destruct pa, pt, pm; done.
Qed.

Lemma updateSession_writes_first_match_witness :
  let w' := (updateSession "twin" (status_patch processing) twin_world).2 in
  (status <$> sessions (storage w')) = [processing; failed] ∧
  sessions (storage w') !! 1 = sessions (storage twin_world) !! 1.
Proof.
  destruct (updateSession_writes_first_match "twin" (status_patch processing)
              twin_world 0 (sample_session "twin" done (Some "first")) eq_refl)
    as (_ & H & _).
  split; [reflexivity|]. apply H. lia.
Defined.

(** ** The audio field of a patch *)

(** X8: the [audio_base64] field of a patch never lands in the record; it
    drives the audio entry of the session.  For a stored session with a
    non-empty id: a non-empty string is stored under the session's key,
    so that loading the session's audio returns it, and the record gets
    [has_audio = true]; [null] or an empty string removes the entry, so
    that loading returns nothing, and the record gets [has_audio = false];
    an explicit [has_audio] in the patch wins over both.  A patch without
    the field leaves the audio entries as they are.  Entries under other
    keys are never touched. *)
Theorem patch_audio_goes_to_cache
    (sid : string) (patch : Patch) (w : World) (i : nat) (s : Session) :
  findIndex sid (sessions (storage w)) = Some (i, s) → sid ≠ "" →
  let w' := (updateSession sid patch w).2 in
  (∀ k, k ≠ audio_key sid →
     audio_entries (storage w') !! k = audio_entries (storage w) !! k) ∧
  (∃ s', sessions (storage w') !! i = Some s' ∧
         audio_base64 s' = audio_base64 s ∧
         has_audio s' =
           default (match p_audio_base64 patch with
                    | Some audio => truthy audio
                    | None => has_audio s
                    end) (p_has_audio patch)) ∧
  match p_audio_base64 patch with
  | Some audio =>
      loadSessionAudioBlob sid w' = (inr (if truthy audio then audio else None), w')
  | None => audio_entries (storage w') = audio_entries (storage w)
  end.
Proof.
  intros Hfind Hsid w'. subst w'. rewrite (updateSession_found _ _ _ _ _ Hfind).
  apply findIndex_Some in Hfind as (Hi & Hid & _). simpl.
  split; [|split].
  - intros k Hk. unfold audio_after.
    destruct (p_audio_base64 patch) as [[a|]|]; [| |done];
      rewrite bool_decide_true by done; [case_bool_decide|];
      by rewrite ?lookup_insert_ne, ?lookup_delete_ne.
  - exists (patched s patch).
    split; [apply list_lookup_insert_eq; by eapply lookup_lt_Some|].
    unfold patched. by destruct (p_audio_base64 patch).
  - destruct (p_audio_base64 patch) as [[a|]|] eqn:Ha; [| |by unfold audio_after; rewrite Ha];
      unfold loadSessionAudioBlob; unfold_m;
      rewrite (bool_decide_false (sid = "")) by done; simpl;
      unfold audio_after; rewrite Ha;
      rewrite (bool_decide_true (sid ≠ "")) by done.
    + case_bool_decide as Hne.
      * rewrite lookup_insert_eq. simpl. by rewrite bool_decide_true.
      * by rewrite lookup_delete_eq.
    + by rewrite lookup_delete_eq.
Qed.

Lemma patch_audio_goes_to_cache_witness :
  let patch := report_ready_patch
                 {| rr_sessionId := Some "session-1"; rr_title := None;
                    rr_sessionReport := Some "R"; rr_status := Some "error";
                    rr_audioBase64 := Some None; rr_hasAudio := None |} in
  let w' := (updateSession "session-1" patch waiting_world).2 in
  loadSessionAudioBlob "session-1" waiting_world = (inr (Some "QUJD"), waiting_world) ∧
  loadSessionAudioBlob "session-1" w' = (inr None, w').
Proof.
  intros patch w'. split; [reflexivity|].
  destruct (patch_audio_goes_to_cache "session-1" patch waiting_world 0 waiting_session)
    as (_ & _ & H).
  - vm_compute. reflexivity.
  - congruence.
  - exact H.
Defined.

(** ** Storage keys *)

(** X9: the key of an audio entry is the prefix "sessionAudio_" followed
    by the session id.  Two sessions share a key only if they share the
    id, and no session id makes the key collide with the store's other
    keys ("sessions", "activeSessionId", "userProfile"). *)
Theorem audio_keys_are_namespaced :
  (∀ a b, audio_key a = audio_key b → a = b) ∧
  (∀ sid, audio_key sid ∉ ["sessions"; "activeSessionId"; "userProfile"]).
Proof.
  split; [apply audio_key_inj|].
  intros sid H. unfold audio_key, AUDIO_STORAGE_PREFIX in H.
  repeat (apply elem_of_cons in H as [H|H]; [discriminate H|]).
  by apply elem_of_nil in H.
Qed.

(** ** The offscreen listener *)

Lemma complete_ok (env : Env) (sid : option string) (r : option AnalysisResult)
    (e : option string) (w : World) :
  ∃ resp, (onMessage env (OFFSCREEN_ANALYSIS_COMPLETE sid r e) w).1 = inr resp.
Proof.
  unfold onMessage. rewrite try_catch_run.
  destruct (onOFFSCREEN_ANALYSIS_COMPLETE sid r e w) as [[err|resp] w']; simpl; eauto.
Qed.

(** X10: the offscreen document always answers its request and never
    lets an error out.  It answers [ok] exactly when the job has a session
    id and audio and the analysis endpoint answered with a success status.
    A job without a session id or without audio is refused with "Missing
    audio payload for analysis" before any network call; when such a job
    names a stored session, that session is marked [failed] with this
    message after the error prefix. *)
Theorem offscreen_listener_answers (env : Env) (job : Job) (w : World) :
  (∃ r, (Offscreen.onMessage env job w).1 = inr r ∧
        (is_ok r = true ↔
           job_sessionId job ≠ "" ∧ job_audio job ≠ "" ∧
           ∃ code body, analyze_endpoint env = FetchResponse true code body)) ∧
  (job_sessionId job = "" ∨ job_audio job = "" →
     (Offscreen.onMessage env job w).1 =
       inr (RespError "Missing audio payload for analysis")) ∧
  (job_audio job = "" → job_sessionId job ≠ "" →
     ∀ i s, findIndex (job_sessionId job) (sessions (storage w)) = Some (i, s) →
       ∃ s', sessions (storage (Offscreen.onMessage env job w).2) !! i = Some s' ∧
             status s' = failed ∧
             session_report s' =
               Some (ANALYSIS_ERROR_PREFIX +:+ "Missing audio payload for analysis")).
Proof.
  assert (Hguard : job_sessionId job = "" ∨ job_audio job = "" →
            Offscreen.runBackendAnalysis env job w =
              (inl (Error "Missing audio payload for analysis"), w)).
  { intros H. unfold Offscreen.runBackendAnalysis.
    destruct H as [H|H]; rewrite H; simpl; [done|].
    by rewrite orb_true_r. }
  split; [|split].
  - unfold Offscreen.onMessage. rewrite try_catch_run, bind_run.
    destruct (decide (job_sessionId job = "")) as [Hs|Hs].
    { rewrite Hguard by (by left). rewrite bind_run.
      destruct (complete_ok env (Some (job_sessionId job)) None
                  (Some (error_text (Error "Missing audio payload for analysis"))) w)
        as (resp & Hresp).
      destruct (onMessage env _ w) as [r0 w0]. simpl in Hresp. subst r0. simpl.
      eexists. split; [reflexivity|]. simpl. split; [done|]. by intros (H & _). }
    destruct (decide (job_audio job = "")) as [Ha|Ha].
    { rewrite Hguard by (by right). rewrite bind_run.
      destruct (complete_ok env (Some (job_sessionId job)) None
                  (Some (error_text (Error "Missing audio payload for analysis"))) w)
        as (resp & Hresp).
      destruct (onMessage env _ w) as [r0 w0]. simpl in Hresp. subst r0. simpl.
      eexists. split; [reflexivity|]. simpl. split; [done|]. by intros (_ & H & _). }
    unfold Offscreen.runBackendAnalysis. rewrite !bool_decide_false by done. simpl.
    destruct (analyze_endpoint env) as [e|ok code body] eqn:Hresp.
    + unfold throw at 1. rewrite bind_run.
      destruct (complete_ok env (Some (job_sessionId job)) None (Some (error_text e)) w)
        as (resp & Hr).
      destruct (onMessage env _ w) as [r0 w0]. simpl in Hr. subst r0. simpl.
      eexists. split; [reflexivity|]. simpl. split; [done|].
      by intros (_ & _ & c & b & H).
    + destruct ok.
      * unfold mret at 1, M_ret, ret. rewrite bind_run.
        match goal with
        | |- context [onMessage env (OFFSCREEN_ANALYSIS_COMPLETE ?a ?b ?c) w] =>
            destruct (complete_ok env a b c w) as (resp & Hr);
            destruct (onMessage env (OFFSCREEN_ANALYSIS_COMPLETE a b c) w) as [r0 w0]
        end.
        simpl in Hr. subst r0. simpl.
        eexists. split; [reflexivity|]. simpl. split; [|done].
        intros _. repeat split; eauto.
      * unfold throw at 1. rewrite bind_run.
        match goal with
        | |- context [onMessage env (OFFSCREEN_ANALYSIS_COMPLETE ?a ?b ?c) w] =>
            destruct (complete_ok env a b c w) as (resp & Hr);
            destruct (onMessage env (OFFSCREEN_ANALYSIS_COMPLETE a b c) w) as [r0 w0]
        end.
        simpl in Hr. subst r0. simpl.
        eexists. split; [reflexivity|]. simpl. split; [done|].
        intros (_ & _ & c & b & H). congruence.
  - intros H. unfold Offscreen.onMessage. rewrite try_catch_run, bind_run.
    rewrite (Hguard H). rewrite bind_run.
    destruct (complete_ok env (Some (job_sessionId job)) None
                (Some (error_text (Error "Missing audio payload for analysis"))) w)
      as (resp & Hresp).
    destruct (onMessage env _ w) as [r0 w0]. simpl in Hresp. subst r0. done.
  - intros Ha Hs i s Hfind.
    unfold Offscreen.onMessage. rewrite try_catch_run, bind_run.
    rewrite Hguard by (by right). rewrite bind_run.
    unfold onMessage. rewrite try_catch_run.
    unfold onOFFSCREEN_ANALYSIS_COMPLETE. rewrite bool_decide_true by done.
    simpl. rewrite bind_run, (updateSession_found _ _ _ _ _ Hfind). simpl.
    apply findIndex_Some in Hfind as (Hi & _).
    eexists. split; [apply list_lookup_insert_eq; by eapply lookup_lt_Some|]. done.
Qed.

Lemma offscreen_listener_answers_witness :
  (Offscreen.onMessage reporting_env empty_job waiting_world).1 =
    inr (RespError "Missing audio payload for analysis") ∧
  ∃ s', sessions (storage (Offscreen.onMessage reporting_env empty_job
                             waiting_world).2) !! 0 = Some s' ∧
        status s' = failed.
Proof.
  destruct (offscreen_listener_answers reporting_env empty_job waiting_world)
    as (_ & H1 & H2).
  split; [apply H1; by right|].
  destruct (H2 eq_refl ltac:(simpl; congruence) 0 waiting_session) as (s' & Hs & Hst & _).
  - vm_compute. reflexivity.
  - exists s'. by split.
Defined.

(** ** The offscreen document cannot be reached *)

(** X11: on the offscreen path, when the offscreen document cannot be
    created or the message to it fails, the job returns normally and the
    session is marked [failed] with the dispatch prefix followed by the
    text of the error.  Nothing else is written: the title, the audio
    entries, the set of opened reports and the effect log are as before,
    and the analysis endpoint plays no part. *)
Theorem dispatch_failure_ends_failed
    (env : Env) (job : Job) (w : World) (i : nat) (s : Session) (e : JsError) :
  findIndex (job_sessionId job) (sessions (storage w)) = Some (i, s) →
  has_offscreen env = true → offscreen_channel env = Some e →
  ∃ w' s',
    analyseSessionAudioJob env job w = (inr tt, w') ∧
    sessions (storage w') = <[i := s']> (sessions (storage w)) ∧
    status s' = failed ∧
    session_report s' = Some (DISPATCH_ERROR_PREFIX +:+ error_text e) ∧
    title s' = title s ∧ has_audio s' = has_audio s ∧
    audio_entries (storage w') = audio_entries (storage w) ∧
    autoOpenedReportSessions w' = autoOpenedReportSessions w ∧
    in_flight w' = in_flight w ∧
    effects w' = effects w.
Proof.
  intros Hfind Hoff Hchan.
  unfold analyseSessionAudioJob. rewrite Hoff. simpl.
  rewrite try_catch_run. unfold dispatchOffscreenAnalysis. rewrite Hchan.
  unfold throw at 1.
  rewrite (updateSession_found _ _ _ _ _ Hfind).
  eexists _, _. split; [reflexivity|]. simpl.
  split; [reflexivity|]. by rewrite patched_status, patched_report.
Qed.

Lemma dispatch_failure_ends_failed_witness :
  ∃ w' s',
    analyseSessionAudioJob broken_channel_env waiting_job waiting_world = (inr tt, w') ∧
    sessions (storage w') = <[0 := s']> (sessions (storage waiting_world)) ∧
    status s' = failed ∧
    session_report s' =
      Some (DISPATCH_ERROR_PREFIX +:+ "Could not establish connection.") ∧
    effects w' = effects waiting_world.
Proof.
  destruct (dispatch_failure_ends_failed broken_channel_env waiting_job waiting_world 0
              waiting_session (Error "Could not establish connection."))
    as (w' & s' & H1 & H2 & H3 & H4 & _ & _ & _ & _ & _ & H5).
  - vm_compute. reflexivity.
  - reflexivity.
  - reflexivity.
  - exists w', s'. by repeat split.
Defined.

(** ** A settled analysis ends its session *)

Lemma terminal_at_storage (sid : string) (w w' : World) :
  storage w' = storage w → terminal_at sid w → terminal_at sid w'.
Proof. intros Hst (i & s & H). exists i, s. by rewrite Hst. Qed.

Lemma updateSession_terminal (sid : string) (patch : Patch) (w : World) :
  sid ∈ id <$> sessions (storage w) →
  p_status patch = Some done ∨ p_status patch = Some failed →
  is_Some (p_session_report patch) →
  terminal_at sid (updateSession sid patch w).2.
Proof.
  intros Hin Hst [r Hr].
  destruct (findIndex sid (sessions (storage w))) as [[i s]|] eqn:Hfind;
    [|by apply findIndex_None in Hfind].
  rewrite (updateSession_found _ _ _ _ _ Hfind). simpl.
  exists i, (patched s patch). split; [by apply findIndex_write_session|].
  unfold terminal. rewrite patched_status, patched_report, Hr.
  split; [|by eexists]. by destruct Hst as [-> | ->]; [left|right].
Qed.

Lemma terminal_at_stored (sid : string) (w : World) :
  terminal_at sid w → sid ∈ id <$> sessions (storage w).
Proof.
  intros (i & s & Hfind & _). apply findIndex_Some in Hfind as (Hi & <- & _).
  apply list_elem_of_fmap. exists s. split; [done|]. by eapply list_elem_of_lookup_2.
Qed.

Lemma result_patch_terminal (r : option AnalysisResult) (t : string) :
  (p_status (result_patch r t) = Some done ∨ p_status (result_patch r t) = Some failed) ∧
  is_Some (p_session_report (result_patch r t)).
Proof. simpl. split; [|by eexists]. destruct (is_error_status r); eauto. Qed.

Lemma complete_terminal (env : Env) (sid : string) (r : option AnalysisResult)
    (e : option string) (w : World) :
  sid ≠ "" → sid ∈ id <$> sessions (storage w) →
  terminal_at sid (onMessage env (OFFSCREEN_ANALYSIS_COMPLETE (Some sid) r e) w).2.
Proof.
  intros Hs Hin. unfold onMessage. rewrite try_catch_run.
  unfold onOFFSCREEN_ANALYSIS_COMPLETE. rewrite bool_decide_true by done.
  destruct (truthy e).
  - rewrite bind_run.
    pose proof (updateSession_ok sid (failed_patch (ANALYSIS_ERROR_PREFIX +:+ default "" e)) w)
      as Hok.
    pose proof (updateSession_terminal sid
                  (failed_patch (ANALYSIS_ERROR_PREFIX +:+ default "" e)) w Hin
                  (or_intror eq_refl) (ex_intro _ _ eq_refl)) as Ht.
    destruct (updateSession sid _ w) as [res w1]. simpl in Hok. subst res. done.
  - rewrite bind_run.
    pose proof (updateSession_ok sid (result_patch r "Session Report") w) as Hok.
    destruct (result_patch_terminal r "Session Report") as [H1 H2].
    pose proof (updateSession_terminal sid (result_patch r "Session Report") w Hin H1 H2)
      as Ht.
    destruct (updateSession sid _ w) as [res w1]. simpl in Hok. subst res.
    rewrite bind_run.
    set (tab := if negb (is_error_status r) && truthy (r ≫= r_session_report)
                then openReportTab (Some sid) else mret tt).
    assert (Hok1 : (tab w1).1 = inr tt).
    { subst tab. destruct (_ && _); [apply openReportTab_ok|done]. }
    assert (Hst1 : storage (tab w1).2 = storage w1).
    { subst tab. destruct (_ && _); [apply openReportTab_storage|done]. }
    destruct (tab w1) as [res w2]. simpl in Hok1, Hst1. subst res. simpl.
    by apply (terminal_at_storage sid w1).
Qed.

Lemma offscreen_terminal (env : Env) (job : Job) (w : World) :
  job_sessionId job ≠ "" → job_sessionId job ∈ id <$> sessions (storage w) →
  ∃ r, (Offscreen.onMessage env job w).1 = inr r ∧
       terminal_at (job_sessionId job) (Offscreen.onMessage env job w).2.
Proof.
  intros Hs Hin. unfold Offscreen.onMessage. rewrite try_catch_run, bind_run.
  assert (Hrun : ∃ res, Offscreen.runBackendAnalysis env job w = (res, w)).
  { unfold Offscreen.runBackendAnalysis. destruct (_ || _); [by eexists|].
    destruct (analyze_endpoint env) as [e|ok code body]; [by eexists|].
    destruct ok; by eexists. }
  destruct Hrun as [[e|result] ->].
  - rewrite bind_run.
    destruct (complete_ok env (Some (job_sessionId job)) None (Some (error_text e)) w)
      as (resp & Hr).
    pose proof (complete_terminal env (job_sessionId job) None (Some (error_text e)) w
                  Hs Hin) as Ht.
    destruct (onMessage env _ w) as [r0 w0]. simpl in Hr. subst r0. simpl. eauto.
  - rewrite bind_run.
    destruct (complete_ok env (Some (job_sessionId job)) (Some result) None w)
      as (resp & Hr).
    pose proof (complete_terminal env (job_sessionId job) (Some result) None w
                  Hs Hin) as Ht.
    destruct (onMessage env _ w) as [r0 w0]. simpl in Hr. subst r0. simpl. eauto.
Qed.

Lemma analyse_terminal (env : Env) (job : Job) (w : World) :
  job_sessionId job ≠ "" → job_sessionId job ∈ id <$> sessions (storage w) →
  (analyseSessionAudioJob env job w).1 = inr tt ∧
  terminal_at (job_sessionId job) (analyseSessionAudioJob env job w).2.
Proof.
  intros Hs Hin. unfold analyseSessionAudioJob.
  assert (Hfail : ∀ r w0, job_sessionId job ∈ id <$> sessions (storage w0) →
            (updateSession (job_sessionId job) (failed_patch r) w0).1 = inr tt ∧
            terminal_at (job_sessionId job)
              (updateSession (job_sessionId job) (failed_patch r) w0).2).
  { intros r w0 H0. split; [apply updateSession_ok|].
    apply updateSession_terminal; [done|by right|by eexists]. }
  destruct (has_offscreen env); simpl.
  - rewrite try_catch_run. unfold dispatchOffscreenAnalysis.
    destruct (offscreen_channel env) as [e|].
    + unfold throw at 1. by apply Hfail.
    + rewrite bind_run.
      destruct (offscreen_terminal env job w Hs Hin) as (r & Hr & Ht).
      destruct (Offscreen.onMessage env job w) as [r0 w0]. simpl in Hr, Ht. subst r0.
      destruct r as [x|err]; [done|].
      unfold throw at 1. apply Hfail. by apply terminal_at_stored.
  - rewrite try_catch_run, bind_run.
    assert (Hrun : ∃ res, requestBackendAnalysis env w = (res, w)).
    { unfold requestBackendAnalysis.
      destruct (analyze_endpoint env) as [e|ok code body]; [by eexists|].
      destruct ok; by eexists. }
    destruct Hrun as [[e|result] ->]; [by apply Hfail|].
    rewrite bind_run.
    set (p := result_patch (Some result) (or_str (title (job_session job)) "Session Report")).
    pose proof (updateSession_ok (job_sessionId job) p w) as Hok.
    destruct (result_patch_terminal (Some result)
                (or_str (title (job_session job)) "Session Report")) as [H1 H2].
    pose proof (updateSession_terminal (job_sessionId job) p w Hin H1 H2) as Ht.
    destruct (updateSession (job_sessionId job) p w) as [res w1].
    simpl in Hok. subst res.
    set (tab := if negb (is_error_status (Some result)) && truthy (r_session_report result)
                then openReportTab (Some (job_sessionId job)) else mret tt).
    assert (Hok1 : (tab w1).1 = inr tt).
    { subst tab. destruct (_ && _); [apply openReportTab_ok|done]. }
    assert (Hst1 : storage (tab w1).2 = storage w1).
    { subst tab. destruct (_ && _); [apply openReportTab_storage|done]. }
    destruct (tab w1) as [res w2]. simpl in Hok1, Hst1. subst res. simpl.
    split; [done|]. by apply (terminal_at_storage _ w1).
Qed.

(** ** The popup's record update *)

Lemma popup_patch_unknown (sid : string) (patch : Patch) (w : World) :
  findIndex sid (sessions (storage w)) = None →
  Popup.patchSession sid patch w = (inr tt, w).
Proof.
  intros Hfind. unfold Popup.patchSession. rewrite bind_run.
  unfold get_sessions, gets at 1. by rewrite Hfind.
Qed.

Lemma popup_patch_found (sid : string) (patch : Patch) (w : World) i s :
  findIndex sid (sessions (storage w)) = Some (i, s) →
  Popup.patchSession sid patch w = (inr tt, popup_write i s sid patch w).
Proof.
  intros H. unfold Popup.patchSession, popup_write, popup_patched, popup_audio_after.
  unfold_m. simpl. rewrite H.
  destruct patch as [ps pt pr [[a|]|] ph pm]; simpl;
    unfold persistSessionAudioBlob, clearSessionAudioBlob; unfold_m; simpl;
    repeat case_bool_decide; simpl; try reflexivity; try congruence.
Qed.

(** X13: the popup's [patchSession] against the coordinator's
    [updateSession], on a stored session.  Without an audio field in the
    patch the two write the same store.  With an audio field other than
    the empty string they leave the same audio entries, and the popup's
    record is the coordinator's with the inline audio field erased.  With
    the empty string as audio they differ: the coordinator removes the
    cached audio and sets [has_audio] to false, the popup keeps the cached
    audio and the record's [has_audio].  On an unknown id both write
    nothing. *)
Theorem popup_patch_vs_coordinator (sid : string) (patch : Patch) (w : World) :
  (findIndex sid (sessions (storage w)) = None →
     Popup.patchSession sid patch w = (inr tt, w) ∧
     updateSession sid patch w = (inr tt, w)) ∧
  (∀ i s, findIndex sid (sessions (storage w)) = Some (i, s) →
     let wp := (Popup.patchSession sid patch w).2 in
     let wc := (updateSession sid patch w).2 in
     (Popup.patchSession sid patch w).1 = inr tt ∧
     (p_audio_base64 patch = None →
        Popup.patchSession sid patch w = updateSession sid patch w) ∧
     (is_Some (p_audio_base64 patch) → p_audio_base64 patch ≠ Some (Some "") →
        audio_entries (storage wp) = audio_entries (storage wc) ∧
        sessions (storage wc) = <[i := patched s patch]> (sessions (storage w)) ∧
        sessions (storage wp) =
          <[i := Popup.without_inline_audio (patched s patch)]> (sessions (storage w))) ∧
     (p_audio_base64 patch = Some (Some "") → sid ≠ "" →
        audio_entries (storage wp) = audio_entries (storage w) ∧
        audio_entries (storage wc) = delete (audio_key sid) (audio_entries (storage w)) ∧
        ∃ sp sc, sessions (storage wp) !! i = Some sp ∧
                 sessions (storage wc) !! i = Some sc ∧
                 has_audio sp = default (has_audio s) (p_has_audio patch) ∧
                 has_audio sc = default false (p_has_audio patch) ∧
                 audio_base64 sp = None ∧ audio_base64 sc = audio_base64 s)).
Proof.
  split.
  - intros Hfind. split; [by apply popup_patch_unknown|].
    apply updateSession_unknown. by apply findIndex_None.
  - intros i s Hfind wp wc. subst wp wc.
    rewrite (updateSession_found _ _ _ _ _ Hfind), (popup_patch_found _ _ _ _ _ Hfind).
    pose proof (findIndex_Some _ _ _ _ Hfind) as (Hi & Hid & _).
    assert (Hlt : i < length (sessions (storage w))) by by eapply lookup_lt_Some.
    unfold write_session, popup_write, patched, popup_patched, audio_after,
      popup_audio_after. simpl.
    split; [done|]. split; [by intros ->|]. split.
    + intros [a Ha] Hne. rewrite Ha. destruct a as [a|].
      * assert (a ≠ "") by congruence.
        unfold truthy. rewrite !(bool_decide_true (a ≠ "")) by done. rewrite andb_true_r.
        by destruct (bool_decide (sid ≠ "")).
      * done.
    + intros -> Hs. rewrite (bool_decide_true (sid ≠ "")) by done.
      rewrite !(bool_decide_false ("" ≠ "")) by (intros H'; by apply H').
      simpl. split; [done|]. split; [done|].
      eexists _, _. split; [by apply list_lookup_insert_eq|].
      split; [by apply list_lookup_insert_eq|]. done.
Qed.

Lemma popup_patch_vs_coordinator_witness :
  let patch := {| p_status := None; p_title := None; p_session_report := None;
                  p_audio_base64 := Some (Some ""); p_has_audio := None;
                  p_audio_mime_type := None |} in
  audio_entries (storage (Popup.patchSession "session-1" patch waiting_world).2) =
    audio_entries (storage waiting_world) ∧
  audio_entries (storage (updateSession "session-1" patch waiting_world).2) =
    delete (audio_key "session-1") (audio_entries (storage waiting_world)).
Proof.
  intros patch.
  destruct (proj2 (popup_patch_vs_coordinator "session-1" patch waiting_world)
              0 waiting_session) as (_ & _ & _ & H).
  - vm_compute. reflexivity.
  - destruct (H eq_refl) as (H1 & H2 & _); [simpl; congruence|]. by split.
Defined.

(** ** Audio resolution in the popup *)




(** ** The end of a recording in the popup *)

Lemma shown_migrate_record (s : Session) : shown (migrate_record s) = shown s.
Proof. unfold migrate_record. by destruct (truthy (audio_base64 s)). Qed.

Lemma refreshSessions_view (w : World) :
  ∃ w', Popup.refreshSessions w = (inr tt, w') ∧
        effects w' = effects w ∧ in_flight w' = in_flight w ∧
        recorder (popup w') = recorder (popup w) ∧
        currentSessionId (popup w') = currentSessionId (popup w) ∧
        displayStreamRef (popup w') = displayStreamRef (popup w) ∧
        micStreamRef (popup w') = micStreamRef (popup w) ∧
        isRecording (popup w') = truthy (activeSessionId (storage w)) ∧
        activeSessionId (storage w') = activeSessionId (storage w) ∧
        shown <$> sessions (storage w') = shown <$> sessions (storage w).
Proof.
  unfold Popup.refreshSessions. rewrite bind_run. unfold gets at 1. rewrite bind_run.
  destruct (legacyAudioMigrationDone (popup w)) eqn:H.
  - rewrite migrate_done_noop by done. eexists. split; [reflexivity|]. done.
  - rewrite migrate_fresh_run by done. eexists. split; [reflexivity|]. simpl.
    destruct (migrate_world_frame (sessions (storage w)) w)
      as (Hs & Ha & _ & Hp & He & Hf).
    assert (Hshown : shown <$> (migrate_record <$> sessions (storage w)) =
                     shown <$> sessions (storage w)).
    { rewrite <- list_fmap_compose. apply list_fmap_ext. intros _ s _. simpl.
      apply shown_migrate_record. }
    destruct (existsb _ (sessions (storage w))); simpl;
      rewrite ?Hs, ?Ha, ?Hp, ?He, ?Hf, ?Hshown; repeat split; done.
Qed.

Lemma send_run (env : Env) (msg : Msg) (w : World) :
  Popup.send env msg w = onMessage env msg (logged [Sent msg] w).
Proof. reflexivity. Qed.

Lemma report_ready_run (env : Env) (p : ReportReady) (w : World) :
  onMessage env (SESSION_REPORT_READY (Some p)) w =
    if truthy (rr_sessionId p)
    then (inr (RespOk None),
          (updateSession (default "" (rr_sessionId p)) (report_ready_patch p) w).2)
    else (inr (RespError "Missing sessionId."), w).
Proof.
  unfold onMessage, onSESSION_REPORT_READY. rewrite try_catch_run.
  destruct (rr_sessionId p) as [s|]; simpl; [|done].
  destruct (bool_decide (s ≠ "")); [|done].
  rewrite bind_run. pose proof (updateSession_ok s (report_ready_patch p) w) as Hok.
  destruct (updateSession s _ w) as [r w1]. simpl in Hok. by subst r.
Qed.

Lemma updateSession_frame (sid : string) (patch : Patch) (w : World) :
  effects (updateSession sid patch w).2 = effects w ∧
  in_flight (updateSession sid patch w).2 = in_flight w ∧
  popup (updateSession sid patch w).2 = popup w ∧
  autoOpenedReportSessions (updateSession sid patch w).2 = autoOpenedReportSessions w ∧
  activeSessionId (storage (updateSession sid patch w).2) = activeSessionId (storage w).
Proof.
  destruct (findIndex sid (sessions (storage w))) as [[i s]|] eqn:Hfind.
  - by rewrite (updateSession_found _ _ _ _ _ Hfind).
  - apply findIndex_None in Hfind. by rewrite (updateSession_unknown _ _ _ Hfind).
Qed.

Lemma chunks_with_data_sum (l : list N) :
  filter (λ n, (0 < n)%N) l ≠ [] → foldr N.add 0%N (filter (λ n, (0 < n)%N) l) ≠ 0%N.
Proof.
  induction l as [|n l IH]; [done|].
  rewrite filter_cons. destruct (decide (0 < n)%N) as [Hn|Hn]; [|done].
  intros _. simpl. lia.
Qed.

(** X15: a recording that ends without any data.  When no chunk with
    data was recorded, [onstop] releases every track of the display and
    the microphone stream, alerts the user, reports the session to the
    coordinator as failed ("خطا: صدا ضبط نشد") and resets the recorder and
    the current session id; it never sends [PROCESS_SESSION_AUDIO], so no
    job is started.  The stored session ends [failed] with that report.
    Since only chunks with data are kept, a recording with at least one
    chunk never yields an empty file. *)
Theorem empty_recording_fails (env : Env) (dev : Devices) (w : World) :
  (filter (λ n, (0 < n)%N) (recorded_chunks dev) ≠ [] →
   foldr N.add 0%N (filter (λ n, (0 < n)%N) (recorded_chunks dev)) ≠ 0%N) ∧
  (filter (λ n, (0 < n)%N) (recorded_chunks dev) = [] →
   ∃ w',
     Popup.onstop env dev w = (inr tt, w') ∧
     effects w' =
       effects w ++
         (TrackStopped <$> default [] (displayStreamRef (popup w))) ++
         (TrackStopped <$> default [] (micStreamRef (popup w))) ++
         [Alerted "خطا: هیچ صدایی ضبط نشد. لطفاً دوباره تلاش کنید.";
          Sent (Popup.error_report (currentSessionId (popup w)) (Some "جلسه")
                  "خطا: صدا ضبط نشد" None)] ∧
     in_flight w' = in_flight w ∧
     recorder (popup w') = false ∧ currentSessionId (popup w') = None ∧
     activeSessionId (storage w') = activeSessionId (storage w) ∧
     (∀ sid i s, currentSessionId (popup w) = Some sid → sid ≠ "" →
        findIndex sid (sessions (storage w)) = Some (i, s) →
        shown <$> sessions (storage w') =
          <[i := (sid, Some "جلسه", failed, Some "خطا: صدا ضبط نشد")]>
            (shown <$> sessions (storage w)))).
Proof.
  split; [apply chunks_with_data_sum|].
  intros Hchunks. unfold Popup.onstop.
  rewrite bind_run. unfold gets at 1. cbv beta iota.
  rewrite bind_run. unfold gets at 1. cbv beta iota.
  rewrite bind_run, stop_tracks_run. rewrite bind_run, stop_tracks_run.
  rewrite bind_run. unfold gets at 1. cbv beta iota.
  rewrite Hchunks. simpl length. rewrite (bool_decide_true (0 = 0)) by done.
  unfold Popup.alert. rewrite bind_run. unfold emit at 1, modify at 1. cbv beta iota.
  rewrite bind_run, send_run. unfold Popup.error_report at 1. rewrite report_ready_run.
  set (display := default [] (displayStreamRef (popup w))).
  set (mic := default [] (micStreamRef (popup w))).
  set (current := currentSessionId (popup w)).
  change (currentSessionId (popup (logged _ (logged _ w)))) with current.
  set (p := {| rr_sessionId := current; rr_title := Some "جلسه";
               rr_sessionReport := Some "خطا: صدا ضبط نشد"; rr_status := Some "error";
               rr_audioBase64 := Some None; rr_hasAudio := None |}).
  change (rr_sessionId p) with current.
  set (w1 := logged [Sent _] _).
  assert (Hw1 : effects w1 =
            effects w ++ (TrackStopped <$> display) ++ (TrackStopped <$> mic) ++
              [Alerted "خطا: هیچ صدایی ضبط نشد. لطفاً دوباره تلاش کنید.";
               Sent (Popup.error_report current (Some "جلسه") "خطا: صدا ضبط نشد" None)]).
  { subst w1. simpl. by rewrite <- !app_assoc. }
  assert (Hw1f : in_flight w1 = in_flight w ∧ storage w1 = storage w) by done.
  destruct Hw1f as [Hw1f Hw1s].
  set (w2 := if truthy current
             then (updateSession (default "" current) (report_ready_patch p) w1).2
             else w1).
  assert (Hw2 : effects w2 = effects w1 ∧ in_flight w2 = in_flight w1 ∧
                activeSessionId (storage w2) = activeSessionId (storage w1)).
  { subst w2. destruct (truthy current); [|done].
    destruct (updateSession_frame (default "" current) (report_ready_patch p) w1)
      as (H1 & H2 & _ & _ & H3). done. }
  destruct Hw2 as (Hw2e & Hw2f & Hw2a).
  match goal with
  | |- context [if truthy current then ?a else ?b] =>
      assert (Hrun : ∃ r, (if truthy current then a else b) = (inr r, w2))
        by (subst w2; destruct (truthy current); by eexists)
  end.
  destruct Hrun as [r ->]. cbv beta iota.
  rewrite bind_run. unfold modify at 1. cbv beta iota.
  set (w3 := set_popup _ w2).
  destruct (refreshSessions_view w3) as (w' & -> & He & Hf & Hr & Hc & _ & _ & _ & Ha & Hs).
  exists w'. split; [done|].
  split; [by rewrite He, <- Hw1, <- Hw2e|].
  split; [by rewrite Hf, <- Hw1f, <- Hw2f|].
  split; [by rewrite Hr|]. split; [by rewrite Hc|].
  split; [by rewrite Ha, <- Hw1s, <- Hw2a|].
  intros sid i s Hcur Hsid Hfind. rewrite Hs.
  change (sessions (storage w3)) with (sessions (storage w2)).
  subst w2. rewrite Hcur. simpl. rewrite (bool_decide_true (sid ≠ "")) by done.
  rewrite <- Hw1s in Hfind.
  rewrite (updateSession_found _ _ _ _ _ Hfind). simpl.
  rewrite list_fmap_insert. f_equal.
  apply findIndex_Some in Hfind as (_ & Hid & _).
  unfold shown. rewrite patched_id, patched_status, patched_report, Hid.
  subst p. unfold patched. simpl. done.
Qed.

Lemma empty_recording_fails_witness :
  ∃ w',
    Popup.onstop silent_env silent_devices (recording_popup waiting_world "session-1") =
      (inr tt, w') ∧
    in_flight w' = in_flight waiting_world ∧
    recorder (popup w') = false.
Proof.
  destruct (proj2 (empty_recording_fails silent_env silent_devices
                     (recording_popup waiting_world "session-1")) eq_refl)
    as (w' & H1 & _ & H2 & H3 & _).
  exists w'. by repeat split.
Defined.

Lemma process_inline_run (env : Env) (sid a : string) (mime : option string) (r : bool)
    (w : World) (i : nat) (s : Session) :
  sid ≠ "" → a ≠ "" →
  findIndex sid (sessions (storage w)) = Some (i, s) →
  onMessage env
    (PROCESS_SESSION_AUDIO
       (Some {| sessionId := Some sid; audioBase64 := Some a; mimeType := mime;
                isRegeneration := r |})) w =
    (inr (RespOk None), job_accepted i s sid a mime w).
Proof.
  intros Hsid Ha Hfind.
  unfold onMessage, onPROCESS_SESSION_AUDIO. rewrite try_catch_run. simpl.
  rewrite (bool_decide_true (sid ≠ "")) by done.
  rewrite bind_run, try_catch_run.
  unfold beginSessionAudioJob. rewrite bind_run.
  unfold getSessionById at 1. rewrite bind_run. unfold get_sessions, gets at 1.
  simpl. rewrite Hfind. simpl.
  rewrite bind_run, ensureAudio_inline by (simpl; by rewrite bool_decide_true).
  simpl. rewrite (bool_decide_true (a ≠ "")) by done.
  rewrite bind_run, (updateSession_found _ _ _ _ _ Hfind). reflexivity.
Qed.

Lemma onstop_submits
    (env : Env) (dev : Devices) (w : World) (sid : string) (i : nat) (s : Session) :
  filter (λ n, (0 < n)%N) (recorded_chunks dev) ≠ [] →
  recorded_base64 dev ≠ "" →
  currentSessionId (popup w) = Some sid → sid ≠ "" →
  findIndex sid (sessions (storage w)) = Some (i, s) →
  ∃ w',
    Popup.onstop env dev w = (inr tt, w') ∧
    effects w' =
      effects w ++
        (TrackStopped <$> default [] (displayStreamRef (popup w))) ++
        (TrackStopped <$> default [] (micStreamRef (popup w))) ++
        [Sent (submit sid (recorded_base64 dev))] ∧
    in_flight w' =
      in_flight w ++
        [{| job_sessionId := sid; job_session := s;
            job_audio := recorded_base64 dev; job_mime := "audio/webm" |}] ∧
    recorder (popup w') = false ∧ currentSessionId (popup w') = None ∧
    activeSessionId (storage w') = activeSessionId (storage w) ∧
    shown <$> sessions (storage w') =
      <[i := (sid, title s, processing, session_report s)]>
        (shown <$> sessions (storage w)) ∧
    isRecording (popup w') = truthy (activeSessionId (storage w)).
Proof.
  intros Hchunks Hb64 Hcur Hsid Hfind. unfold Popup.onstop.
  rewrite bind_run. unfold gets at 1. cbv beta iota.
  rewrite bind_run. unfold gets at 1. cbv beta iota.
  rewrite bind_run, stop_tracks_run. rewrite bind_run, stop_tracks_run.
  rewrite bind_run. unfold gets at 1. cbv beta iota.
  set (display := default [] (displayStreamRef (popup w))).
  set (mic := default [] (micStreamRef (popup w))).
  change (currentSessionId (popup (logged _ (logged _ w)))) with (currentSessionId (popup w)).
  rewrite Hcur.
  rewrite (bool_decide_false (length _ = 0))
    by (destruct (filter _ (recorded_chunks dev)); [done|simpl; lia]).
  rewrite (bool_decide_false (foldr N.add 0%N _ = 0%N)) by by apply chunks_with_data_sum.
  rewrite bind_run, try_catch_run, bind_run, send_run.
  set (w1 := logged [Sent _] _).
  assert (Hfind1 : findIndex sid (sessions (storage w1)) = Some (i, s)) by done.
  rewrite (process_inline_run env sid (recorded_base64 dev) (Some "audio/webm") false
             w1 i s Hsid Hb64 Hfind1).
  cbv beta iota. unfold mret at 1, M_ret, ret. cbv beta iota.
  rewrite bind_run. unfold modify at 1. cbv beta iota.
  set (w3 := set_popup _ _).
  destruct (refreshSessions_view w3) as (w' & -> & He & Hf & Hr & Hc & _ & _ & Hi & Ha & Hs).
  exists w'. split; [done|].
  split; [rewrite He; simpl; by rewrite <- !app_assoc|].
  split; [rewrite Hf; done|].
  split; [by rewrite Hr|]. split; [by rewrite Hc|].
  split; [by rewrite Ha|].
  split; [|by rewrite Hi].
  rewrite Hs. simpl. rewrite list_fmap_insert. f_equal.
  apply findIndex_Some in Hfind as (_ & Hid & _).
  unfold shown. by rewrite patched_id, patched_status, patched_report, Hid.
Qed.

(** X16: a recording that ends with data.  [onstop] releases every track
    of the display and the microphone stream, then sends the recorded
    audio to the coordinator for the current session, and raises no
    alert.  For a stored session the coordinator accepts: exactly one job
    is added to the waiting ones, carrying the session id, the recorded
    audio and the type "audio/webm"; the session goes to [processing]
    with its title and report unchanged; the popup forgets the recorder
    and the current session id. *)
Theorem recorded_audio_is_submitted
    (env : Env) (dev : Devices) (w : World) (sid : string) (i : nat) (s : Session) :
  filter (λ n, (0 < n)%N) (recorded_chunks dev) ≠ [] →
  recorded_base64 dev ≠ "" →
  currentSessionId (popup w) = Some sid → sid ≠ "" →
  findIndex sid (sessions (storage w)) = Some (i, s) →
  ∃ w',
    Popup.onstop env dev w = (inr tt, w') ∧
    effects w' =
      effects w ++
        (TrackStopped <$> default [] (displayStreamRef (popup w))) ++
        (TrackStopped <$> default [] (micStreamRef (popup w))) ++
        [Sent (submit sid (recorded_base64 dev))] ∧
    in_flight w' =
      in_flight w ++
        [{| job_sessionId := sid; job_session := s;
            job_audio := recorded_base64 dev; job_mime := "audio/webm" |}] ∧
    recorder (popup w') = false ∧ currentSessionId (popup w') = None ∧
    activeSessionId (storage w') = activeSessionId (storage w) ∧
    shown <$> sessions (storage w') =
      <[i := (sid, title s, processing, session_report s)]>
        (shown <$> sessions (storage w)).
Proof.
  intros Hchunks Hb64 Hcur Hsid Hfind.
  destruct (onstop_submits env dev w sid i s Hchunks Hb64 Hcur Hsid Hfind)
    as (w' & Hrun & He & Hf & Hr & Hc & Ha & Hs & _).
  exists w'. split; [exact Hrun|]. split; [exact He|]. split; [exact Hf|].
  split; [exact Hr|]. split; [exact Hc|]. split; [exact Ha|]. exact Hs.
Qed.

Lemma recorded_audio_is_submitted_witness :
  ∃ w',
    Popup.onstop silent_env recording_devices (recording_popup waiting_world "session-1") =
      (inr tt, w') ∧
    length (in_flight w') = 2 ∧
    recorder (popup w') = false.
Proof.
  destruct (recorded_audio_is_submitted silent_env recording_devices
              (recording_popup waiting_world "session-1") "session-1" 0 waiting_session)
    as (w' & H1 & _ & H2 & H3 & _).
  - vm_compute. congruence.
  - simpl. congruence.
  - reflexivity.
  - congruence.
  - vm_compute. reflexivity.
  - exists w'. split; [exact H1|]. split; [by rewrite H2|exact H3].
Defined.

(** ** The display capture is refused *)

Lemma findIndex_new (l : list Session) (s : Session) :
  id s ∉ id <$> l → findIndex (id s) (l ++ [s]) = Some (length l, s).
Proof.
  intros Hnew. apply findIndex_None in Hnew. unfold findIndex in *.
  rewrite list_find_app_r by done. simpl.
  rewrite decide_True by done. simpl. repeat f_equal; lia.
Qed.

Lemma findIndex_started (env : Env) (p : UserProfile) (l : list Session) :
  uuid_session env ∉ id <$> l →
  findIndex (uuid_session env) (l ++ [newSessionMeta env p]) =
    Some (length l, newSessionMeta env p).
Proof. apply (findIndex_new l (newSessionMeta env p)). Qed.

(** X17: the record button when the display capture is refused (or
    fails).  The session has already been created by the start command;
    the handler alerts the user, sends the stop command and returns
    normally.  The new session is left in [processing] without a report
    and without any job, the active-session pointer is cleared, the
    recorder is not started, and a microphone stream acquired before the
    refusal is kept in [micStreamRef]: none of its tracks is stopped. *)
Theorem refused_capture_strands_session
    (env : Env) (dev : Devices) (w : World) (e : JsError) :
  isRecording (popup w) = false →
  uuid_session env ≠ "" →
  uuid_session env ∉ id <$> sessions (storage w) →
  getDisplayMedia dev = inl e →
  ∃ w',
    Popup.recordBtn_click env dev w = (inr tt, w') ∧
    effects w' =
      effects w ++
        [Sent START_RECORDING; BadgeText "●"; BadgeColor "#ef4444";
         Alerted (capture_alert e); Sent STOP_RECORDING; BadgeText ""] ∧
    in_flight w' = in_flight w ∧
    recorder (popup w') = recorder (popup w) ∧
    isRecording (popup w') = false ∧
    activeSessionId (storage w') = None ∧
    micStreamRef (popup w') =
      match getUserMedia dev with inr mic => Some mic | inl _ => None end ∧
    shown <$> sessions (storage w') =
      (shown <$> sessions (storage w)) ++
        [(uuid_session env, Some "Session", processing, None)].
Proof.
  intros Hrec Huuid Hfresh Hdisplay.
  unfold Popup.recordBtn_click.
  rewrite bind_run. unfold gets at 1. rewrite Hrec.
  rewrite try_catch_run, bind_run, send_run.
  destruct (start_run env (logged [Sent START_RECORDING] w)) as (p & u & ->).
  simpl. rewrite (bool_decide_true (uuid_session env ≠ "")) by done. simpl.
  rewrite Hdisplay.
  repeat (rewrite bind_run; cbv [modify gets mret M_ret ret throw]).
  unfold Popup.alert. unfold emit at 1, modify at 1. cbv beta iota.
  rewrite bind_run, send_run.
  erewrite stop_with_active by (simpl; done).
  match goal with
  | |- context [Popup.refreshSessions ?w0] =>
      destruct (refreshSessions_view w0)
        as (w' & -> & He & Hf & Hr & _ & _ & Hm & Hi & Ha & Hs)
  end.
  exists w'. split; [done|].
  rewrite He, Hf, Hr, Hi, Ha, Hm, Hs. unfold stopped. simpl.
  rewrite !(findIndex_started env p (sessions (storage w))) by done.
  simpl. rewrite <- !app_assoc. simpl.
  repeat split; try done.
  rewrite insert_app_r_alt by lia. rewrite Nat.sub_diag. simpl.
  rewrite fmap_app. simpl. f_equal.
Qed.

Lemma refused_capture_strands_session_witness :
  ∃ w',
    Popup.recordBtn_click silent_env
      {| getUserMedia := inr [{| track_kind := AudioTrack; track_label := "mic" |}];
         getDisplayMedia :=
           inl {| err_name := "NotAllowedError"; err_message := "Permission denied" |};
         recorded_chunks := []; recorded_base64 := "" |} initial_world = (inr tt, w') ∧
    micStreamRef (popup w') = Some [{| track_kind := AudioTrack; track_label := "mic" |}] ∧
    shown <$> sessions (storage w') = [("session-1", Some "Session", processing, None)].
Proof.
  destruct (refused_capture_strands_session silent_env
              {| getUserMedia := inr [{| track_kind := AudioTrack; track_label := "mic" |}];
                 getDisplayMedia :=
                   inl {| err_name := "NotAllowedError"; err_message := "Permission denied" |};
                 recorded_chunks := []; recorded_base64 := "" |} initial_world
              {| err_name := "NotAllowedError"; err_message := "Permission denied" |})
    as (w' & H1 & _ & _ & _ & _ & _ & H2 & H3).
  - reflexivity.
  - simpl. congruence.
  - simpl. apply not_elem_of_nil.
  - reflexivity.
  - exists w'. by repeat split.
Defined.

(** ** A complete recording *)

Lemma findIndex_shown (sid : string) (l l' : list Session) (i : nat) (s : Session) :
  shown <$> l' = shown <$> l → findIndex sid l = Some (i, s) →
  ∃ s', findIndex sid l' = Some (i, s') ∧ shown s' = shown s.
Proof.
  intros Hshown Hfind. unfold findIndex in *.
  apply list_find_Some in Hfind as (Hi & Hid & Hbefore).
  assert (Hlook : ∀ j y, l !! j = Some y → ∃ y', l' !! j = Some y' ∧ shown y' = shown y).
  { intros j y Hj. pose proof (f_equal (λ k, k !! j) Hshown) as H. simpl in H.
    rewrite !list_lookup_fmap, Hj in H. simpl in H.
    destruct (l' !! j) as [y'|]; [|done]. exists y'. split; [done|]. simpl in H. congruence. }
  assert (Hlook' : ∀ j y', l' !! j = Some y' → ∃ y, l !! j = Some y ∧ shown y' = shown y).
  { intros j y' Hj. pose proof (f_equal (λ k, k !! j) Hshown) as H. simpl in H.
    rewrite !list_lookup_fmap, Hj in H. simpl in H.
    destruct (l !! j) as [y|]; [|done]. exists y. split; [done|]. simpl in H. congruence. }
  destruct (Hlook i s Hi) as (s' & Hi' & Hs').
  exists s'. split; [|done]. apply list_find_Some. split; [done|]. split.
  - assert (id s' = id s) as -> by (unfold shown in Hs'; congruence). done.
  - intros j y' Hj Hlt. destruct (Hlook' j y' Hj) as (y & Hy & Hsy).
    assert (id y' = id y) as -> by (unfold shown in Hsy; congruence).
    by apply (Hbefore j y).
Qed.

Lemma click_starts_recorder
    (env : Env) (dev : Devices) (w : World) (display : MediaStream) :
  isRecording (popup w) = false →
  uuid_session env ≠ "" →
  uuid_session env ∉ id <$> sessions (storage w) →
  getDisplayMedia dev = inr display →
  getAudioTracks display ≠ [] ∨ getAudioTracks (acquired (getUserMedia dev)) ≠ [] →
  ∃ w1,
    Popup.recordBtn_click env dev w = (inr tt, w1) ∧
    effects w1 =
      effects w ++
        [Sent START_RECORDING; BadgeText "●"; BadgeColor "#ef4444"; RecorderStarted] ∧
    in_flight w1 = in_flight w ∧
    isRecording (popup w1) = true ∧ recorder (popup w1) = true ∧
    currentSessionId (popup w1) = Some (uuid_session env) ∧
    displayStreamRef (popup w1) = Some display ∧
    default [] (micStreamRef (popup w1)) = acquired (getUserMedia dev) ∧
    activeSessionId (storage w1) = Some (uuid_session env) ∧
    shown <$> sessions (storage w1) =
      (shown <$> sessions (storage w)) ++
        [(uuid_session env, Some "Session", recording, None)].
Proof.
  intros Hrec Huuid Hfresh Hdisplay Haudio.
  unfold Popup.recordBtn_click.
  rewrite bind_run. unfold gets at 1. rewrite Hrec.
  rewrite try_catch_run, bind_run, send_run.
  destruct (start_run env (logged [Sent START_RECORDING] w)) as (p & u & ->).
  simpl. rewrite (bool_decide_true (uuid_session env ≠ "")) by done. simpl.
  rewrite Hdisplay.
  repeat (rewrite bind_run; cbv [modify gets mret M_ret ret throw]).
  assert (Hhas : bool_decide (0 < length (getAudioTracks display)) ||
                 bool_decide (0 < length (getAudioTracks (acquired (getUserMedia dev)))) = true).
  { destruct Haudio as [H|H].
    - rewrite bool_decide_true; [done|]. destruct (getAudioTracks display); [done|simpl; lia].
    - rewrite (bool_decide_true (0 < length (getAudioTracks (acquired _)))).
      + by rewrite orb_true_r.
      + destruct (getAudioTracks (acquired _)); [done|simpl; lia]. }
  destruct (getUserMedia dev) as [em|mic]; simpl in Hhas |- *; rewrite Hhas; simpl;
    repeat (rewrite bind_run; cbv [modify gets mret M_ret ret throw emit]);
    match goal with
    | |- context [Popup.refreshSessions ?w0] =>
        destruct (refreshSessions_view w0)
          as (w' & -> & He & Hf & Hr & Hc & Hd & Hm & Hi & Ha & Hs)
    end;
    exists w'; (split; [done|]);
    rewrite He, Hf, Hr, Hi, Ha, Hm, Hs, Hc, Hd; simpl;
    rewrite <- !app_assoc, fmap_app; simpl;
    rewrite (bool_decide_true (uuid_session env ≠ "")) by done;
    repeat split; done.
Qed.

(** X18: a complete recording, from the first press of the record button
    to the second.  With a display stream and at least one audio track
    (display or microphone), the first press sends the start command,
    starts the recorder, and leaves the popup recording the new session,
    which is stored in [recording] and is the active one.  The second
    press sends the stop command, releases every track of both streams,
    and submits the recorded audio: the session is in [processing],
    the active-session pointer is cleared, the popup is idle again, and
    exactly one job for this session, with the recorded audio, waits for
    its analysis. *)
Theorem record_then_stop
    (env : Env) (dev : Devices) (w : World) (display : MediaStream) :
  isRecording (popup w) = false →
  uuid_session env ≠ "" →
  uuid_session env ∉ id <$> sessions (storage w) →
  getDisplayMedia dev = inr display →
  getAudioTracks display ≠ [] ∨ getAudioTracks (acquired (getUserMedia dev)) ≠ [] →
  filter (λ n, (0 < n)%N) (recorded_chunks dev) ≠ [] →
  recorded_base64 dev ≠ "" →
  ∃ w1 w2 s,
    Popup.recordBtn_click env dev w = (inr tt, w1) ∧
    Popup.recordBtn_click env dev w1 = (inr tt, w2) ∧
    isRecording (popup w1) = true ∧
    activeSessionId (storage w1) = Some (uuid_session env) ∧
    shown <$> sessions (storage w1) =
      (shown <$> sessions (storage w)) ++
        [(uuid_session env, Some "Session", recording, None)] ∧
    effects w2 =
      effects w ++
        [Sent START_RECORDING; BadgeText "●"; BadgeColor "#ef4444"; RecorderStarted;
         Sent STOP_RECORDING; BadgeText ""] ++
        (TrackStopped <$> display) ++
        (TrackStopped <$> acquired (getUserMedia dev)) ++
        [Sent (submit (uuid_session env) (recorded_base64 dev))] ∧
    in_flight w2 =
      in_flight w ++
        [{| job_sessionId := uuid_session env; job_session := s;
            job_audio := recorded_base64 dev; job_mime := "audio/webm" |}] ∧
    isRecording (popup w2) = false ∧ recorder (popup w2) = false ∧
    currentSessionId (popup w2) = None ∧
    activeSessionId (storage w2) = None ∧
    shown <$> sessions (storage w2) =
      (shown <$> sessions (storage w)) ++
        [(uuid_session env, Some "Session", processing, None)].
Proof.
  intros Hrec Huuid Hfresh Hdisplay Haudio Hchunks Hb64.
  destruct (click_starts_recorder env dev w display Hrec Huuid Hfresh Hdisplay Haudio)
    as (w1 & Hrun1 & He1 & Hf1 & Hi1 & Hr1 & Hc1 & Hd1 & Hm1 & Ha1 & Hs1).
  set (l := sessions (storage w)) in *.
  assert (Hfind1 : ∃ s1, findIndex (uuid_session env) (sessions (storage w1)) =
                           Some (length l, s1) ∧
                         shown s1 = (uuid_session env, Some "Session", recording, None)).
  { set (new := sample_session (uuid_session env) recording None).
    assert (Hnew : shown new = (uuid_session env, Some "Session", recording, None)) by done.
    destruct (findIndex_shown (uuid_session env) (l ++ [new]) (sessions (storage w1))
                (length l) new) as (s1 & H1 & H2).
    - by rewrite Hs1, fmap_app.
    - apply (findIndex_new l new). done.
    - exists s1. split; [done|]. by rewrite H2. }
  destruct Hfind1 as (s1 & Hfind1 & Hshown1).
  set (w1' := stopped (uuid_session env) (logged [Sent STOP_RECORDING] w1)).
  assert (Hw1' : w1' =
            logged [BadgeText ""]
              (set_storage (set_activeSessionId None)
                 (write_session (length l) s1 (uuid_session env) (status_patch processing)
                    (logged [Sent STOP_RECORDING] w1)))).
  { subst w1'. unfold stopped.
    change (sessions (storage (logged [Sent STOP_RECORDING] w1)))
      with (sessions (storage w1)).
    by rewrite Hfind1. }
  assert (Hrec1' : recorder (popup w1') = true) by (by rewrite Hw1').
  assert (Hcur1' : currentSessionId (popup w1') = Some (uuid_session env))
    by (by rewrite Hw1').
  assert (Hclick2 : Popup.recordBtn_click env dev w1 = Popup.onstop env dev w1').
  { unfold Popup.recordBtn_click.
    rewrite bind_run. unfold gets at 1. rewrite Hi1.
    rewrite bind_run, send_run.
    rewrite (stop_with_active env (logged [Sent STOP_RECORDING] w1) (uuid_session env))
      by done.
    rewrite bind_run. unfold gets at 1. fold w1'. by rewrite Hrec1'. }
  pose proof (findIndex_Some _ _ _ _ Hfind1) as (Hlook1 & _).
  assert (Hfind1' : findIndex (uuid_session env) (sessions (storage w1')) =
                      Some (length l, patched s1 (status_patch processing))).
  { rewrite Hw1'. simpl. by apply findIndex_write_session. }
  destruct (onstop_submits env dev w1' (uuid_session env) (length l)
              (patched s1 (status_patch processing)) Hchunks Hb64 Hcur1' Huuid Hfind1')
    as (w2 & Hrun2 & He2 & Hf2 & Hr2 & Hc2 & Ha2 & Hs2 & Hi2).
  exists w1, w2, (patched s1 (status_patch processing)).
  split; [exact Hrun1|]. split; [by rewrite Hclick2|].
  split; [exact Hi1|]. split; [exact Ha1|]. split; [exact Hs1|].
  split.
  { rewrite He2, Hw1'. simpl. rewrite He1, Hd1, Hm1. simpl.
    by rewrite <- !app_assoc. }
  split; [rewrite Hf2, Hw1'; simpl; by rewrite Hf1|].
  split; [rewrite Hi2, Hw1'; done|].
  split; [exact Hr2|]. split; [exact Hc2|].
  split; [rewrite Ha2, Hw1'; done|].
  rewrite Hs2, Hw1'. simpl. rewrite list_fmap_insert, Hs1.
  rewrite insert_app_r_alt by (rewrite length_fmap; lia).
  rewrite length_fmap, Nat.sub_diag. simpl. f_equal.
  unfold shown in *. rewrite ?patched_status, ?patched_report. simpl.
  rewrite insert_app_r_alt by (rewrite length_fmap; lia).
  rewrite length_fmap, Nat.sub_diag. simpl.
  injection Hshown1 as _ -> _ ->. done.
Qed.

Lemma record_then_stop_witness :
  ∃ w1 w2,
    Popup.recordBtn_click silent_env recording_devices initial_world = (inr tt, w1) ∧
    Popup.recordBtn_click silent_env recording_devices w1 = (inr tt, w2) ∧
    length (in_flight w2) = 1 ∧
    shown <$> sessions (storage w2) = [("session-1", Some "Session", processing, None)].
Proof.
  destruct (record_then_stop silent_env recording_devices initial_world
              [{| track_kind := VideoTrack; track_label := "screen" |};
               {| track_kind := AudioTrack; track_label := "tab" |}])
    as (w1 & w2 & s & H1 & H2 & _ & _ & _ & _ & H3 & _ & _ & _ & _ & H4).
  - reflexivity.
  - simpl. congruence.
  - simpl. apply not_elem_of_nil.
  - reflexivity.
  - left. vm_compute. congruence.
  - vm_compute. congruence.
  - simpl. congruence.
  - exists w1, w2. split; [exact H1|]. split; [exact H2|].
    split; [by rewrite H3|exact H4].
Defined.

(** ** Escaping in the report page *)

Lemma append_String (x : ascii) (a b : string) : String x a +:+ b = String x (a +:+ b).
Proof. reflexivity. Qed.

Lemma string_app_assoc (a b c : string) : (a +:+ b) +:+ c = a +:+ (b +:+ c).
Proof. induction a as [|x a IH]; [done|]. by rewrite !append_String, IH. Qed.

Lemma replaceAll_app (c : ascii) (rep a b : string) :
  ReportView.replaceAll c rep (a +:+ b) =
    ReportView.replaceAll c rep a +:+ ReportView.replaceAll c rep b.
Proof.
  induction a as [|x a IH]; [done|]. rewrite append_String. simpl.
  destruct (Ascii.eqb x c); rewrite IH; [|done].
  by rewrite string_app_assoc.
Qed.

Lemma escapeHtml_cons (a : ascii) (s : string) :
  ReportView.escapeHtml (String a s) = escaped a +:+ ReportView.escapeHtml s.
Proof.
  unfold ReportView.escapeHtml, escaped.
  change (String a s) with (String a EmptyString +:+ s).
  rewrite !replaceAll_app. f_equal.
  destruct (Ascii.eqb_spec a "&"%char) as [->|H1]; [done|].
  destruct (Ascii.eqb_spec a "<"%char) as [->|H2]; [done|].
  destruct (Ascii.eqb_spec a ">"%char) as [->|H3]; [done|].
  destruct (Ascii.eqb_spec a ReportView.dquote) as [->|H4]; [done|].
  destruct (Ascii.eqb_spec a "'"%char) as [->|H5]; [done|].
  simpl. apply Ascii.eqb_neq in H1, H2, H3, H4, H5.
  rewrite H1. simpl. rewrite H2. simpl. rewrite H3. simpl. rewrite H4. simpl.
  by rewrite H5.
Qed.

Lemma chars_app (a b : string) : chars (a +:+ b) = chars a ++ chars b.
Proof. induction a as [|x a IH]; [done|]. rewrite append_String. simpl. by rewrite IH. Qed.

Lemma escaped_no_markup (a x : ascii) : x ∈ chars (escaped a) → markup x = false.
Proof.
  unfold escaped.
  destruct (Ascii.eqb_spec a "&"%char) as [->|H1].
  { simpl. intros H. repeat (apply elem_of_cons in H as [->|H]; [done|]).
    by apply elem_of_nil in H. }
  destruct (Ascii.eqb_spec a "<"%char) as [->|H2].
  { simpl. intros H. repeat (apply elem_of_cons in H as [->|H]; [done|]).
    by apply elem_of_nil in H. }
  destruct (Ascii.eqb_spec a ">"%char) as [->|H3].
  { simpl. intros H. repeat (apply elem_of_cons in H as [->|H]; [done|]).
    by apply elem_of_nil in H. }
  destruct (Ascii.eqb_spec a ReportView.dquote) as [->|H4].
  { simpl. intros H. repeat (apply elem_of_cons in H as [->|H]; [done|]).
    by apply elem_of_nil in H. }
  destruct (Ascii.eqb_spec a "'"%char) as [->|H5].
  { simpl. intros H. repeat (apply elem_of_cons in H as [->|H]; [done|]).
    by apply elem_of_nil in H. }
  simpl. intros H. apply elem_of_cons in H as [->|H]; [|by apply elem_of_nil in H].
  unfold markup. apply Ascii.eqb_neq in H2, H3, H4, H5. by rewrite H2, H3, H4, H5.
Qed.

(** X19: [escapeHtml], which replaces the five characters one after the
    other over the whole text, acts on each character on its own: the
    result is the concatenation of the escapes of the characters, no
    replacement touches the text an earlier one inserted.  So it
    distributes over concatenation, and its result contains none of the
    characters [<], [>], the double quote and the single quote. *)
Theorem escapeHtml_per_character :
  (∀ s, ReportView.escapeHtml s = foldr (λ a r, escaped a +:+ r) "" (chars s)) ∧
  (∀ a b, ReportView.escapeHtml (a +:+ b) =
            ReportView.escapeHtml a +:+ ReportView.escapeHtml b) ∧
  (∀ s x, x ∈ chars (ReportView.escapeHtml s) → markup x = false).
Proof.
  split; [|split].
  - induction s as [|a s IH]; [done|]. rewrite escapeHtml_cons, IH. done.
  - intros a b. induction a as [|x a IH]; [done|].
    change (String x a +:+ b) with (String x (a +:+ b)).
    by rewrite !escapeHtml_cons, IH, string_app_assoc.
  - induction s as [|a s IH]; intros x.
    + intros H. by apply elem_of_nil in H.
    + rewrite escapeHtml_cons, chars_app, elem_of_app.
      intros [H|H]; [by apply (escaped_no_markup a)|by apply IH].
Qed.

Lemma escaped_prefix_free (x y : ascii) (u v : string) :
  escaped x +:+ u = escaped y +:+ v → x = y ∧ u = v.
Proof.
  unfold escaped.
  destruct (Ascii.eqb_spec x "&"%char) as [->|Hx1];
    [|destruct (Ascii.eqb_spec x "<"%char) as [->|Hx2];
      [|destruct (Ascii.eqb_spec x ">"%char) as [->|Hx3];
        [|destruct (Ascii.eqb_spec x ReportView.dquote) as [->|Hx4];
          [|destruct (Ascii.eqb_spec x "'"%char) as [->|Hx5]]]]];
  (destruct (Ascii.eqb_spec y "&"%char) as [->|Hy1];
    [|destruct (Ascii.eqb_spec y "<"%char) as [->|Hy2];
      [|destruct (Ascii.eqb_spec y ">"%char) as [->|Hy3];
        [|destruct (Ascii.eqb_spec y ReportView.dquote) as [->|Hy4];
          [|destruct (Ascii.eqb_spec y "'"%char) as [->|Hy5]]]]]);
  rewrite ?append_String; intros H; try discriminate H;
  try (injection H as H; by subst);
  try (injection H as H0 H; by subst);
  try (injection H as H0 H; by (exfalso; eauto)).
Qed.

Lemma escaped_nonempty (x : ascii) (u : string) : escaped x +:+ u ≠ "".
Proof.
  unfold escaped.
  repeat (match goal with |- context [Ascii.eqb ?a ?b] => destruct (Ascii.eqb a b) end);
    by rewrite append_String.
Qed.

(** X20: [escapeHtml] loses nothing: two texts with the same escaped
    form are the same text. *)
Theorem escapeHtml_injective (a b : string) :
  ReportView.escapeHtml a = ReportView.escapeHtml b → a = b.
Proof.
  revert b. induction a as [|x a IH]; intros [|y b].
  - done.
  - rewrite escapeHtml_cons. intros H. symmetry in H. by apply escaped_nonempty in H.
  - rewrite escapeHtml_cons. intros H. by apply escaped_nonempty in H.
  - rewrite !escapeHtml_cons. intros H.
    apply escaped_prefix_free in H as [-> H]. f_equal. by apply IH.
Qed.

Lemma escapeHtml_injective_witness :
  ReportView.escapeHtml "a<b" = "a&lt;b" ∧ "a<b" = "a<b".
Proof.
  split; [reflexivity|]. apply (escapeHtml_injective "a<b" "a<b"). reflexivity.
Defined.

(** ** Deleting sessions in the popup *)

Lemma refreshSessions_audio (w : World) (k : string) :
  k ∉ audio_key <$> (id <$> sessions (storage w)) →
  audio_entries (storage (Popup.refreshSessions w).2) !! k =
    audio_entries (storage w) !! k.
Proof.
  intros Hk. unfold Popup.refreshSessions. rewrite bind_run. unfold gets at 1.
  rewrite bind_run.
  destruct (legacyAudioMigrationDone (popup w)) eqn:H.
  - by rewrite migrate_done_noop.
  - rewrite migrate_fresh_run by done. simpl.
    rewrite <- (migrate_world_other (sessions (storage w)) w k Hk).
    by destruct (existsb _ (sessions (storage w))).
Qed.

Lemma filter_other_ids (sid : string) (l : list Session) :
  sid ∉ id <$> filter (λ s, id s ≠ sid) l.
Proof.
  intros Hin. apply list_elem_of_fmap in Hin as (s & -> & Hs).
  apply list_elem_of_filter in Hs as [Hne _]. by apply Hne.
Qed.

(** X21: the delete button of a session card.  Declined, it does
    nothing.  Confirmed, it removes every record with the card's id and
    keeps the others in their order, and removes the session's audio
    entry; no message is sent to the coordinator.  The active-session
    pointer is not touched, even when it names the deleted session (the
    popup then still shows a recording in progress), and the jobs
    waiting for their analysis are kept, the deleted session's job
    included. *)
Theorem delete_removes_session (sid : string) (w : World) :
  PopupList.deleteBtn_click false sid w = (inr tt, w) ∧
  ∃ w',
    PopupList.deleteBtn_click true sid w = (inr tt, w') ∧
    shown <$> sessions (storage w') =
      shown <$> filter (λ s, id s ≠ sid) (sessions (storage w)) ∧
    (sid ∉ id <$> sessions (storage w')) ∧
    (sid ≠ "" → audio_entries (storage w') !! audio_key sid = None) ∧
    activeSessionId (storage w') = activeSessionId (storage w) ∧
    isRecording (popup w') = truthy (activeSessionId (storage w)) ∧
    in_flight w' = in_flight w ∧
    effects w' = effects w.
Proof.
  split; [done|].
  unfold PopupList.deleteBtn_click.
  rewrite bind_run. unfold get_sessions at 1, gets at 1. cbv beta iota.
  rewrite bind_run. unfold put_sessions at 1, modify at 1. cbv beta iota.
  rewrite bind_run.
  set (kept := filter (λ s, id s ≠ sid) (sessions (storage w))).
  set (w1 := set_storage (set_sessions kept) w).
  assert (Hclear : ∃ w2, clearSessionAudioBlob sid w1 = (inr tt, w2) ∧
            sessions (storage w2) = kept ∧
            activeSessionId (storage w2) = activeSessionId (storage w) ∧
            in_flight w2 = in_flight w ∧ effects w2 = effects w ∧
            (sid ≠ "" → audio_entries (storage w2) !! audio_key sid = None)).
  { unfold clearSessionAudioBlob. destruct (bool_decide (sid ≠ "")) eqn:Hs.
    - eexists. split; [reflexivity|]. simpl. repeat split; try done.
      intros _. apply lookup_delete_eq.
    - eexists. split; [reflexivity|]. repeat split; try done.
      intros Hne. by rewrite bool_decide_true in Hs. }
  destruct Hclear as (w2 & -> & Hs2 & Ha2 & Hf2 & He2 & Hc2).
  pose proof (refreshSessions_audio w2 (audio_key sid)) as Haudio.
  destruct (refreshSessions_view w2) as (w' & Hrun & He & Hf & _ & _ & _ & _ & Hi & Ha & Hs).
  rewrite Hrun in Haudio |- *. simpl in Haudio.
  exists w'. split; [done|].
  split; [by rewrite Hs, Hs2|].
  split.
  { intros Hin. apply (filter_other_ids sid (sessions (storage w))). fold kept.
    rewrite <- Hs2.
    assert (Hids : id <$> sessions (storage w') = id <$> sessions (storage w2)).
    { pose proof (f_equal (fmap (λ x : string * option string * Status * option string,
                                   fst (fst (fst x)))) Hs) as H.
      by rewrite <- !list_fmap_compose in H. }
    by rewrite <- Hids. }
  split.
  { intros Hne. rewrite Haudio; [by apply Hc2|].
    rewrite Hs2. intros Hin. apply list_elem_of_fmap in Hin as (x & Hx%audio_key_inj & Hin).
    subst x. by apply (filter_other_ids sid (sessions (storage w))). }
  split; [by rewrite Ha, Ha2|]. split; [by rewrite Hi, Ha2|].
  split; [by rewrite Hf, Hf2|by rewrite He, He2].
Qed.

Lemma clear_each_run (l : list Session) (w : World) :
  ∃ r w',
    mapM (λ session, clearSessionAudioBlob (id session)) l w = (inr r, w') ∧
    sessions (storage w') = sessions (storage w) ∧
    activeSessionId (storage w') = activeSessionId (storage w) ∧
    userProfile (storage w') = userProfile (storage w) ∧
    popup w' = popup w ∧ in_flight w' = in_flight w ∧ effects w' = effects w ∧
    (∀ s, s ∈ l → id s ≠ "" → audio_entries (storage w') !! audio_key (id s) = None) ∧
    (∀ k, k ∉ audio_key <$> (id <$> l) →
       audio_entries (storage w') !! k = audio_entries (storage w) !! k).
Proof.
  revert w. induction l as [|x l IH]; intros w.
  - exists [], w. split; [done|]. repeat split; try done.
    intros s Hs. by apply elem_of_nil in Hs.
  - simpl. rewrite bind_run.
    assert (Hx : ∃ w1, clearSessionAudioBlob (id x) w = (inr tt, w1) ∧
              sessions (storage w1) = sessions (storage w) ∧
              activeSessionId (storage w1) = activeSessionId (storage w) ∧
              userProfile (storage w1) = userProfile (storage w) ∧
              popup w1 = popup w ∧ in_flight w1 = in_flight w ∧ effects w1 = effects w ∧
              (id x ≠ "" → audio_entries (storage w1) !! audio_key (id x) = None) ∧
              (∀ k, k ≠ audio_key (id x) →
                 audio_entries (storage w1) !! k = audio_entries (storage w) !! k)).
    { unfold clearSessionAudioBlob. destruct (bool_decide (id x ≠ "")) eqn:Hs.
      - eexists. split; [reflexivity|]. simpl. repeat split; try done.
        + intros _. apply lookup_delete_eq.
        + intros k Hk. by apply lookup_delete_ne.
      - eexists. split; [reflexivity|]. repeat split; try done.
        intros Hne. by rewrite bool_decide_true in Hs. }
    destruct Hx as (w1 & -> & Hs1 & Ha1 & Hu1 & Hp1 & Hf1 & He1 & Hc1 & Ho1).
    rewrite bind_run.
    destruct (IH w1) as (r & w' & -> & Hs & Ha & Hu & Hp & Hf & He & Hc & Ho).
    exists (tt :: r), w'. split; [done|].
    rewrite Hs, Ha, Hu, Hp, Hf, He. repeat split; try done.
    + intros s Hin Hne. apply elem_of_cons in Hin as [->|Hin]; [|by apply Hc].
      destruct (decide (audio_key (id x) ∈ audio_key <$> (id <$> l))) as [Hk|Hk].
      * apply list_elem_of_fmap in Hk as (y & Hy%audio_key_inj & Hk).
        apply list_elem_of_fmap in Hk as (s & -> & Hk).
        rewrite Hy. apply Hc; [done|]. by rewrite <- Hy.
      * rewrite (Ho _ Hk). by apply Hc1.
    + intros k Hk. apply not_elem_of_cons in Hk as [Hne Hk].
      rewrite (Ho _ Hk). by apply Ho1.
Qed.

(** X22: the clear button.  Declined, it does nothing.  Confirmed, it
    empties the session list and removes the audio entry of every session
    that was stored; audio entries under other keys are kept.  The
    active-session pointer, the user profile and the jobs waiting for
    their analysis are left as they were, and no message is sent to the
    coordinator. *)
Theorem clear_removes_all_sessions (w : World) :
  PopupList.clearBtn_click false w = (inr tt, w) ∧
  ∃ w',
    PopupList.clearBtn_click true w = (inr tt, w') ∧
    sessions (storage w') = [] ∧
    (∀ s, s ∈ sessions (storage w) → id s ≠ "" →
       audio_entries (storage w') !! audio_key (id s) = None) ∧
    (∀ k, k ∉ audio_key <$> (id <$> sessions (storage w)) →
       audio_entries (storage w') !! k = audio_entries (storage w) !! k) ∧
    activeSessionId (storage w') = activeSessionId (storage w) ∧
    userProfile (storage w') = userProfile (storage w) ∧
    in_flight w' = in_flight w ∧
    effects w' = effects w.
Proof.
  split; [done|].
  unfold PopupList.clearBtn_click.
  rewrite bind_run. unfold get_sessions at 1, gets at 1. cbv beta iota.
  rewrite bind_run.
  destruct (clear_each_run (sessions (storage w)) w)
    as (r & w1 & -> & Hs1 & Ha1 & Hu1 & Hp1 & Hf1 & He1 & Hc1 & Ho1).
  rewrite bind_run. unfold put_sessions at 1, modify at 1. cbv beta iota.
  set (w2 := set_storage (set_sessions []) w1).
  unfold Popup.refreshSessions. rewrite bind_run. unfold gets at 1. rewrite bind_run.
  assert (Hmig : ∃ w3, Popup.migrateLegacySessionAudio (sessions (storage w2)) w2 =
                         (inr [], w3) ∧ storage w3 = storage w2 ∧
                       in_flight w3 = in_flight w2 ∧ effects w3 = effects w2).
  { destruct (legacyAudioMigrationDone (popup w2)) eqn:H.
    - rewrite migrate_done_noop by done. by eexists.
    - rewrite migrate_fresh_run by done. by eexists. }
  destruct Hmig as (w3 & -> & Hst3 & Hf3 & He3).
  eexists. split; [reflexivity|]. simpl. rewrite Hst3, Hf3, He3. simpl.
  repeat split; try done.
Qed.

(** ** The analysis of a session that is no longer stored *)

Lemma only_a_tab_refl (sid : string) (w : World) : only_a_tab sid w w.
Proof. repeat split; by left. Qed.

Lemma tab_only_a_tab (sid : string) (w : World) :
  only_a_tab sid w (openReportTab (Some sid) w).2.
Proof.
  unfold openReportTab. unfold_m. simpl.
  destruct (bool_decide (sid ≠ "") && negb (bool_decide (sid ∈ autoOpenedReportSessions w)));
    simpl; repeat split; eauto.
Qed.

Lemma complete_orphan (env : Env) (sid : string) (r : option AnalysisResult)
    (e : option string) (w : World) :
  sid ∉ id <$> sessions (storage w) →
  only_a_tab sid w (onMessage env (OFFSCREEN_ANALYSIS_COMPLETE (Some sid) r e) w).2.
Proof.
  intros Hnew. unfold onMessage. rewrite try_catch_run.
  unfold onOFFSCREEN_ANALYSIS_COMPLETE.
  destruct (bool_decide (sid ≠ "")); [|apply only_a_tab_refl].
  destruct (truthy e).
  - rewrite bind_run, (updateSession_unknown _ _ _ Hnew). apply only_a_tab_refl.
  - rewrite bind_run, (updateSession_unknown _ _ _ Hnew). rewrite bind_run.
    destruct (negb (is_error_status r) && truthy (r ≫= r_session_report)).
    + pose proof (openReportTab_ok (Some sid) w) as Hok.
      pose proof (tab_only_a_tab sid w) as Ht.
      destruct (openReportTab (Some sid) w) as [res w1]. simpl in Hok. by subst res.
    + apply only_a_tab_refl.
Qed.

Lemma analyse_orphan (env : Env) (job : Job) (w : World) :
  job_sessionId job ∉ id <$> sessions (storage w) →
  ∃ w', analyseSessionAudioJob env job w = (inr tt, w') ∧
        only_a_tab (job_sessionId job) w w'.
Proof.
  intros Hnew. unfold analyseSessionAudioJob.
  destruct (has_offscreen env); simpl.
  - rewrite try_catch_run. unfold dispatchOffscreenAnalysis.
    destruct (offscreen_channel env) as [e|].
    + unfold throw at 1. rewrite (updateSession_unknown _ _ _ Hnew).
      eexists. split; [reflexivity|apply only_a_tab_refl].
    + rewrite bind_run. unfold Offscreen.onMessage. rewrite try_catch_run, bind_run.
      assert (Hrun : ∃ res, Offscreen.runBackendAnalysis env job w = (res, w)).
      { unfold Offscreen.runBackendAnalysis. destruct (_ || _); [by eexists|].
        destruct (analyze_endpoint env) as [e|ok code body]; [by eexists|].
        destruct ok; by eexists. }
      destruct Hrun as [[e|result] ->].
      * rewrite bind_run.
        destruct (complete_ok env (Some (job_sessionId job)) None (Some (error_text e)) w)
          as (resp & Hr).
        pose proof (complete_orphan env (job_sessionId job) None (Some (error_text e)) w
                      Hnew) as Ht.
        destruct (onMessage env _ w) as [r0 w0]. simpl in Hr, Ht. subst r0.
        unfold mret at 1, M_ret, ret. unfold throw at 1.
        assert (Hnew0 : job_sessionId job ∉ id <$> sessions (storage w0)).
        { destruct Ht as [-> _]. done. }
        rewrite (updateSession_unknown _ _ _ Hnew0). by eexists.
      * rewrite bind_run.
        destruct (complete_ok env (Some (job_sessionId job)) (Some result) None w)
          as (resp & Hr).
        pose proof (complete_orphan env (job_sessionId job) (Some result) None w Hnew)
          as Ht.
        destruct (onMessage env _ w) as [r0 w0]. simpl in Hr, Ht. subst r0. by eexists.
  - rewrite try_catch_run, bind_run.
    assert (Hrun : ∃ res, requestBackendAnalysis env w = (res, w)).
    { unfold requestBackendAnalysis.
      destruct (analyze_endpoint env) as [e|ok code body]; [by eexists|].
      destruct ok; by eexists. }
    destruct Hrun as [[e|result] ->].
    + rewrite (updateSession_unknown _ _ _ Hnew).
      eexists. split; [reflexivity|apply only_a_tab_refl].
    + rewrite bind_run, (updateSession_unknown _ _ _ Hnew).
      destruct (negb (is_error_status (Some result)) && truthy (r_session_report result)).
      * pose proof (openReportTab_ok (Some (job_sessionId job)) w) as Hok.
        pose proof (tab_only_a_tab (job_sessionId job) w) as Ht.
        destruct (openReportTab _ w) as [res w1]. simpl in Hok. subst res. by eexists.
      * eexists. split; [reflexivity|apply only_a_tab_refl].
Qed.

(** X23: the analysis of a session that is no longer stored (deleted in
    the popup while its job was waiting).  When the job settles, its
    result is dropped: the job returns normally and the store is exactly
    as before, so the session does not come back and no audio entry is
    written.  The only visible effect there can be is one report tab,
    opened for the id of the missing session; on the in-worker path it is
    opened whenever the analysis succeeded with a report and no tab was
    open for that id. *)
Theorem orphan_job_result_dropped (env : Env) (w : World) (j : Job) (rest : list Job) :
  in_flight w = j :: rest →
  job_sessionId j ∉ id <$> sessions (storage w) →
  let w' := step w (Settle env) in
  (settle env w).1 = inr tt ∧
  storage w' = storage w ∧
  in_flight w' = rest ∧
  (effects w' = effects w ∨ effects w' = effects w ++ [TabCreated (job_sessionId j)]) ∧
  (∀ code data,
     has_offscreen env = false →
     analyze_endpoint env = FetchResponse true code (Some data) →
     r_status data ≠ Some "error" → truthy (r_session_report data) = true →
     job_sessionId j ≠ "" → job_sessionId j ∉ autoOpenedReportSessions w →
     effects w' = effects w ++ [TabCreated (job_sessionId j)]).
Proof.
  intros Hfl Hnew w'. subst w'. change (step w (Settle env)) with (settle env w).2.
  set (w0 := set_in_flight (λ _, rest) w).
  assert (Hnew0 : job_sessionId j ∉ id <$> sessions (storage w0)) by done.
  destruct (analyse_orphan env j w0 Hnew0) as (w1 & Hrun & Hst & Hf & He).
  assert (Hsettle : settle env w = (inr tt, w1)).
  { unfold settle. rewrite bind_run. unfold gets at 1. rewrite Hfl.
    rewrite bind_run. unfold modify at 1. rewrite try_catch_run. fold w0.
    by rewrite Hrun. }
  rewrite Hsettle. simpl.
  split; [done|]. split; [by rewrite Hst|]. split; [by rewrite Hf|].
  split; [exact He|].
  intros code data Hoff Hresp Hstatus Hreport Hsid Hopen.
  assert (Hrun' : analyseSessionAudioJob env j w0 =
            (inr tt, logged [TabCreated (job_sessionId j)]
                       (set_autoOpened (λ o, {[job_sessionId j]} ∪ o) w0))).
  { unfold analyseSessionAudioJob. rewrite Hoff. simpl.
    rewrite try_catch_run, bind_run. unfold requestBackendAnalysis. rewrite Hresp.
    simpl. unfold mret at 1, M_ret, ret.
    rewrite bind_run, (updateSession_unknown _ _ _ Hnew0).
    unfold is_error_status. simpl.
    rewrite (bool_decide_false (r_status data = Some "error")) by done.
    rewrite Hreport. simpl.
    rewrite (openReportTab_run _ _ Hsid).
    by rewrite (bool_decide_false (job_sessionId j ∈ autoOpenedReportSessions w0)). }
  rewrite Hrun' in Hrun. by injection Hrun as <-.
Qed.

Lemma orphan_job_result_dropped_witness :
  storage (step orphan_world (Settle reporting_env)) = storage orphan_world ∧
  effects (step orphan_world (Settle reporting_env)) =
    effects orphan_world ++ [TabCreated "session-1"].
Proof.
  pose proof (orphan_job_result_dropped reporting_env orphan_world queued_job []) as H.
  destruct H as (_ & H1 & _ & _ & H2).
  - vm_compute. reflexivity.
  - vm_compute. apply not_elem_of_nil.
  - split; [exact H1|].
    apply (H2 200%N {| r_title := Some "T"; r_session_report := Some "## Summary";
                       r_status := Some "ok"; r_error := None |}).
    + reflexivity.
    + reflexivity.
    + simpl. congruence.
    + reflexivity.
    + simpl. congruence.
    + intros Hin. vm_compute in Hin. discriminate Hin.
Defined.

(** ** Regenerating from the popup *)

Lemma getSessionById_found (sid : string) (w : World) (i : nat) (s : Session) :
  findIndex sid (sessions (storage w)) = Some (i, s) →
  getSessionById (Some sid) w = (inr (Some s), w).
Proof.
  intros Hfind. unfold getSessionById. rewrite bind_run.
  unfold get_sessions, gets at 1. cbv beta iota. by rewrite Hfind.
Qed.

Lemma popup_resolve_cached (env : Env) (session : Session) (c : string) (w : World) :
  truthy (audio_base64 session) = false →
  loadSessionAudioBlob (id session) w = (inr (Some c), w) →
  Popup.resolveSessionAudio env session w = (inr (Some c), w) ∧ c ≠ "".
Proof.
  intros Hinline Hload. unfold Popup.resolveSessionAudio.
  rewrite Hinline, bind_run, Hload.
  pose proof (load_Some_truthy (id session) c w) as Hc. rewrite Hload in Hc.
  specialize (Hc eq_refl). simpl. by rewrite bool_decide_true.
Qed.

(** X24: regenerating a stored session from the popup when its audio is
    in the local cache.  The popup marks the session [processing] and
    sends the cached audio to the coordinator with the session's own
    audio type (or "audio/webm"); the coordinator accepts and exactly one
    job for this session, carrying the cached audio, is added to the
    waiting ones.  No alert is raised and nothing is asked of the remote
    service.  While the new analysis is waiting, the session keeps the
    title and the report of the previous analysis. *)
Theorem popup_regenerate_submits_cached_audio
    (env : Env) (sid c : string) (w : World) (i : nat) (s : Session) :
  sid ≠ "" →
  findIndex sid (sessions (storage w)) = Some (i, s) →
  truthy (audio_base64 s) = false →
  loadSessionAudioBlob sid w = (inr (Some c), w) →
  ∃ w' job,
    Popup.regenerateSession env sid w = (inr tt, w') ∧
    effects w' =
      effects w ++
        [Sent (PROCESS_SESSION_AUDIO
                 (Some {| sessionId := Some sid; audioBase64 := Some c;
                          mimeType := Some (or_str (audio_mime_type s) "audio/webm");
                          isRegeneration := true |}))] ∧
    in_flight w' = in_flight w ++ [job] ∧
    job_sessionId job = sid ∧ job_audio job = c ∧
    activeSessionId (storage w') = activeSessionId (storage w) ∧
    shown <$> sessions (storage w') =
      <[i := (sid, title s, processing, session_report s)]>
        (shown <$> sessions (storage w)).
Proof.
  intros Hsid Hfind Hinline Hload.
  pose proof (findIndex_Some _ _ _ _ Hfind) as (Hi & Hid & _).
  unfold Popup.regenerateSession.
  rewrite bind_run, (getSessionById_found _ _ _ _ Hfind). cbv beta iota.
  rewrite bind_run.
  rewrite <- Hid in Hload.
  destruct (popup_resolve_cached env s c w Hinline Hload) as [-> Hc].
  cbv beta iota.
  assert (Ht : truthy (Some c) = true) by (simpl; by rewrite bool_decide_true).
  rewrite Ht. cbn [negb].
  rewrite bind_run, (popup_patch_found _ _ _ _ _ Hfind). cbv beta iota.
  set (w1 := popup_write i s sid (status_patch processing) w).
  assert (Hshown1 : shown <$> sessions (storage w1) =
            <[i := (sid, title s, processing, session_report s)]>
              (shown <$> sessions (storage w))).
  { subst w1. simpl. rewrite list_fmap_insert. f_equal. unfold shown. simpl. by rewrite Hid. }
  assert (Hfind1 : findIndex sid (sessions (storage w1)) =
            Some (i, popup_patched s (status_patch processing))).
  { subst w1. simpl. unfold findIndex in *.
    apply list_find_Some in Hfind as (_ & _ & Hbefore).
    apply list_find_Some. split; [apply list_lookup_insert_eq; by eapply lookup_lt_Some|].
    split; [done|]. intros j y Hj Hlt.
    rewrite list_lookup_insert_ne in Hj by lia. by apply (Hbefore j y). }
  rewrite bind_run.
  destruct (refreshSessions_view w1) as (w2 & -> & He2 & Hf2 & _ & _ & _ & _ & _ & Ha2 & Hs2).
  cbv beta iota.
  destruct (findIndex_shown sid (sessions (storage w1)) (sessions (storage w2)) i
              (popup_patched s (status_patch processing)) Hs2 Hfind1) as (s2 & Hfind2 & Hshown2).
  rewrite bind_run, try_catch_run, bind_run, send_run.
  set (w2' := logged [Sent _] w2).
  assert (Hfind2' : findIndex sid (sessions (storage w2')) = Some (i, s2)) by done.
  rewrite (process_inline_run env sid c (Some (or_str (audio_mime_type s) "audio/webm"))
             true w2' i s2 Hsid Hc Hfind2').
  cbv beta iota. unfold mret at 1, M_ret, ret. cbv beta iota.
  match goal with
  | |- context [Popup.refreshSessions ?w0] =>
      destruct (refreshSessions_view w0)
        as (w' & -> & He & Hf & _ & _ & _ & _ & _ & Ha & Hs)
  end.
  exists w', (inline_job sid c (Some (or_str (audio_mime_type s) "audio/webm")) s2).
  split; [done|].
  split; [rewrite He; simpl; by rewrite He2|].
  split; [rewrite Hf; simpl; by rewrite Hf2|].
  split; [done|]. split; [done|].
  split; [rewrite Ha; simpl; by rewrite Ha2|].
  rewrite Hs. simpl. rewrite list_fmap_insert, Hs2, Hshown1.
  rewrite list_insert_insert_eq. f_equal.
  unfold shown in *. rewrite patched_id, patched_status, patched_report. simpl.
  injection Hshown2 as -> -> _ ->. unfold popup_patched. simpl. by rewrite Hid.
Qed.

Lemma popup_regenerate_submits_cached_audio_witness :
  ∃ w' job,
    Popup.regenerateSession silent_env "session-1" waiting_world = (inr tt, w') ∧
    in_flight w' = in_flight waiting_world ++ [job] ∧
    job_audio job = "QUJD".
Proof.
  destruct (popup_regenerate_submits_cached_audio silent_env "session-1" "QUJD"
              waiting_world 0 waiting_session)
    as (w' & job & H1 & _ & H2 & _ & H3 & _).
  - congruence.
  - vm_compute. reflexivity.
  - reflexivity.
  - vm_compute. reflexivity.
  - exists w', job. by repeat split.
Defined.

(** ** A recording without a session to attach it to *)

Lemma process_unknown_run (env : Env) (sid : string) (a mime : option string) (r : bool)
    (w : World) :
  sid ≠ "" → sid ∉ id <$> sessions (storage w) →
  onMessage env
    (PROCESS_SESSION_AUDIO
       (Some {| sessionId := Some sid; audioBase64 := a; mimeType := mime;
                isRegeneration := r |})) w = (inr (RespOk None), w).
Proof.
  intros Hsid Hnew%findIndex_None.
  unfold onMessage, onPROCESS_SESSION_AUDIO. rewrite try_catch_run. simpl.
  rewrite (bool_decide_true (sid ≠ "")) by done.
  rewrite bind_run, try_catch_run.
  unfold beginSessionAudioJob, getSessionById. unfold_m. simpl. by rewrite Hnew.
Qed.

Lemma process_missing_id_run (env : Env) (sid a mime : option string) (r : bool)
    (w : World) :
  truthy sid = false →
  onMessage env
    (PROCESS_SESSION_AUDIO
       (Some {| sessionId := sid; audioBase64 := a; mimeType := mime;
                isRegeneration := r |})) w = (inr (RespError "Missing sessionId."), w).
Proof.
  intros Hsid. unfold onMessage, onPROCESS_SESSION_AUDIO. rewrite try_catch_run. simpl.
  by rewrite Hsid.
Qed.

(** The first steps of [onstop] on a recording with data: both streams
    are released, and the branch that submits the audio is taken. *)
Ltac onstop_with_data Hchunks :=
  unfold Popup.onstop;
  rewrite bind_run; unfold gets at 1; cbv beta iota;
  rewrite bind_run; unfold gets at 1; cbv beta iota;
  rewrite bind_run, stop_tracks_run; rewrite bind_run, stop_tracks_run;
  rewrite bind_run; unfold gets at 1; cbv beta iota;
  change (currentSessionId (popup (logged _ (logged _ ?w)))) with (currentSessionId (popup w));
  rewrite (bool_decide_false (length _ = 0))
    by (destruct (filter _ _); [done|simpl; lia]);
  rewrite (bool_decide_false (foldr N.add 0%N _ = 0%N)) by (by apply chunks_with_data_sum);
  rewrite bind_run, try_catch_run, bind_run, send_run.

(** X26: a recording that ends with data but without a session the
    coordinator knows.  When the popup's current session id names no
    stored session, the recorded audio is sent and the coordinator
    answers [ok] without starting a job: the popup raises no alert and
    the recording is lost.  When the popup has no current session id,
    the coordinator refuses the audio ("Missing sessionId."); the popup
    then reports the failure, which is refused for the same reason, and
    alerts the user.  In both cases the stored sessions and the waiting
    jobs are as before. *)
Theorem recording_lost_without_session (env : Env) (dev : Devices) (w : World) :
  filter (λ n, (0 < n)%N) (recorded_chunks dev) ≠ [] →
  let released :=
    (TrackStopped <$> default [] (displayStreamRef (popup w))) ++
    (TrackStopped <$> default [] (micStreamRef (popup w))) in
  let audio :=
    λ current, PROCESS_SESSION_AUDIO
                 (Some {| sessionId := current; audioBase64 := Some (recorded_base64 dev);
                          mimeType := Some "audio/webm"; isRegeneration := false |}) in
  (∀ sid, currentSessionId (popup w) = Some sid → sid ≠ "" →
     sid ∉ id <$> sessions (storage w) →
     ∃ w', Popup.onstop env dev w = (inr tt, w') ∧
           effects w' = effects w ++ released ++ [Sent (audio (Some sid))] ∧
           in_flight w' = in_flight w ∧
           shown <$> sessions (storage w') = shown <$> sessions (storage w) ∧
           currentSessionId (popup w') = None) ∧
  (truthy (currentSessionId (popup w)) = false →
     ∃ w', Popup.onstop env dev w = (inr tt, w') ∧
           effects w' =
             effects w ++ released ++
               [Sent (audio (currentSessionId (popup w)));
                Sent (Popup.error_report (currentSessionId (popup w))
                        (Some "خطا در تحلیل")
                        ("خطا در ارسال فایل برای تحلیل: " +:+ "Missing sessionId.") None);
                Alerted "Missing sessionId."] ∧
           in_flight w' = in_flight w ∧
           shown <$> sessions (storage w') = shown <$> sessions (storage w) ∧
           currentSessionId (popup w') = None).
Proof.
  intros Hchunks released audio. subst released audio. split.
  - intros sid Hcur Hsid Hnew. onstop_with_data Hchunks. rewrite Hcur.
    set (w1 := logged [Sent _] _).
    assert (Hnew1 : sid ∉ id <$> sessions (storage w1)) by done.
    rewrite (process_unknown_run env sid _ _ _ w1 Hsid Hnew1).
    cbv beta iota. unfold mret at 1, M_ret, ret. cbv beta iota.
    rewrite bind_run. unfold modify at 1. cbv beta iota.
    set (w3 := set_popup _ _).
    destruct (refreshSessions_view w3) as (w' & -> & He & Hf & _ & Hc & _ & _ & _ & _ & Hs).
    exists w'. split; [done|].
    split; [rewrite He; simpl; by rewrite <- !app_assoc|].
    split; [by rewrite Hf|]. split; [by rewrite Hs|]. by rewrite Hc.
  - intros Hcur. onstop_with_data Hchunks.
    set (current := currentSessionId (popup w)) in *.
    set (w1 := logged [Sent _] _).
    rewrite (process_missing_id_run env current _ _ _ w1 Hcur).
    cbv beta iota. unfold throw at 1. cbv beta iota.
    rewrite bind_run, send_run. unfold Popup.error_report at 1.
    rewrite report_ready_run. simpl rr_sessionId. rewrite Hcur.
    unfold Popup.alert, emit at 1, modify at 1. cbv beta iota.
    rewrite bind_run. unfold modify at 1. cbv beta iota.
    set (w3 := set_popup _ _).
    destruct (refreshSessions_view w3) as (w' & -> & He & Hf & _ & Hc & _ & _ & _ & _ & Hs).
    exists w'. split; [done|].
    split; [rewrite He; simpl; by rewrite <- !app_assoc|].
    split; [by rewrite Hf|]. split; [by rewrite Hs|]. by rewrite Hc.
Qed.

Lemma recording_lost_without_session_witness :
  ∃ w', Popup.onstop silent_env recording_devices (recording_popup initial_world "ghost") =
          (inr tt, w') ∧
        in_flight w' = [] ∧ sessions (storage w') = [] ∧
        effects w' =
          [TrackStopped {| track_kind := AudioTrack; track_label := "tab" |};
           Sent (submit "ghost" "QUJD")].
Proof.
  destruct (recording_lost_without_session silent_env recording_devices
              (recording_popup initial_world "ghost")) as [H _].
  - vm_compute. congruence.
  - destruct (H "ghost" eq_refl) as (w' & H1 & H2 & H3 & H4 & _).
    + congruence.
    + simpl. apply not_elem_of_nil.
    + exists w'. split; [exact H1|]. split; [exact H3|].
      split; [by apply fmap_nil_inv in H4|exact H2].
Defined.

(** * Interleaved handlers *)

(** ** A task run with nothing in between is the script of the same name *)

Arguments call : simpl never.
Arguments sync : simpl never.
Arguments hop : simpl never.

Lemma finish_bind {A B} (t : Task A) (k : A → Task B) (w : World) :
  finish (t ≫= k) w =
    match finish t w with
    | (inr x, w') => finish (k x) w'
    | (inl e, w') => (inl e, w')
    end.
Proof.
  revert w. induction t as [[e|x]|write next IH|kind rest IH]; intros w; simpl; auto.
Qed.

Lemma finish_catch {A} (t : Task A) (h : JsError → Task A) (w : World) :
  finish (catchT t h) w =
    match finish t w with
    | (inr x, w') => (inr x, w')
    | (inl e, w') => finish (h e) w'
    end.
Proof.
  revert w. induction t as [[e|x]|write next IH|kind rest IH]; intros w; simpl; auto.
Qed.

Lemma finish_call {A} (kind : Wait) (m : M A) (w : World) : finish (call kind m) w = m w.
Proof. unfold call. simpl. by destruct (m w). Qed.

Lemma finish_sync {A} (m : M A) (w : World) : finish (sync m) w = m w.
Proof. unfold sync. simpl. by destruct (m w). Qed.

Lemma finish_ret {A} (x : A) (w : World) : finish (mret x) w = (inr x, w).
Proof. done. Qed.

Lemma finish_hop (w : World) : finish hop w = (inr tt, w).
Proof. done. Qed.

Ltac finish_step :=
  first
    [ rewrite finish_bind
    | rewrite finish_catch
    | rewrite finish_call
    | rewrite finish_sync
    | rewrite finish_hop
    | rewrite finish_ret
    | rewrite bind_run
    | rewrite try_catch_run ].

Lemma finish_persist sid audio w :
  finish (Async.persistSessionAudioBlob sid audio) w = persistSessionAudioBlob sid audio w.
Proof.
  unfold Async.persistSessionAudioBlob, persistSessionAudioBlob.
  destruct audio as [a|]; [|done]. by destruct (_ && _).
Qed.

Lemma finish_clear sid w :
  finish (Async.clearSessionAudioBlob sid) w = clearSessionAudioBlob sid w.
Proof.
  unfold Async.clearSessionAudioBlob, clearSessionAudioBlob. by case_bool_decide.
Qed.

Lemma finish_load sid w :
  finish (Async.loadSessionAudioBlob sid) w = loadSessionAudioBlob sid w.
Proof.
  unfold Async.loadSessionAudioBlob, loadSessionAudioBlob. by case_bool_decide.
Qed.

Lemma finish_getSessionById sid w :
  finish (Async.getSessionById sid) w = getSessionById sid w.
Proof. done. Qed.

Lemma finish_fetch env u sid w :
  finish (Async.fetchSessionAudioFromBackend env u sid) w =
    fetchSessionAudioFromBackend env u sid w.
Proof.
  unfold Async.fetchSessionAudioFromBackend.
  destruct u as [u|]; [|done].
  destruct (_ && _) eqn:Hg; [by rewrite finish_call|].
  unfold fetchSessionAudioFromBackend. by rewrite Hg.
Qed.

Lemma finish_getUserProfile env w :
  finish (Async.getUserProfile env) w = getUserProfile env w.
Proof.
  unfold Async.getUserProfile, getUserProfile. unfold_m. simpl.
  destruct (userProfile (storage w)) as [p|]; [|done]. by destruct (_ && _).
Qed.

Lemma finish_pushSession s w : finish (Async.pushSession s) w = pushSession s w.
Proof. done. Qed.

Lemma finish_updateSession sid patch w :
  finish (Async.updateSession sid patch) w = updateSession sid patch w.
Proof.
  unfold Async.updateSession, updateSession.
  rewrite finish_bind, finish_call, bind_run. unfold get_sessions, gets.
  destruct (findIndex sid (sessions (storage w))) as [[idx found]|]; [|done].
  rewrite finish_bind, bind_run.
  destruct (p_audio_base64 patch) as [audio|]; [|done].
  destruct (truthy audio).
  - rewrite finish_bind, bind_run, finish_persist.
    by destruct (persistSessionAudioBlob sid audio w) as [[e|[]] w1].
  - rewrite finish_bind, bind_run, finish_clear.
    by destruct (clearSessionAudioBlob sid w) as [[e|[]] w1].
Qed.

Lemma finish_openReportTab sid w :
  finish (Async.openReportTab sid) w = openReportTab sid w.
Proof.
  unfold Async.openReportTab, openReportTab.
  rewrite finish_bind, finish_sync, bind_run. unfold gets.
  destruct sid as [s|]; [|done]. by destruct (_ && _).
Qed.

Lemma finish_ensureAudio env session provided mime w :
  finish (Async.ensureAudioForSession env session provided mime) w =
    ensureAudioForSession env session provided mime w.
Proof.
  unfold Async.ensureAudioForSession, ensureAudioForSession.
  destruct (truthy provided); [done|].
  rewrite finish_bind, bind_run, finish_load.
  destruct (loadSessionAudioBlob (id session) w) as [[e|cached] w1]; [done|].
  destruct (truthy cached); [done|].
  rewrite finish_bind, bind_run, finish_fetch.
  destruct (fetchSessionAudioFromBackend env (user_id session) (id session) w1)
    as [[e|downloaded] w2]; [done|].
  destruct (truthy (downloaded ≫= a_audio_base64)); [|done].
  rewrite finish_bind, bind_run, finish_persist.
  destruct (persistSessionAudioBlob _ _ w2) as [[e|[]] w3]; [done|].
  rewrite finish_bind, bind_run, finish_updateSession.
  by destruct (updateSession _ _ w3) as [[e|[]] w4].
Qed.

Lemma finish_start env w :
  finish (Async.onSTART_RECORDING env) w = onSTART_RECORDING env w.
Proof.
  unfold Async.onSTART_RECORDING, onSTART_RECORDING.
  rewrite finish_bind, bind_run, finish_getUserProfile.
  by destruct (getUserProfile env w) as [[e|p] w1].
Qed.

Lemma finish_stop w : finish Async.onSTOP_RECORDING w = onSTOP_RECORDING w.
Proof.
  unfold Async.onSTOP_RECORDING, onSTOP_RECORDING.
  rewrite finish_bind, finish_call, bind_run. unfold gets.
  destruct (activeSessionId (storage w)) as [a|]; [|done].
  case_bool_decide; [|done].
  rewrite finish_bind, bind_run, finish_updateSession.
  by destruct (updateSession a _ w) as [[e|[]] w1].
Qed.

Lemma finish_complete sid result error w :
  finish (Async.onOFFSCREEN_ANALYSIS_COMPLETE sid result error) w =
    onOFFSCREEN_ANALYSIS_COMPLETE sid result error w.
Proof.
  unfold Async.onOFFSCREEN_ANALYSIS_COMPLETE, onOFFSCREEN_ANALYSIS_COMPLETE.
  destruct sid as [s|]; [|done]. case_bool_decide; [|done].
  destruct (truthy error).
  - rewrite finish_bind, bind_run, finish_updateSession.
    by destruct (updateSession s _ w) as [[e|[]] w1].
  - rewrite finish_bind, bind_run, finish_updateSession.
    destruct (updateSession s _ w) as [[e|[]] w1]; [done|].
    rewrite finish_bind, bind_run.
    destruct (_ && _).
    + rewrite finish_openReportTab. by destruct (openReportTab _ w1) as [[e|[]] w2].
    + done.
Qed.

Lemma finish_report_ready payload w :
  finish (Async.onSESSION_REPORT_READY payload) w = onSESSION_REPORT_READY payload w.
Proof.
  unfold Async.onSESSION_REPORT_READY, onSESSION_REPORT_READY.
  destruct payload as [p|]; [|done]. destruct (rr_sessionId p) as [s|]; [|done].
  case_bool_decide; [|done].
  rewrite finish_bind, bind_run, finish_updateSession.
  by destruct (updateSession s _ w) as [[e|[]] w1].
Qed.

(** The job's own code is not part of the listener of the interleaved
    model: for every other message the two listeners agree. *)
Lemma finish_onMessage env msg w :
  (∀ payload, msg ≠ PROCESS_SESSION_AUDIO payload) →
  finish (Async.onMessage env msg) w = onMessage env msg w.
Proof.
  intros Hmsg. unfold Async.onMessage, onMessage.
  rewrite finish_catch, try_catch_run.
  destruct msg as [| |payload|sid result error|payload|action].
  - by rewrite finish_start.
  - by rewrite finish_stop.
  - by destruct (Hmsg payload).
  - by rewrite finish_complete.
  - by rewrite finish_report_ready.
  - done.
Qed.

Lemma finish_offscreen env job w :
  finish (Async.offscreen_onMessage env job) w = Offscreen.onMessage env job w.
Proof.
  unfold Async.offscreen_onMessage, Offscreen.onMessage.
  rewrite finish_catch, try_catch_run, finish_bind, bind_run.
  assert (Hrun : finish (Async.offscreen_runBackendAnalysis env job) w =
                 Offscreen.runBackendAnalysis env job w).
  { unfold Async.offscreen_runBackendAnalysis.
    destruct (_ || _) eqn:Hg; [|by rewrite finish_call].
    unfold Offscreen.runBackendAnalysis. by rewrite Hg. }
  rewrite Hrun.
  assert (Hcatch : ∀ error w0,
    finish (hop;;
            _ ← Async.onMessage env
                  (OFFSCREEN_ANALYSIS_COMPLETE (Some (job_sessionId job)) None
                     (Some (error_text error)));
            hop;;
            mret (RespError (error_text error))) w0 =
    (_ ← onMessage env
           (OFFSCREEN_ANALYSIS_COMPLETE (Some (job_sessionId job)) None
              (Some (error_text error)));
     mret (RespError (error_text error))) w0).
  { intros error w0.
    rewrite finish_bind, finish_hop, finish_bind, bind_run, finish_onMessage by done.
    destruct (onMessage env _ w0) as [[e'|r] w2]; [done|].
    by rewrite finish_bind, finish_hop. }
  destruct (Offscreen.runBackendAnalysis env job w) as [[e|result] w1]; [apply Hcatch|].
  rewrite finish_bind, finish_hop, finish_bind, bind_run, finish_onMessage by done.
  destruct (onMessage env _ w1) as [[e'|r] w2]; [apply Hcatch|].
  by rewrite finish_bind, finish_hop.
Qed.

Lemma finish_dispatch env job w :
  finish (Async.dispatchOffscreenAnalysis env job) w = dispatchOffscreenAnalysis env job w.
Proof.
  unfold Async.dispatchOffscreenAnalysis, dispatchOffscreenAnalysis.
  destruct (offscreen_channel env) as [e|]; [by rewrite finish_call|].
  rewrite finish_bind, finish_hop, finish_bind, finish_hop.
  rewrite finish_bind, bind_run, finish_offscreen.
  destruct (Offscreen.onMessage env job w) as [[e|r] w1]; [done|].
  rewrite finish_bind, finish_hop. by destruct r.
Qed.

Lemma finish_analyse env job w :
  finish (Async.analyseSessionAudioJob env job) w = analyseSessionAudioJob env job w.
Proof.
  unfold Async.analyseSessionAudioJob, analyseSessionAudioJob.
  destruct (negb (has_offscreen env)).
  - rewrite finish_catch, try_catch_run, finish_bind, bind_run.
    unfold Async.requestBackendAnalysis. rewrite finish_call.
    destruct (requestBackendAnalysis env w) as [[e|result] w1].
    + by rewrite finish_updateSession.
    + rewrite finish_bind, bind_run, finish_updateSession.
      destruct (updateSession _ _ w1) as [[e|[]] w2]; [by rewrite finish_updateSession|].
      destruct (_ && _); [|done].
      rewrite finish_openReportTab.
      destruct (openReportTab _ w2) as [[e|[]] w3]; [by rewrite finish_updateSession|done].
  - rewrite finish_catch, try_catch_run, finish_dispatch.
    destruct (dispatchOffscreenAnalysis env job w) as [[e|[]] w1];
      [by rewrite finish_updateSession|done].
Qed.

Lemma finish_process env payload w :
  finish (Async.processSessionAudioJob env payload) w = processSessionAudioJob env payload w.
Proof.
  unfold Async.processSessionAudioJob, processSessionAudioJob, beginSessionAudioJob.
  rewrite finish_bind, finish_getSessionById, !bind_run.
  destruct (getSessionById (sessionId payload) w) as [[e|session] w1]; [done|].
  destruct session as [session|]; [|done].
  destruct (sessionId payload) as [sid|]; [|done].
  rewrite finish_bind, finish_ensureAudio, bind_run.
  destruct (ensureAudioForSession env session _ _ w1) as [[e|resolved] w2]; [done|].
  destruct (resolved.1) as [readyAudio|].
  - case_bool_decide.
    + rewrite finish_bind, finish_updateSession, !bind_run.
      destruct (updateSession sid _ w2) as [[e|[]] w3]; [done|].
      rewrite finish_bind, finish_sync. unfold_m. simpl.
      by rewrite finish_analyse.
    + rewrite finish_updateSession, bind_run.
      by destruct (updateSession sid _ w2) as [[e|[]] w3].
  - rewrite finish_updateSession, bind_run.
    by destruct (updateSession sid _ w2) as [[e|[]] w3].
Qed.

(** ** Tasks that wait for nothing but storage and the platform *)

Lemma quiet_ret {A} (x : A) : quiet (mret x : Task A).
Proof. done. Qed.

Lemma quiet_bind {A B} (t : Task A) (k : A → Task B) :
  quiet t → (∀ x, quiet (k x)) → quiet (t ≫= k).
Proof.
  intros Ht Hk. induction t as [[e|x]|write next IH|kind rest IH]; simpl in *.
  - done.
  - apply Hk.
  - intros w. by apply IH.
  - destruct Ht. split; [done|]. by apply IH.
Qed.

Lemma quiet_catch {A} (t : Task A) (h : JsError → Task A) :
  quiet t → (∀ e, quiet (h e)) → quiet (catchT t h).
Proof.
  intros Ht Hk. induction t as [[e|x]|write next IH|kind rest IH]; simpl in *.
  - apply Hk.
  - done.
  - intros w. by apply IH.
  - destruct Ht. split; [done|]. by apply IH.
Qed.

Lemma quiet_call {A} (kind : Wait) (m : M A) : is_network kind = false → quiet (call kind m).
Proof. intros Hk w. by split. Qed.

Lemma quiet_sync {A} (m : M A) : quiet (sync m).
Proof. by intros w. Qed.

Ltac quiet_step :=
  lazymatch goal with
  | |- quiet (mret _) => apply quiet_ret
  | |- quiet (call _ _) => by apply quiet_call
  | |- quiet (sync _) => apply quiet_sync
  | |- quiet hop => by apply quiet_call
  | |- quiet (catchT _ _) => apply quiet_catch; [|intros ?]
  | |- quiet (mbind _ _) => apply quiet_bind; [|intros ?]
  | |- quiet (let _ := _ in _) => cbv zeta
  | |- quiet (if ?b then _ else _) => destruct b
  | |- quiet (match ?x with _ => _ end) => destruct x
  end.

Lemma quiet_updateSession sid patch : quiet (Async.updateSession sid patch).
Proof.
  unfold Async.updateSession, Async.persistSessionAudioBlob, Async.clearSessionAudioBlob.
  repeat quiet_step.
Qed.

Lemma quiet_openReportTab sid : quiet (Async.openReportTab sid).
Proof. unfold Async.openReportTab. repeat quiet_step. Qed.

Lemma quiet_onMessage env msg : quiet (Async.onMessage env msg).
Proof.
  unfold Async.onMessage. quiet_step; [|quiet_step].
  destruct msg as [| |payload|sid result error|payload|action].
  - unfold Async.onSTART_RECORDING, Async.getUserProfile, Async.pushSession.
    repeat quiet_step.
  - unfold Async.onSTOP_RECORDING.
    repeat (quiet_step || apply quiet_updateSession).
  - unfold Async.onPROCESS_SESSION_AUDIO. repeat quiet_step.
  - unfold Async.onOFFSCREEN_ANALYSIS_COMPLETE.
    repeat (quiet_step || apply quiet_updateSession || apply quiet_openReportTab).
  - unfold Async.onSESSION_REPORT_READY.
    repeat (quiet_step || apply quiet_updateSession).
  - quiet_step.
Qed.

(** A quiet task, once started, runs to its end. *)
Lemma run_quiet_quiet {A} (t : Task A) (w : World) :
  quiet t → run_quiet t w = ((finish t w).2, Done (finish t w).1).
Proof.
  revert w. induction t as [r|write next IH|kind rest IH]; intros w Hq; simpl in *.
  - done.
  - by apply IH.
  - destruct Hq as [-> Hq]. by apply IH.
Qed.

(** ** What a task keeps, whatever runs during its network waits

    [wp I t Q w]: started in [w], the task [t] ends in a world and with a
    result that satisfy [Q], provided that what runs while it waits for
    the network keeps [I]; and the task itself leaves [I] at each such
    wait. *)

Lemma wp_mono {A} (I : World → Prop) (t : Task A) (Q Q' : JsError + A → World → Prop) w :
  (∀ r w', Q r w' → Q' r w') → wp I t Q w → wp I t Q' w.
Proof.
  intros HQ. revert w.
  induction t as [r|write next IH|kind rest IH]; intros w; simpl; auto.
  destruct (is_network kind); [|auto]. intros [HI H]. split; auto.
Qed.

Lemma wp_bind {A B} (I : World → Prop) (t : Task A) (k : A → Task B) Q w :
  wp I t (λ r w', match r with
                  | inr x => wp I (k x) Q w'
                  | inl e => Q (inl e) w'
                  end) w →
  wp I (t ≫= k) Q w.
Proof.
  revert w. induction t as [[e|x]|write next IH|kind rest IH]; intros w; simpl; auto.
  destruct (is_network kind); [|auto]. intros [HI H]. split; auto.
Qed.

Lemma wp_catch {A} (I : World → Prop) (t : Task A) (h : JsError → Task A) Q w :
  wp I t (λ r w', match r with
                  | inr x => Q (inr x) w'
                  | inl e => wp I (h e) Q w'
                  end) w →
  wp I (catchT t h) Q w.
Proof.
  revert w. induction t as [[e|x]|write next IH|kind rest IH]; intros w; simpl; auto.
  destruct (is_network kind); [|auto]. intros [HI H]. split; auto.
Qed.

Lemma wp_quiet {A} (I : World → Prop) (t : Task A) Q w :
  quiet t → Q (finish t w).1 (finish t w).2 → wp I t Q w.
Proof.
  revert w. induction t as [r|write next IH|kind rest IH]; intros w Hq; simpl in *; auto.
  destruct Hq as [-> Hq]. auto.
Qed.

Lemma safe_ret {A} (I : World → Prop) (x : A) : safe I (mret x : Task A).
Proof. by intros w. Qed.

Lemma safe_bind {A B} (I : World → Prop) (t : Task A) (k : A → Task B) :
  safe I t → (∀ x, safe I (k x)) → safe I (t ≫= k).
Proof.
  intros Ht Hk w HI. apply wp_bind. eapply wp_mono; [|by apply Ht].
  intros [e|x] w' HI'; [done|]. by apply Hk.
Qed.

Lemma safe_catch {A} (I : World → Prop) (t : Task A) (h : JsError → Task A) :
  safe I t → (∀ e, safe I (h e)) → safe I (catchT t h).
Proof.
  intros Ht Hk w HI. apply wp_catch. eapply wp_mono; [|by apply Ht].
  intros [e|x] w' HI'; [|done]. by apply Hk.
Qed.

(** A quiet task is safe when the script it amounts to keeps [I]. *)
Lemma safe_quiet {A} (I : World → Prop) (t : Task A) (m : M A) :
  quiet t → (∀ w, finish t w = m w) → preserves I m → safe I t.
Proof.
  intros Hq Hm Hp w HI. apply wp_quiet; [done|]. rewrite Hm. by apply Hp.
Qed.

Lemma safe_call {A} (I : World → Prop) (kind : Wait) (m : M A) :
  preserves I m → safe I (call kind m).
Proof.
  intros Hp w HI. unfold call. simpl. destruct (is_network kind).
  - split; [by apply Hp|done].
  - by apply Hp.
Qed.

Lemma safe_sync {A} (I : World → Prop) (m : M A) : preserves I m → safe I (sync m).
Proof. intros Hp w HI. unfold sync. simpl. by apply Hp. Qed.

Lemma safe_hop (I : World → Prop) : safe I hop.
Proof. apply safe_call, preserves_ret. Qed.

Lemma safe_void {A} (I : World → Prop) (t : Task A) : safe I t → safe I (void t).
Proof. intros Ht. apply safe_bind; [done|]. intros x. apply safe_ret. Qed.

(** Soundness of [wp] for the loop of non-overlapping handlers: a task
    started where [wp] holds stops where [I] holds, either finished with
    [Q] or at a network wait from which [wp] holds again. *)
Lemma run_quiet_wp {A} (I : World → Prop) (t : Task A) Q w :
  wp I t Q w →
  match (run_quiet t w).2 with
  | Done r => Q r (run_quiet t w).1
  | Yield _ rest => I (run_quiet t w).1 ∧ ∀ w', I w' → wp I rest Q w'
  | Act _ _ => False
  end.
Proof.
  revert w. induction t as [r|write next IH|kind rest IH]; intros w; simpl.
  - done.
  - apply IH.
  - destruct (is_network kind); simpl; [done|apply IH].
Qed.

Lemma run_quiet_safe {A} (I : World → Prop) (t : Task A) w :
  wp I t (λ _ w', I w') w →
  I (run_quiet t w).1 ∧ safe I (body (run_quiet t w).2).
Proof.
  intros H%run_quiet_wp. destruct (run_quiet t w) as [w' t']. simpl in *.
  destruct t' as [r|write next|kind rest]; [|done|].
  - split; [done|]. by intros w0.
  - destruct H as [HI H]. split; [done|]. intros w0 HI0. by apply H.
Qed.

Lemma start_task_alone_inv (I : World → Prop) (s : System) (t : Task unit) :
  system_inv I s → wp I t (λ _ w', I w') (shared s) →
  system_inv I (start_task_alone s t).
Proof.
  intros [HI Hpool] [HI' Ht]%run_quiet_safe. split; [done|]. simpl.
  apply Forall_app. split; [done|]. by apply Forall_singleton.
Qed.

Lemma resume_alone_inv (I : World → Prop) (s : System) (i : nat) :
  system_inv I s → system_inv I (turn_alone s (Resume i)).
Proof.
  intros [HI Hpool]. simpl. destruct (pool s !! i) as [t|] eqn:Hi; [|done].
  assert (Ht : safe I (body t)) by (by apply (Forall_lookup_1 _ _ _ _ Hpool Hi)).
  assert (Hrun : resume_quiet t (shared s) = run_quiet (body t) (shared s)).
  { by destruct t. }
  rewrite Hrun. destruct (run_quiet_safe I (body t) (shared s)) as [HI' Ht']; [by apply Ht|].
  split; [done|]. simpl. by apply Forall_insert.
Qed.

(** ** The analysis job keeps what the coordinator's writes keep *)

Section interleaved_job.
Variable P : Store → Prop.
Hypothesis P_audio : ∀ st f, P st → P (set_audio_entries f st).
Hypothesis P_update : ∀ st i s patch,
  P st → sessions st !! i = Some s → ok_patch patch →
  P (set_sessions (<[i := patched s patch]> (sessions st)) st).

Lemma safe_updateSession sid patch :
  ok_patch patch → safe (on_store P) (Async.updateSession sid patch).
Proof.
  intros Hok. apply (safe_quiet _ _ (updateSession sid patch)).
  - apply quiet_updateSession.
  - apply finish_updateSession.
  - by apply preserves_updateSession.
Qed.

Lemma safe_openReportTab sid : safe (on_store P) (Async.openReportTab sid).
Proof.
  apply (safe_quiet _ _ (openReportTab sid)).
  - apply quiet_openReportTab.
  - apply finish_openReportTab.
  - apply preserves_openReportTab.
Qed.

Lemma safe_persist sid audio : safe (on_store P) (Async.persistSessionAudioBlob sid audio).
Proof.
  unfold Async.persistSessionAudioBlob.
  destruct audio as [a|]; [|apply safe_ret]. destruct (_ && _); [|apply safe_ret].
  apply safe_call. intros w HI. by apply P_audio.
Qed.

Lemma safe_ensureAudio env session provided mime :
  safe (on_store P) (Async.ensureAudioForSession env session provided mime).
Proof.
  unfold Async.ensureAudioForSession.
  destruct (truthy provided); [apply safe_ret|].
  apply safe_bind.
  { unfold Async.loadSessionAudioBlob. case_bool_decide; [apply safe_ret|].
    apply safe_bind; [apply safe_call, preserves_gets|]. intros ?. apply safe_ret. }
  intros cached. destruct (truthy cached); [apply safe_ret|].
  apply safe_bind.
  { unfold Async.fetchSessionAudioFromBackend.
    destruct (user_id session) as [u|]; [|apply safe_ret].
    destruct (_ && _); [|apply safe_ret].
    apply safe_call, preserves_fetch. }
  intros downloaded. destruct (truthy (downloaded ≫= a_audio_base64)); [|apply safe_ret].
  apply safe_bind; [apply safe_persist|]. intros _.
  apply safe_bind; [|intros _; apply safe_ret].
  apply safe_updateSession. solve_ok_patch.
Qed.

Lemma safe_onMessage_complete env sid result error :
  safe (on_store P) (Async.onMessage env (OFFSCREEN_ANALYSIS_COMPLETE sid result error)).
Proof.
  apply (safe_quiet _ _ (onMessage env (OFFSCREEN_ANALYSIS_COMPLETE sid result error))).
  - apply quiet_onMessage.
  - intros w. by apply finish_onMessage.
  - unfold onMessage. apply preserves_try_catch; [|intros ?; apply preserves_ret].
    by apply preserves_complete.
Qed.

Lemma safe_analyse env job : safe (on_store P) (Async.analyseSessionAudioJob env job).
Proof.
  unfold Async.analyseSessionAudioJob. destruct (negb (has_offscreen env)).
  - apply safe_catch; [|intros e; apply safe_updateSession, ok_failed_patch].
    apply safe_bind.
    { apply safe_call. unfold requestBackendAnalysis. repeat pres_step. }
    intros result. apply safe_bind; [apply safe_updateSession, ok_result_patch|].
    intros _. destruct (_ && _); [apply safe_openReportTab|apply safe_ret].
  - apply safe_catch; [|intros e; apply safe_updateSession, ok_failed_patch].
    unfold Async.dispatchOffscreenAnalysis.
    destruct (offscreen_channel env) as [e|]; [apply safe_call, preserves_throw|].
    apply safe_bind; [apply safe_hop|]. intros _.
    apply safe_bind; [apply safe_hop|]. intros _.
    apply safe_bind.
    + unfold Async.offscreen_onMessage. apply safe_catch.
      * apply safe_bind.
        { unfold Async.offscreen_runBackendAnalysis.
          destruct (_ || _); [by intros w|].
          apply safe_call. unfold Offscreen.runBackendAnalysis. repeat pres_step. }
        intros result. apply safe_bind; [apply safe_hop|]. intros _.
        apply safe_bind; [apply safe_onMessage_complete|]. intros _.
        apply safe_bind; [apply safe_hop|]. intros _. apply safe_ret.
      * intros error. apply safe_bind; [apply safe_hop|]. intros _.
        apply safe_bind; [apply safe_onMessage_complete|]. intros _.
        apply safe_bind; [apply safe_hop|]. intros _. apply safe_ret.
    + intros response. apply safe_bind; [apply safe_hop|]. intros _.
      destruct response; [apply safe_ret|by intros w].
Qed.

Lemma safe_process env payload :
  safe (on_store P) (Async.processSessionAudioJob env payload).
Proof.
  unfold Async.processSessionAudioJob. apply safe_bind.
  { unfold Async.getSessionById, get_sessions.
    apply safe_bind; [apply safe_call, preserves_gets|].
    intros ?. apply safe_ret. }
  intros [session|]; [|apply safe_ret].
  destruct (sessionId payload) as [sid|]; [|apply safe_ret].
  apply safe_bind; [apply safe_ensureAudio|]. intros resolved.
  destruct (resolved.1) as [readyAudio|];
    [|apply safe_updateSession, ok_failed_patch].
  case_bool_decide; [|apply safe_updateSession, ok_failed_patch].
  apply safe_bind; [apply safe_updateSession; solve_ok_patch|]. intros _.
  apply safe_bind; [apply safe_sync, preserves_set_autoOpened|]. intros _.
  apply safe_analyse.
Qed.

Lemma safe_spawned env msg :
  match Async.spawned env msg with
  | Some job => safe (on_store P) job
  | None => True
  end.
Proof.
  destruct msg as [| |payload|sid result error|payload|action]; try done.
  unfold Async.spawned. destruct (truthy _); [|done].
  apply safe_catch; [apply safe_process|]. intros _. apply safe_ret.
Qed.
End interleaved_job.

(** ** Handlers that do not overlap keep the active-session invariant *)

Lemma quiet_void {A} (t : Task A) : quiet t → quiet (void t).
Proof. intros Ht. apply quiet_bind; [done|]. intros x. apply quiet_ret. Qed.

Lemma handler_keeps_active_inv env msg w :
  gated w (Arrive env msg) → active_inv (storage w) →
  wp (on_store active_inv) (void (Async.onMessage env msg))
     (λ _ w', on_store active_inv w') w.
Proof.
  intros Hgate HI. apply wp_quiet; [apply quiet_void, quiet_onMessage|].
  unfold void. rewrite finish_bind.
  assert (Hother : (∀ payload, msg ≠ PROCESS_SESSION_AUDIO payload) →
                   active_inv (storage (finish (Async.onMessage env msg) w).2)).
  { intros Hmsg. rewrite finish_onMessage by done.
    by apply (step_active_inv w (Deliver env msg)). }
  destruct msg as [| |payload|sid result error|payload|action].
  3:{ unfold Async.onMessage, Async.onPROCESS_SESSION_AUDIO. by destruct (truthy _). }
  all: specialize (Hother ltac:(done)).
  all: by destruct (finish _ w) as [[e|r] w'].
Qed.

Lemma arrive_alone_inv env msg s :
  gated (shared s) (Arrive env msg) →
  system_inv (on_store active_inv) s →
  system_inv (on_store active_inv) (turn_alone s (Arrive env msg)).
Proof.
  intros Hgate Hinv. unfold turn_alone, arrivals.
  pose proof (safe_spawned active_inv active_inv_audio active_inv_update env msg) as Hjob.
  destruct (Async.spawned env msg) as [job|] eqn:Hsp; simpl.
  - assert (Hinv' : system_inv (on_store active_inv) (start_task_alone s job)).
    { apply start_task_alone_inv; [done|]. apply Hjob, Hinv. }
    apply start_task_alone_inv; [done|].
    apply handler_keeps_active_inv; [|apply Hinv'].
    destruct msg; try done.
  - apply start_task_alone_inv; [done|].
    apply handler_keeps_active_inv; [done|apply Hinv].
Qed.

Lemma turns_alone_inv es s :
  all_gated turn_alone s es →
  system_inv (on_store active_inv) s →
  system_inv (on_store active_inv) (turns_alone es s).
Proof.
  revert s. induction es as [|e es IH]; intros s Hg Hinv; [done|].
  destruct Hg as [Hg Hrest]. simpl. apply IH; [done|].
  destruct e as [env msg|i]; [by apply arrive_alone_inv|by apply resume_alone_inv].
Qed.

Lemma initial_system_inv : system_inv (on_store active_inv) initial_system.
Proof.
  split; [|by apply Forall_nil].
  split; [|split]; simpl; [apply NoDup_nil_2|intros s Hs; by apply elem_of_nil in Hs|done].
Qed.

(** ** Every schedule of non-overlapping handlers is a schedule of the loop *)

Lemma run_quiet_again {A} (t : Task A) (w : World) :
  ∃ n, Nat.iter n again (run_sync t w) = run_quiet t w.
Proof.
  revert w. induction t as [r|write next IH|kind rest IH]; intros w; simpl.
  - by exists 0.
  - apply IH.
  - destruct (is_network kind); [by exists 0|].
    destruct (IH w) as [n Hn]. exists (S n).
    by rewrite Nat.iter_succ_r.
Qed.

Lemma resumes_turns (i n : nat) (s : System) (t : Task unit) :
  pool s !! i = Some t →
  turns (replicate n (Resume i)) s =
    {| shared := (Nat.iter n again (shared s, t)).1;
       pool := <[i := (Nat.iter n again (shared s, t)).2]> (pool s) |}.
Proof.
  revert s t. induction n as [|n IH]; intros s t Hi.
  - simpl. rewrite list_insert_id by done. by destruct s.
  - rewrite Nat.iter_succ_r. simpl. rewrite Hi.
    rewrite (IH _ (resume t (shared s)).2).
    + simpl. rewrite list_insert_insert_eq.
      replace (again (shared s, t)) with (resume t (shared s)) by done.
      by destruct (resume t (shared s)).
    + simpl. apply list_lookup_insert_eq. by eapply lookup_lt_Some.
Qed.

Lemma insert_last {A} (l : list A) (x y : A) : <[length l := y]> (l ++ [x]) = l ++ [y].
Proof. rewrite insert_app_r_alt by done. by rewrite Nat.sub_diag. Qed.

Lemma start_task_alone_turns (s : System) (t : Task unit) :
  ∃ n, turns (replicate n (Resume (length (pool s)))) (start_task s t) =
       start_task_alone s t.
Proof.
  destruct (run_quiet_again t (shared s)) as [n Hn]. exists n.
  rewrite (resumes_turns _ _ _ (run_sync t (shared s)).2).
  - unfold start_task, start_task_alone. simpl.
    destruct (run_sync t (shared s)) as [w1 t1]. simpl in *.
    rewrite Hn. by rewrite insert_last.
  - unfold start_task. simpl. by rewrite lookup_app_r, Nat.sub_diag.
Qed.

Lemma turns_cons (e : Turn) (es : list Turn) (s : System) :
  turns (e :: es) s = turns es (turn s e).
Proof. done. Qed.

Lemma process_handler_done env msg job :
  Async.spawned env msg = Some job → void (Async.onMessage env msg) = Done (inr tt).
Proof.
  destruct msg as [| |payload|sid result error|payload|action]; try done.
  unfold Async.spawned, Async.onMessage, Async.onPROCESS_SESSION_AUDIO.
  by destruct (truthy _).
Qed.

Lemma turn_alone_turns (s : System) (e : Turn) :
  ∃ es, turns es s = turn_alone s e.
Proof.
  destruct e as [env msg|i].
  - unfold turn_alone, arrivals.
    destruct (Async.spawned env msg) as [job|] eqn:Hsp.
    + pose proof (process_handler_done env msg job Hsp) as Hh.
      destruct (start_task_alone_turns s job) as [n Hn].
      exists (Arrive env msg :: replicate n (Resume (length (pool s)))).
      rewrite turns_cons. unfold turn, arrivals. rewrite Hsp, Hh. simpl.
      rewrite <- Hn.
      rewrite (resumes_turns _ _ _ (run_sync job (shared s)).2).
      2:{ simpl. rewrite lookup_app_l by (rewrite length_app; simpl; lia).
          by rewrite lookup_app_r, Nat.sub_diag. }
      rewrite (resumes_turns _ _ _ (run_sync job (shared s)).2).
      2:{ simpl. by rewrite lookup_app_r, Nat.sub_diag. }
      unfold start_task_alone, start_task. simpl.
      rewrite insert_app_l by (rewrite length_app; simpl; lia).
      by rewrite insert_last.
    + simpl. destruct (start_task_alone_turns s (void (Async.onMessage env msg))) as [n Hn].
      exists (Arrive env msg :: replicate n (Resume (length (pool s)))).
      rewrite turns_cons. unfold turn, arrivals. by rewrite Hsp.
  - simpl. destruct (pool s !! i) as [t|] eqn:Hi; [|by exists []].
    destruct (run_quiet_again (body t) (shared s)) as [n Hn].
    exists (Resume i :: replicate n (Resume i)). rewrite turns_cons. simpl. rewrite Hi.
    assert (Hres : resume t (shared s) = run_sync (body t) (shared s)) by (by destruct t).
    assert (Hresq : resume_quiet t (shared s) = run_quiet (body t) (shared s))
      by (by destruct t).
    rewrite Hres, Hresq.
    rewrite (resumes_turns _ _ _ (run_sync (body t) (shared s)).2).
    + simpl. rewrite list_insert_insert_eq.
      destruct (run_sync (body t) (shared s)) as [w1 t1]. simpl in *. by rewrite Hn.
    + simpl. apply list_lookup_insert_eq. by eapply lookup_lt_Some.
Qed.

Lemma turns_alone_turns (es : list Turn) (s : System) :
  ∃ fs, turns fs s = turns_alone es s.
Proof.
  revert s. induction es as [|e es IH]; intros s; [by exists []|].
  destruct (turn_alone_turns s e) as [fs1 H1].
  destruct (IH (turn_alone s e)) as [fs2 H2].
  exists (fs1 ++ fs2). unfold turns in *. rewrite foldl_app, H1. apply H2.
Qed.

(** ** The active session under interleaving (C1) *)

Global Instance gated_dec (w : World) (e : Turn) : Decision (gated w e).
Proof. destruct e as [env msg|i]; [destruct msg|]; simpl; apply _. Defined.

Global Instance all_gated_dec (next : System → Turn → System) (es : list Turn) (s : System) :
  Decision (all_gated next s es).
Proof. revert s. induction es as [|e es IH]; intros s; simpl; apply _. Defined.

(** C1, amended.  (1) When handlers do not overlap (a handler, and each
    stretch of an analysis job between two network waits, runs to its end
    before anything else does) and every start command arrives while the
    stored [activeSessionId] is empty and brings a fresh non-empty id,
    then at most one session has status [recording] and its id is
    [activeSessionId] whenever that is non-null.  (2) Every such schedule
    is a schedule of the event loop.  (3) The start handler itself never
    rejects: run to its end it answers [ok] with the new id, appends one
    session in [recording] and points [activeSessionId] at it.  (4) The
    event loop does not keep handlers apart, and without that the
    invariant fails even though every start command is gated: in
    [overlapping_stop] a stop command overlaps the end of an analysis
    job, the job writes back the array it read before the stop, and after
    the next start two sessions are [recording]. *)
Theorem gated_start_single_recording :
  (∀ es, all_gated turn_alone initial_system es →
     single_recording (storage (shared (turns_alone es initial_system)))) ∧
  (∀ es, ∃ fs, turns fs initial_system = turns_alone es initial_system) ∧
  (∀ env w, ∃ s w',
     finish (Async.onMessage env START_RECORDING) w =
       (inr (RespOk (Some (uuid_session env))), w') ∧
     sessions (storage w') = sessions (storage w) ++ [s] ∧
     status s = recording ∧ id s = uuid_session env ∧
     activeSessionId (storage w') = Some (uuid_session env)) ∧
  (let s := turns overlapping_stop initial_system in
   all_gated turn initial_system overlapping_stop ∧
   Forall (λ t, t = Done (inr tt)) (pool s) ∧
   id <$> sessions (storage (shared s)) = ["session-1"; "session-2"; "session-3"] ∧
   status <$> sessions (storage (shared s)) = [failed; recording; recording] ∧
   activeSessionId (storage (shared s)) = Some "session-3" ∧
   ¬ single_recording (storage (shared s))).
Proof.
  split; [|split; [|split]].
  - intros es Hg. apply active_inv_single_recording.
    by apply (turns_alone_inv es initial_system Hg initial_system_inv).
  - intros es. apply turns_alone_turns.
  - intros env w. rewrite finish_onMessage by done.
    destruct (start_run env w) as (p & u & Hrun). rewrite Hrun.
    eexists (newSessionMeta env p), _. split; [reflexivity|]. done.
  - intros s. split; [apply (bool_decide_unpack _); by vm_compute|].
    split; [vm_compute; repeat constructor|].
    split; [by vm_compute|]. split; [by vm_compute|]. split; [by vm_compute|].
    intros [Hlen _]. vm_compute in Hlen. lia.
Qed.

Lemma gated_start_single_recording_witness :
  all_gated turn_alone initial_system separate_recordings ∧
  single_recording (storage (shared (turns_alone separate_recordings initial_system))) ∧
  status <$> sessions (storage (shared (turns_alone separate_recordings initial_system))) =
    [failed; processing; recording].
Proof.
  assert (Hg : all_gated turn_alone initial_system separate_recordings).
  { apply (bool_decide_unpack _). by vm_compute. }
  split; [exact Hg|]. split; [|by vm_compute].
  exact (proj1 gated_start_single_recording separate_recordings Hg).
Defined.

(** ** Appending sessions under interleaving *)

(** X5: the coordinator appends sessions and never removes, reorders or
    re-identifies one, as long as its handlers do not overlap.  (1) A
    listener run to its end leaves the stored records in their order as
    far as id, creation time, owner and inline audio field go, and a
    start command appends exactly one record.  (2) So does an analysis
    job run to its end.  (3) [pushSession] and [updateSession] read the
    array, wait, and write it back: in [overlapping_start] a start
    command overlaps the end of an analysis job, every handler finishes,
    and the session just started is gone from the store while
    [activeSessionId] names it; the same messages handled one after the
    other keep both sessions. *)
Theorem append_only_unless_overlapping :
  (∀ env msg w,
     birth <$> sessions (storage (finish (Async.onMessage env msg) w).2) =
       (birth <$> sessions (storage w)) ++
         match msg with
         | START_RECORDING => [birth (newSessionMeta env (profile_in_use env w))]
         | _ => []
         end) ∧
  (∀ env payload w,
     birth <$> sessions (storage (finish (Async.processSessionAudioJob env payload) w).2) =
       birth <$> sessions (storage w)) ∧
  (let s := turns overlapping_start initial_system in
   let s' := turns_alone separate_start initial_system in
   Forall (λ t, t = Done (inr tt)) (pool s) ∧
   id <$> sessions (storage (shared s)) = ["session-1"] ∧
   activeSessionId (storage (shared s)) = Some "session-2" ∧
   Forall (λ t, t = Done (inr tt)) (pool s') ∧
   id <$> sessions (storage (shared s')) = ["session-1"; "session-2"] ∧
   activeSessionId (storage (shared s')) = Some "session-2").
Proof.
  split; [|split].
  - intros env msg w.
    assert (Hother : (∀ payload, msg ≠ PROCESS_SESSION_AUDIO payload) →
      birth <$> sessions (storage (finish (Async.onMessage env msg) w).2) =
        (birth <$> sessions (storage w)) ++
          match msg with
          | START_RECORDING => [birth (newSessionMeta env (profile_in_use env w))]
          | _ => []
          end).
    { intros Hmsg. rewrite finish_onMessage by done.
      pose proof (births_step w (Deliver env msg)) as Hstep. simpl in Hstep.
      rewrite Hstep. by destruct msg. }
    destruct msg as [| |payload|sid result error|payload|action]; try (by apply Hother).
    rewrite app_nil_r. unfold Async.onMessage, Async.onPROCESS_SESSION_AUDIO.
    by destruct (truthy _).
  - intros env payload w. rewrite finish_process.
    set (P := λ st : Store, birth <$> sessions st = birth <$> sessions (storage w)).
    assert (HPa : ∀ st f, P st → P (set_audio_entries f st)) by done.
    assert (HPu : ∀ st i s patch, P st → sessions st !! i = Some s → ok_patch patch →
                  P (set_sessions (<[i := patched s patch]> (sessions st)) st)).
    { intros st i s patch. apply births_update. }
    assert (Hp : preserves (on_store P) (processSessionAudioJob env payload)).
    { unfold processSessionAudioJob. apply preserves_bind; [by apply preserves_begin|].
      intros [j|]; [by apply preserves_analyse|apply preserves_ret]. }
    by apply Hp.
  - intros s s'. split; [vm_compute; repeat constructor|].
    split; [by vm_compute|]. split; [by vm_compute|].
    split; [vm_compute; repeat constructor|].
    split; by vm_compute.
Qed.

(** ** A settled analysis ends its session, run alone *)

(** X12: an analysis call that settles while the job's session is still
    stored ends that session.  Whatever the analysis endpoint or the
    offscreen document does (success, error status, rejection, broken
    channel), the rest of the job, run to its end with nothing in
    between, returns normally and leaves the first record with the job's
    id in status [done] or [failed], with a report.  The statement is
    about this one run: it does not cover a session deleted before the
    call settles, nor another handler running during the job's waits. *)
Theorem settled_job_ends_session (env : Env) (job : Job) (w : World) :
  job_sessionId job ≠ "" →
  job_sessionId job ∈ id <$> sessions (storage w) →
  ∃ w' i s,
    analyseSessionAudioJob env job w = (inr tt, w') ∧
    finish (Async.analyseSessionAudioJob env job) w = (inr tt, w') ∧
    first_with_id (job_sessionId job) (sessions (storage w')) i s ∧
    (status s = done ∨ status s = failed) ∧
    is_Some (session_report s).
Proof.
  intros Hs Hin.
  destruct (analyse_terminal env job w Hs Hin) as [Hok (i & s & Hfind & Hterm & Hrep)].
  rewrite finish_analyse.
  destruct (analyseSessionAudioJob env job w) as [r w'] eqn:Hrun. simpl in *. subst r.
  exists w', i, s. split; [done|]. split; [done|].
  split; [by apply first_with_id_findIndex|done].
Qed.

Lemma settled_job_ends_session_witness :
  ∃ w' i s,
    analyseSessionAudioJob broken_channel_env queued_job waiting_world = (inr tt, w') ∧
    finish (Async.analyseSessionAudioJob broken_channel_env queued_job) waiting_world =
      (inr tt, w') ∧
    first_with_id "session-1" (sessions (storage w')) i s ∧
    (status s = done ∨ status s = failed) ∧
    is_Some (session_report s).
Proof.
  apply (settled_job_ends_session broken_channel_env queued_job waiting_world).
  - done.
  - apply (bool_decide_unpack _). by vm_compute.
Defined.
